(** * Tortuga GCE resource adapter: batch provisioning orchestrator

    A shallow embedding of [src/tortuga/resourceAdapter/gceadapter/gce.py].

    Python dictionaries used as maps are [gmap]s, exceptions are the
    [Raise] branch of [res], and calls to the external collaborators
    (the API of the backend, the database session, the SAN catalogue,
    the logger) are answered by an oracle record and written to a trace
    of [event]s. *)

From Stdlib Require Import ZArith QArith Lia Ascii String List.
From stdpp Require Import base option list gmap strings sorting pretty.

Local Open Scope string_scope.
Local Open Scope list_scope.
Local Open Scope Z_scope.

(** ** Python values used by the adapter *)

(** The exceptions the adapter raises or lets through. *)
Inductive exn : Type :=
| ConfigurationError (msg : string)
| CommandFailed (msg : string)
| OperationFailed (msg : string)
| HttpError (status : Z)
| KeyError (key : string)
| ValueError (msg : string)
| TypeError (msg : string)
| AttributeError (msg : string)
| OtherError (cls : string) (msg : string).

(** The outcome of a call: a value, or a raised exception. *)
Inductive res (A : Type) : Type :=
| Ok (a : A)
| Raise (e : exn).
Arguments Ok {A} a.
Arguments Raise {A} e.

Definition is_Ok {A} (r : res A) : bool :=
  match r with Ok _ => true | Raise _ => false end.

Definition is_ConfigurationError (e : exn) : bool :=
  match e with ConfigurationError _ => true | _ => false end.

Definition raises_ConfigurationError {A} (r : res A) : bool :=
  match r with Ok _ => false | Raise e => is_ConfigurationError e end.

Definition res_bind {A B} (r : res A) (k : A -> res B) : res B :=
  match r with
  | Ok a => k a
  | Raise e => Raise e
  end.

(** The string methods the adapter uses, on ASCII text: [lower] changes
    the letters [A-Z] and [strip] removes the six ASCII white spaces. *)
Module Py.

Definition ascii_eqb (a b : ascii) : bool := bool_decide (a = b).

(** [s.split(sep)] for a one-character separator. *)
Fixpoint split (sep : ascii) (s : string) : list string :=
  match s with
  | EmptyString => [EmptyString]
  | String c s' =>
      if ascii_eqb c sep then EmptyString :: split sep s'
      else match split sep s' with
           | w :: ws => String c w :: ws
           | [] => [String c EmptyString]
           end
  end.

(** [s.split(sep, maxsplit)]. *)
Fixpoint splitn (sep : ascii) (maxsplit : nat) (s : string) {struct s}
  : list string :=
  match maxsplit with
  | O => [s]
  | S n =>
      match s with
      | EmptyString => [EmptyString]
      | String c s' =>
          if ascii_eqb c sep then EmptyString :: splitn sep n s'
          else match splitn sep maxsplit s' with
               | w :: ws => String c w :: ws
               | [] => [String c EmptyString]
               end
      end
  end.

(** [s.rsplit(sep, 1)]: split at the last separator. *)
Definition rsplit1 (sep : ascii) (s : string) : list string :=
  reverse (String.rev <$> splitn sep 1 (String.rev s)).

(** [s.count(c)]. *)
Fixpoint count (c : ascii) (s : string) : nat :=
  match s with
  | EmptyString => O
  | String a s' => ((if ascii_eqb a c then 1 else 0) + count c s')%nat
  end.

(** [c in s]. *)
Definition contains (c : ascii) (s : string) : bool :=
  negb (Nat.eqb (count c s) 0).

Definition lower_ascii (a : ascii) : ascii :=
  let n := nat_of_ascii a in
  if (Nat.leb 65 n && Nat.leb n 90)%bool then ascii_of_nat (n + 32) else a.

(** [s.lower()]. *)
Fixpoint lower (s : string) : string :=
  match s with
  | EmptyString => EmptyString
  | String a s' => String (lower_ascii a) (lower s')
  end.

(** [s.startswith(p)]. *)
Definition startswith (p s : string) : bool := String.prefix p s.

Fixpoint lstrip (s : string) : string :=
  match s with
  | EmptyString => EmptyString
  | String a s' => if Ascii.is_space a then lstrip s' else s
  end.

(** [s.strip()]. *)
Definition strip (s : string) : string :=
  String.rev (lstrip (String.rev (lstrip s))).

(** The digits of a decimal literal; single underscores may separate
    digits, as [int()] allows. [acc] is the value read so far and
    [prev_digit] tells whether the previous character was a digit. *)
Fixpoint digits (s : string) (acc : Z) (prev_digit : bool) : option Z :=
  match s with
  | EmptyString => if prev_digit then Some acc else None
  | String a s' =>
      match Ascii.is_nat a with
      | Some d => digits s' (10 * acc + Z.of_nat d) true
      | None =>
          if (ascii_eqb a "_"%char && prev_digit)%bool
          then digits s' acc false
          else None
      end
  end.

(** [int(s)]: [None] stands for the [ValueError] it raises. *)
Definition int (s : string) : option Z :=
  match strip s with
  | String "-"%char s' => Z.opp <$> digits s' 0 false
  | String "+"%char s' => digits s' 0 false
  | s' => digits s' 0 false
  end.

(** Truthiness of an optional string: [None] and [''] are false. *)
Definition truthy (s : option string) : bool :=
  match s with
  | Some (String _ _) => true
  | _ => false
  end.

End Py.

(** ** Module constants *)

Definition API_VERSION : string := "v1".

Definition GCE_URL : string :=
  "https://www.googleapis.com/compute/" +:+ API_VERSION +:+ "/projects/".

Record access_config : Type := {
  ac_type : string;
  ac_name : string;
}.

Definition EXTERNAL_NETWORK_ACCESS_CONFIG : list access_config :=
  [ {| ac_type := "ONE_TO_ONE_NAT"; ac_name := "External NAT" |} ].

(** [get_instance_name_from_host_name] *)
Definition get_instance_name_from_host_name (hostname : string) : string :=
  match Py.splitn "."%char 1 hostname with
  | h :: _ => h
  | [] => hostname
  end.

(** ** Network interfaces *)

(** A network interface dict: the keys ['network'], ['subnetwork'] and
    ['accessConfigs']; an absent key is [None]. *)
Record network_interface : Type := {
  network : string;
  subnetwork : option string;
  accessConfigs : option (list access_config);
}.

(** One entry of [config['networks']], as [split_three_item_value]
    produces it: network, subnet, flags. *)
Definition network_def : Type := (string * option string * option string)%type.

(** [split_forward_slash_value] *)
Definition split_forward_slash_value (value default : string)
  : string * string :=
  if Py.contains "/"%char value then
    match Py.splitn "/"%char 1 value with
    | [t1; t2] => (t1, t2)
    | _ => (default, value)
    end
  else (default, value).

(** [split_three_item_value] *)
Definition split_three_item_value (value : string) : network_def :=
  let token_count := Py.count ":"%char value in
  if Nat.eqb token_count 2 then
    match Py.splitn ":"%char token_count value with
    | [t1; t2; t3] => (t1, Some t2, Some t3)
    | _ => (value, None, None)
    end
  else if Nat.eqb token_count 1 then
    match Py.splitn ":"%char token_count value with
    | [t1; t2] => (t1, Some t2, None)
    | _ => (value, None, None)
    end
  else (value, None, None).

(** The loop of [get_network_flags] over the [';']-separated tokens. *)
Fixpoint get_network_flags_loop (args : list string)
    (result : gmap string bool) : res (gmap string bool) :=
  match args with
  | [] => Ok result
  | network_arg :: rest =>
      if bool_decide (network_arg = "") then
        get_network_flags_loop rest result
      else if Py.startswith "ext" (Py.lower network_arg) then
        get_network_flags_loop rest (<["external" := true]> result)
      else if Py.startswith "noext" (Py.lower network_arg) then
        get_network_flags_loop rest (<["external" := false]> result)
      else if Py.startswith "pri" (Py.lower network_arg) then
        get_network_flags_loop rest (<["primary" := true]> result)
      else
        Raise (ConfigurationError
                 ("Invalid network flag: [" +:+ network_arg +:+ "]"))
  end.

(** [get_network_flags] *)
Definition get_network_flags (network_args : option string)
  : res (gmap string bool) :=
  match network_args with
  | None => Ok ∅
  | Some a => get_network_flags_loop (Py.split ";"%char a) ∅
  end.

(** [set_external_network_access] *)
Definition set_external_network_access (ni : network_interface)
  : network_interface :=
  {| network := network ni;
     subnetwork := subnetwork ni;
     accessConfigs := Some EXTERNAL_NETWORK_ACCESS_CONFIG |}.

(** [is_network_flag_set] *)
Definition is_network_flag_set (network_flags : gmap string bool)
    (flag : string) (default : bool) : bool :=
  from_option id default (network_flags !! flag).

(** [enable_external_network_access]; the interface list is updated in
    place in the source and returned here. *)
Definition enable_external_network_access (networks : list network_def)
    (network_interfaces : list network_interface)
  : res (list network_interface) :=
  match networks, network_interfaces with
  | [(network_def, _, network_args)], ni0 :: others =>
      if bool_decide (network_def = "default") then
        Ok (set_external_network_access ni0 :: others)
      else
        res_bind (get_network_flags network_args) (fun flags =>
          if is_network_flag_set flags "external" true
          then Ok (set_external_network_access ni0 :: others)
          else Ok network_interfaces)
  | _, _ => Ok network_interfaces
  end.

(** [Gce.__get_network_interface] *)
Definition get_network_interface (default_project default_region : string)
    (net : network_def) : res (network_interface * gmap string bool) :=
  let '(network_def, subnet_def, network_args) := net in
  let '(project, network) :=
    split_forward_slash_value network_def default_project in
  let network_interface :=
    {| network := GCE_URL +:+ project +:+ "/global/networks/" +:+ network;
       subnetwork :=
         if Py.truthy subnet_def then
           let '(region, subnetwork) :=
             split_forward_slash_value (from_option id "" subnet_def) default_region in
           Some (GCE_URL +:+ project +:+ "/regions/" +:+ region
                   +:+ "/subnetworks/" +:+ subnetwork)
         else None;
       accessConfigs := None |} in
  res_bind (get_network_flags network_args) (fun flags =>
    Ok (network_interface, flags)).

(** The [for network in networks] loop of
    [Gce.__get_network_interface_definitions]; [primary_intfc] and
    [network_interfaces] are its two local variables. *)
Fixpoint network_interface_loop (project region : string)
    (networks : list network_def)
    (primary_intfc : option network_def)
    (network_interfaces : list network_interface)
  : res (list network_interface) :=
  match networks with
  | [] => Ok network_interfaces
  | net :: rest =>
      res_bind (get_network_interface project region net)
        (fun '(network_interface, network_flags) =>
           let primary_value := network_flags !! "primary" in
           let is_primary :=
             match primary_value with Some true => true | _ => false end in
           if (is_primary && bool_decide (primary_intfc <> None))%bool then
             Raise (ConfigurationError
                      ("Only one interface may be primary: "
                         +:+ net.1.1 +:+ " is already marked as primary"))
           else
             let primary_intfc' :=
               if is_primary then Some net else primary_intfc in
             let network_interface' :=
               if is_network_flag_set network_flags "external" false
               then set_external_network_access network_interface
               else network_interface in
             network_interface_loop project region rest primary_intfc'
               (network_interfaces ++ [network_interface']))
  end.

(** [Gce.__get_network_interface_definitions] *)
Definition get_network_interface_definitions (project region : string)
    (networks : list network_def) : res (list network_interface) :=
  res_bind (network_interface_loop project region networks None [])
    (fun network_interfaces =>
       enable_external_network_access networks network_interfaces).


(** [exc.__class__.__name__] *)
Definition exn_class_name (e : exn) : string :=
  match e with
  | ConfigurationError _ => "ConfigurationError"
  | CommandFailed _ => "CommandFailed"
  | OperationFailed _ => "OperationFailed"
  | HttpError _ => "HttpError"
  | KeyError _ => "KeyError"
  | ValueError _ => "ValueError"
  | TypeError _ => "TypeError"
  | AttributeError _ => "AttributeError"
  | OtherError cls _ => cls
  end.

(** [str(exc)] *)
Definition exn_str (e : exn) : string :=
  match e with
  | ConfigurationError m | CommandFailed m | OperationFailed m
  | ValueError m | TypeError m | AttributeError m | OtherError _ m => m
  | HttpError status => "<HttpError " +:+ pretty status +:+ ">"
  | KeyError k => "'" +:+ k +:+ "'"
  end.

(** ** Accelerators *)

Record accelerator : Type := {
  acceleratorType : string;
  acceleratorCount : Z;
}.

(** The loop of [_parse_accelerator] over the [','] separated items. *)
Fixpoint _parse_accelerator_loop (items : list string)
    (accel : list accelerator) : res (list accelerator) :=
  match items with
  | [] => Ok accel
  | s :: rest =>
      match Py.split ":"%char (Py.strip s) with
      | [accelerator; count] =>
          match Py.int count with
          | Some n =>
              _parse_accelerator_loop rest
                (accel ++ [ {| acceleratorType := accelerator;
                               acceleratorCount := n |} ])
          | None =>
              Raise (ValueError
                       ("invalid literal for int() with base 10: '"
                          +:+ count +:+ "'"))
          end
      | _ => Raise (ConfigurationError "Invalid Accelerator Configuration")
      end
  end.

(** [_parse_accelerator] *)
Definition _parse_accelerator (accelerator_string : string)
  : res (list accelerator) :=
  _parse_accelerator_loop (Py.split ","%char accelerator_string) [].

(** ** Adapter configuration *)

(** The settings [Gce.process_config] receives. [s_default_scopes] and
    [s_tags] are the outcomes of [__validate_default_scopes] and
    [_parse_custom_tags], which run first; [s_region] is a ['region'] key
    already in the dict, which no setting of the adapter defines. *)
Record settings : Type := {
  s_default_scopes : res unit;
  s_tags : res (list string);
  s_zone : string;
  s_region : option string;
  s_network : option (list string);
  s_networks : option (list string);
}.

(** [Gce.process_config]: the region and the network definitions it adds
    to the configuration. *)
Definition process_config (cfg : settings)
  : res (string * list network_def) :=
  res_bind (s_default_scopes cfg) (fun _ =>
  res_bind (s_tags cfg) (fun _ =>
  res_bind
    (match Py.rsplit1 "-"%char (s_zone cfg) with
     | [region; _] => Ok region
     | _ =>
         (* [except ValueError]: the message formats [config['region']] *)
         match s_region cfg with
         | Some region =>
             Raise (ConfigurationError
                      ("Invalid format for 'region' setting: " +:+ region))
         | None => Raise (KeyError "region")
         end
     end)
    (fun region =>
       let network_defs :=
         match s_network cfg, s_networks cfg with
         | Some n, _ => n
         | None, Some n => n
         | None, None => ["default"]
         end in
       Ok (region, split_three_item_value <$> network_defs)))).

(** The keys of [session['config']] the orchestrator reads; optional keys
    are [None] when absent. *)
Record config : Type := {
  cfg_project : string;
  cfg_zone : string;
  cfg_region : string;
  cfg_networks : list network_def;
  cfg_image : option string;
  cfg_image_family : option string;
  cfg_image_url : option string;
  cfg_accelerators : option string;
  cfg_disksize : Z;
  cfg_sleeptime : Z;
}.

(** ** Compute Engine values *)

Record gce_error : Type := {
  err_message : string;
  err_code : string;
}.

(** An operation resource: ['name'], ['zone'], ['status'], the list under
    ['error']['errors'], and ['targetLink']. *)
Record operation : Type := {
  op_name : string;
  op_zone : option string;
  op_status : string;
  op_error : option (list gce_error);
  op_targetLink : option string;
}.

(** What the operations endpoint answers to the successive [get] calls on
    one operation: finitely many operation resources, then an empty
    answer or an error. The empty answer is the empty dict [{}] that
    [execute()] returns for a response without content: it is falsy, it
    ends the loop of the pollers, and it is what they return then. The
    pollers have no timeout, so a backend that reports an operation as
    running for ever makes them loop for ever, and the call that waits
    never returns. The scripts of a [World] are the answer sequences
    that end: what is proved about a [World] is about the calls that
    return. The poller on a backend that answers without end is
    [_gevent_blocking_call_fuel]; it agrees with the poller on a script
    when the answers end, and never returns when they do not. *)
Inductive poll_end : Type :=
| EndEmpty
| EndRaise (e : exn).

Record poll_script : Type := {
  answers : list operation;
  ending : poll_end;
}.

Record vm_nic : Type := {
  networkIP : option string;
}.

(** An instance resource: the list under ['networkInterfaces']. *)
Record vm_instance : Type := {
  networkInterfaces : option (list vm_nic);
}.

(** A disk entry of the SAN catalogue. *)
Record disk : Type := {
  adapter : string;
  size : Z;
  sanVolume : option string;
}.

(** The answer of [sanApi.discoverStorageChanges]. The keys of both
    dicts are the decimal strings of the disk numbers: a key is kept here
    as the number [int(key)], and key order is the order of the strings. *)
Record disk_changes : Type := {
  added : gmap Z disk;
  removed : gmap Z disk;
}.

(** ** Collaborators *)

(** The answers of the collaborators. Calls to Compute Engine answer with
    a value or raise; the database session, the SAN catalogue, the
    add-host session and the event bus are taken to answer normally. *)
Record World : Type := {
  images_get : option string -> string -> res string;
  images_getFromFamily : option string -> string -> res string;
  discoverStorageChanges : string -> bool -> disk_changes;
  disks_insert : string -> res operation;
  instances_insert : string -> res operation;
  operations_get : string -> poll_script;
  random_source : string -> nat -> Z;
  instances_get : string -> res vm_instance;
  instances_delete : string -> res operation;
  pre_add_host : string -> string -> res unit;
  instance_metadata : string -> res (list (string * string));
  load_resource_adapter_config : res string;
  generate_node_name : nat -> res string;
}.

(** The calls the adapter makes, in the order it makes them. The
    messages of the logger are kept without their double quotes.
    [diskNumber] in [DisksInsert] is the disk number the provisioner is
    at; it is not part of the request sent. *)
Inductive event : Type :=
| ImagesGet (project : option string) (image : string)
| ImagesGetFromFamily (project : option string) (family : string)
| DisksInsert (diskNumber : Z) (name : string) (sizeGb : Q)
| InstancesInsert (name : string)
| OperationsGet (operation : string) (zone : option string)
| Sleep (seconds : Q)
| InstancesGet (name : string)
| InstancesDelete (name : string)
| PreAddHost (node_name : string) (ip : string)
| SanAddDrive (node_name : string) (diskNumber : Z)
| SanDeleteDrive (node_name : string) (diskNumber : Z)
| ClearSessionNode (node_name : string)
| DbAddAll (node_names : list string)
| DbDelete (node_name : string)
| DbCommit
| ProvisionedEvent (node_name : string)
| LogWarning (msg : string)
| LogError (msg : string).

(** The calls that reach the Compute Engine API. *)
Definition is_cloud_call (e : event) : bool :=
  match e with
  | ImagesGet _ _ | ImagesGetFromFamily _ _ | DisksInsert _ _ _
  | InstancesInsert _ | OperationsGet _ _ | InstancesGet _
  | InstancesDelete _ => true
  | _ => false
  end.

(** ** State and exceptions *)

Section Monad.
Context {S : Type}.

Definition M (A : Type) : Type := S -> res A * S.

Definition ret {A} (a : A) : M A := fun s => (Ok a, s).

Definition raise {A} (e : exn) : M A := fun s => (Raise e, s).

Definition bind {A B} (m : M A) (k : A -> M B) : M B :=
  fun s =>
    match m s with
    | (Ok a, s') => k a s'
    | (Raise e, s') => (Raise e, s')
    end.

(** [try: m except Exception as exc: handler(exc)] *)
Definition try_except {A} (m : M A) (handler : exn -> M A) : M A :=
  fun s =>
    match m s with
    | (Ok a, s') => (Ok a, s')
    | (Raise e, s') => handler e s'
    end.

Definition lift_res {A} (r : res A) : M A := fun s => (r, s).

Definition gets {A} (f : S -> A) : M A := fun s => (Ok (f s), s).

Definition modify (f : S -> S) : M unit := fun s => (Ok tt, f s).
End Monad.
Arguments M : clear implicits.

Notation "'let*' x := m 'in' k" := (bind m (fun x => k))
  (at level 10, x pattern, m at level 100, k at level 200).
Notation "m >> k" := (bind m (fun _ => k))
  (at level 100, k at level 200, right associativity).

(** A call made outside of any request: only the trace is state. *)
Definition emit (e : event) : M (list event) unit :=
  modify (fun tr : list event => tr ++ [e]).

(** ** Batch launch arguments *)

Record common_launch_args : Type := {
  image_url : string;
  network_interfaces : list network_interface;
  preemptible : bool;
  accelerators : option (list accelerator);
}.

(** ['x/y'.split('/', 1)] when the value has a slash, [(None, value)]
    otherwise: the project prefix of an image or image family. *)
Definition split_image_project (value : string) : option string * string :=
  if Py.contains "/"%char value then
    match Py.splitn "/"%char 1 value with
    | [p; n] => (Some p, n)
    | _ => (None, value)
    end
  else (None, value).

(** What [execute()] on an image lookup leads to. The [except HttpError]
    handler calls [self.__process_exception], a method the class does not
    define, so the lookup of the attribute raises. *)
Definition image_lookup_result (r : res string) : M (list event) string :=
  match r with
  | Ok selfLink => ret selfLink
  | Raise (HttpError _) =>
      raise (AttributeError
               "'Gce' object has no attribute '_Gce__process_exception'")
  | Raise e => raise e
  end.

(** [Gce.__gce_get_image_by_name] *)
Definition gce_get_image_by_name (w : World) (image_project : option string)
    (image_name : string) : M (list event) string :=
  emit (ImagesGet image_project image_name) >>
  image_lookup_result (images_get w image_project image_name).

(** [Gce.__gce_get_image_family_url] *)
Definition gce_get_image_family_url (w : World)
    (image_family_project : option string) (image_family : string)
  : M (list event) string :=
  emit (ImagesGetFromFamily image_family_project image_family) >>
  image_lookup_result (images_getFromFamily w image_family_project image_family).

(** The image of the batch: the [if]/[elif]/[else] on ['image'],
    ['image_family'] and ['image_url'] that opens
    [Gce.__get_common_launch_args]. *)
Definition resolve_image_url (w : World) (cfg : config)
  : M (list event) string :=
  match cfg_image cfg, cfg_image_family cfg with
  | Some image, _ =>
      let '(image_project, image_name) := split_image_project image in
      gce_get_image_by_name w image_project image_name
  | None, Some family =>
      let '(image_family_project, image_family) :=
        split_image_project family in
      gce_get_image_family_url w image_family_project image_family
  | None, None =>
      match cfg_image_url cfg with
      | Some url => ret url
      | None => raise (KeyError "image_url")
      end
  end.

(** [Gce.__get_common_launch_args]; [extra_args] is the set of keys of
    the dict of that name. *)
Definition get_common_launch_args (w : World) (cfg : config)
    (extra_args : option (gset string)) : M (list event) common_launch_args :=
  let* image_url := resolve_image_url w cfg in
  let* network_interfaces :=
    lift_res (get_network_interface_definitions
                (cfg_project cfg) (cfg_region cfg) (cfg_networks cfg)) in
  let preemptible :=
    match extra_args with
    | Some keys => bool_decide ("preemptible" ∈ keys)
    | None => false
    end in
  let* accelerators :=
    match cfg_accelerators cfg with
    | Some a => let* l := lift_res (_parse_accelerator a) in ret (Some l)
    | None => ret None
    end in
  ret {| image_url := image_url;
         network_interfaces := network_interfaces;
         preemptible := preemptible;
         accelerators := accelerators |}.

(** ** Operation pollers *)

(** [response['zone'].split('/')[-1]] when the operation has a zone. *)
Definition zone_name (response : operation) : option string :=
  (fun z => List.last (Py.split "/"%char z) z) <$> op_zone response.

(** The call [zoneOperations().get] or [globalOperations().get]. *)
Definition operation_get_call (response : operation) : event :=
  OperationsGet (op_name response) (zone_name response).

(** The loop of [_blocking_call]. [response] is the last answer, whose
    status the loop head reads; [pending] and [ending] are the answers
    still to come. The value returned is the last answer: an operation,
    or the empty answer ([None]). *)
Fixpoint _blocking_call_loop (polling_interval : Z)
    (pending : list operation) (ending : poll_end) (response : operation)
  : M (list event) (option operation) :=
  if bool_decide (op_status response = "DONE") then ret (Some response)
  else
    emit (operation_get_call response) >>
    match pending with
    | [] =>
        match ending with
        | EndEmpty => ret None
        | EndRaise e => raise e
        end
    | r :: more =>
        (if bool_decide (op_status r = "DONE") then ret tt
         else emit (Sleep (inject_Z polling_interval))) >>
        _blocking_call_loop polling_interval more ending r
    end.

(** [_blocking_call]; [response] may be [None], and reading its status
    then fails. *)
Definition _blocking_call (w : World) (project_id : string)
    (response : option operation) (polling_interval : Z)
  : M (list event) (option operation) :=
  match response with
  | None => raise (TypeError "'NoneType' object is not subscriptable")
  | Some r =>
      let script := operations_get w (op_name r) in
      _blocking_call_loop polling_interval (answers script) (ending script) r
  end.

Definition max_sleep_time : Z := 5000.

(** [min(max_sleep_time, (polling_interval * 1000) * 2 ** attempt)] *)
Definition backoff_temp (polling_interval : Z) (attempt : nat) : Z :=
  Z.min max_sleep_time ((polling_interval * 1000) * 2 ^ Z.of_nat attempt).

(** [random.randint(a, b)] drawn from the raw value [raw]: a value
    between [a] and [b], both included. *)
Definition randint (a b raw : Z) : Z := a + raw `mod` (b - a + 1).

(** The seconds slept after a poll that found the operation unfinished,
    given the value [jitter] that [random.randint(0, temp / 2)] returned.
    [temp / 2] is a true division; [temp] is even from the first attempt
    on, so the integer quotient is its value. *)
Definition sleeptime (polling_interval : Z) (attempt : nat) (jitter : Z) : Q :=
  if (0 <? attempt)%nat then
    let temp := backoff_temp polling_interval attempt in
    Qmake (temp / 2 + jitter) 1000
  else 10%Q.

(** The sleep of [_gevent_blocking_call] at [attempt]; [randint] raises
    on an empty range. *)
Definition gevent_sleep (w : World) (key : string) (polling_interval : Z)
    (attempt : nat) : M (list event) unit :=
  if (0 <? attempt)%nat then
    let temp := backoff_temp polling_interval attempt in
    if temp / 2 <? 0 then
      raise (ValueError "empty range for randrange()")
    else
      emit (Sleep (sleeptime polling_interval attempt
                     (randint 0 (temp / 2) (random_source w key attempt))))
  else emit (Sleep (sleeptime polling_interval attempt 0)).

(** The loop of [_gevent_blocking_call]; [key] names the operation the
    run was started on. *)
Fixpoint _gevent_blocking_call_loop (w : World) (key : string)
    (polling_interval : Z) (pending : list operation) (ending : poll_end)
    (response : operation) (attempt : nat)
  : M (list event) (option operation) :=
  if bool_decide (op_status response = "DONE") then ret (Some response)
  else
    emit (operation_get_call response) >>
    match pending with
    | [] =>
        match ending with
        | EndEmpty => ret None
        | EndRaise e => raise e
        end
    | r :: more =>
        (if bool_decide (op_status r = "DONE") then ret tt
         else gevent_sleep w key polling_interval attempt) >>
        _gevent_blocking_call_loop w key polling_interval more ending r
          (S attempt)
    end.

(** [_gevent_blocking_call] *)
Definition _gevent_blocking_call (w : World) (project_id : string)
    (response : operation) (polling_interval : Z)
  : M (list event) (option operation) :=
  let script := operations_get w (op_name response) in
  _gevent_blocking_call_loop w (op_name response) polling_interval
    (answers script) (ending script) response 0.

(** What the operations endpoint answers to one [get] call. *)
Inductive poll_answer : Type :=
| AnswerOperation (r : operation)
| AnswerEmpty
| AnswerRaise (e : exn).

(** The answer of a script to the poll number [n], counted from 0. *)
Definition script_answer (script : poll_script) (n : nat) : poll_answer :=
  match answers script !! n with
  | Some r => AnswerOperation r
  | None =>
      match ending script with
      | EndEmpty => AnswerEmpty
      | EndRaise e => AnswerRaise e
      end
  end.

(** The loop of [_gevent_blocking_call] against a backend that answers
    every poll, without end: [backend n] is the answer to the poll
    number [n]. The loop has no bound in the source; [fuel] is the number
    of polls that are followed here, and the value is [None] when the
    loop is still running after them. *)
Fixpoint _gevent_blocking_call_fuel (w : World) (key : string)
    (polling_interval : Z) (backend : nat -> poll_answer) (fuel : nat)
    (response : operation) (attempt : nat) (t : list event)
  : option (res (option operation) * list event) :=
  if bool_decide (op_status response = "DONE") then Some (Ok (Some response), t)
  else
    match fuel with
    | O => None
    | S fuel' =>
        let t1 := t ++ [operation_get_call response] in
        match backend attempt with
        | AnswerEmpty => Some (Ok None, t1)
        | AnswerRaise e => Some (Raise e, t1)
        | AnswerOperation r =>
            match
              (if bool_decide (op_status r = "DONE") then ret tt
               else gevent_sleep w key polling_interval attempt) t1
            with
            | (Ok _, t2) =>
                _gevent_blocking_call_fuel w key polling_interval backend
                  fuel' r (S attempt) t2
            | (Raise e, t2) => Some (Raise e, t2)
            end
        end
    end.

(** ** Nodes and node requests *)

Inductive node_state : Type :=
| NODE_STATE_LAUNCHING
| NODE_STATE_INSTALLED
| NODE_STATE_PROVISIONED.

Record nic : Type := {
  nic_ip : string;
  nic_boot : bool;
}.

Record instance_mapping : Type := {
  im_instance : string;
  im_instance_metadata : list (string * string);
  im_resource_adapter_configuration : string;
}.

Record node : Type := {
  n_name : string;
  n_state : node_state;
  n_nics : list nic;
  n_instance : option instance_mapping;
}.

(** The values of [node_request['status']]: ['pending'], ['success'] and
    ['error']. *)
Inductive request_status : Type :=
| Pending
| Success
| Error.

Global Instance request_status_eq_dec : EqDecision request_status.
Proof. solve_decision. Defined.

(** A node request dict; a key that is not set is [None]. Under
    ['result'] the dict holds what the poller returned: an operation, or
    the empty answer ([Some None]). [nr_history] is not in the source: it
    lists every value ['status'] was assigned, oldest first. *)
Record node_request : Type := {
  nr_node : node;
  nr_status : request_status;
  nr_message : option string;
  nr_instance_name : option string;
  nr_response : option operation;
  nr_result : option (option operation);
  nr_history : list request_status;
}.

Definition set_status (st : request_status) (r : node_request)
  : node_request :=
  {| nr_node := nr_node r; nr_status := st; nr_message := nr_message r;
     nr_instance_name := nr_instance_name r; nr_response := nr_response r;
     nr_result := nr_result r; nr_history := nr_history r ++ [st] |}.

Definition set_message (m : string) (r : node_request) : node_request :=
  {| nr_node := nr_node r; nr_status := nr_status r; nr_message := Some m;
     nr_instance_name := nr_instance_name r; nr_response := nr_response r;
     nr_result := nr_result r; nr_history := nr_history r |}.

Definition set_instance_name (n : string) (r : node_request) : node_request :=
  {| nr_node := nr_node r; nr_status := nr_status r;
     nr_message := nr_message r; nr_instance_name := Some n;
     nr_response := nr_response r; nr_result := nr_result r;
     nr_history := nr_history r |}.

Definition set_response (o : operation) (r : node_request) : node_request :=
  {| nr_node := nr_node r; nr_status := nr_status r;
     nr_message := nr_message r; nr_instance_name := nr_instance_name r;
     nr_response := Some o; nr_result := nr_result r;
     nr_history := nr_history r |}.

Definition set_result (o : option operation) (r : node_request)
  : node_request :=
  {| nr_node := nr_node r; nr_status := nr_status r;
     nr_message := nr_message r; nr_instance_name := nr_instance_name r;
     nr_response := nr_response r; nr_result := Some o;
     nr_history := nr_history r |}.

Definition set_node (f : node -> node) (r : node_request) : node_request :=
  {| nr_node := f (nr_node r); nr_status := nr_status r;
     nr_message := nr_message r; nr_instance_name := nr_instance_name r;
     nr_response := nr_response r; nr_result := nr_result r;
     nr_history := nr_history r |}.

Definition node_set_state (st : node_state) (n : node) : node :=
  {| n_name := n_name n; n_state := st; n_nics := n_nics n;
     n_instance := n_instance n |}.

Definition node_append_nic (c : nic) (n : node) : node :=
  {| n_name := n_name n; n_state := n_state n; n_nics := n_nics n ++ [c];
     n_instance := n_instance n |}.

Definition node_set_instance (i : instance_mapping) (n : node) : node :=
  {| n_name := n_name n; n_state := n_state n; n_nics := n_nics n;
     n_instance := Some i |}.

(** [Gce.__init_new_node] *)
Definition init_new_node (name : string) : node :=
  {| n_name := name; n_state := NODE_STATE_LAUNCHING; n_nics := [];
     n_instance := None |}.

(** One entry of [Gce.__build_node_request_queue]. *)
Definition new_node_request (n : node) : node_request :=
  {| nr_node := n; nr_status := Pending; nr_message := None;
     nr_instance_name := None; nr_response := None; nr_result := None;
     nr_history := [Pending] |}.

(** [Gce.__build_node_request_queue] *)
Definition build_node_request_queue (nodes : list node) : list node_request :=
  new_node_request <$> nodes.

(** The state while one node request is worked on: the request dict and
    the trace. *)
Record rstate : Type := {
  req : node_request;
  tr : list event;
}.

Definition update_req (f : node_request -> node_request) : M rstate unit :=
  modify (fun s => {| req := f (req s); tr := tr s |}).

(** Runs a computation that does not touch the request. *)
Definition on_trace {A} (m : M (list event) A) : M rstate A :=
  fun s =>
    let '(r, t) := m (tr s) in
    (r, {| req := req s; tr := t |}).

(** [Gce.__mark_node_request_failed] *)
Definition mark_node_request_failed (message : string) : M rstate unit :=
  update_req (set_status Error) >>
  if Py.truthy (Some message) then update_req (set_message message)
  else ret tt.

(** ** Disk provisioning *)

(** A dict of [persistent_disks]. *)
Record disk_spec : Type := {
  ds_name : option string;
  ds_sizeGb : Q;
  ds_link : option string;
}.

(** ['%02d' % n] *)
Definition format_02d (n : Z) : string :=
  if (bool_decide (0 <= n) && bool_decide (n < 10))%bool
  then "0" +:+ pretty n else pretty n.

(** [get_disk_volume_name] *)
Definition get_disk_volume_name (instance_name : string) (diskNumber : Z)
  : string :=
  instance_name +:+ "-disk-" +:+ format_02d diskNumber.

(** The order of two disk keys: that of their strings. *)
Definition key_le (a b : Z * disk) : Prop :=
  String.le (pretty a.1) (pretty b.1).

Global Instance key_le_dec : RelDecision key_le.
Proof. intros a b. unfold key_le. apply _. Defined.

(** [sorted(d.keys())], each key with its entry. *)
Definition sorted_items (d : gmap Z disk) : list (Z * disk) :=
  merge_sort key_le (map_to_list d).

(** [Gce.__create_persistent_disk]: the operation [execute()] returns
    is dropped. *)
Definition create_persistent_disk (w : World) (diskNumber : Z)
    (volume_name : string) (size_in_Gb : Q) : M (list event) unit :=
  emit (DisksInsert diskNumber volume_name size_in_Gb) >>
  let* _ := lift_res (disks_insert w volume_name) in
  ret tt.

(** The loop of [Gce.__process_added_disk_changes]. *)
Fixpoint process_added_disk_loop (w : World) (cfg : config)
    (node_name : string) (instance_name : option string)
    (items : list (Z * disk)) (persistent_disks : list disk_spec)
  : M (list event) (list disk_spec) :=
  match items with
  | [] => ret persistent_disks
  | (addedDiskNumber, d) :: rest =>
      let storageAdapter := adapter d in
      let sizeMb := size d in
      let sizeGb := Qmake sizeMb 1000 in
      if bool_decide (storageAdapter <> "default") then
        process_added_disk_loop w cfg node_name instance_name rest
          persistent_disks
      else
        let* volName :=
          match instance_name with
          | Some name => ret (get_disk_volume_name name addedDiskNumber)
          | None => raise (KeyError "instance_name")
          end in
        let* persistent_disks' :=
          if bool_decide (addedDiskNumber > 1) then
            create_persistent_disk w addedDiskNumber volName sizeGb >>
            let* result :=
              _blocking_call w (cfg_project cfg) None (cfg_sleeptime cfg) in
            match result with
            | None => raise (KeyError "targetLink")
            | Some result =>
                match op_targetLink result with
                | None => raise (KeyError "targetLink")
                | Some link =>
                    ret (persistent_disks ++
                           [ {| ds_name := Some volName; ds_sizeGb := sizeGb;
                                ds_link := Some link |} ])
                end
            end
          else
            ret (persistent_disks ++
                   [ {| ds_name := Some volName; ds_sizeGb := sizeGb;
                        ds_link := None |} ]) in
        emit (SanAddDrive node_name addedDiskNumber) >>
        process_added_disk_loop w cfg node_name instance_name rest
          persistent_disks'
  end.

(** [Gce.__process_added_disk_changes] *)
Definition process_added_disk_changes (w : World) (cfg : config)
  : M rstate (list disk_spec) :=
  let* node_request := gets req in
  let node := nr_node node_request in
  let diskChanges := discoverStorageChanges w (n_name node) false in
  on_trace (process_added_disk_loop w cfg (n_name node)
              (nr_instance_name node_request)
              (sorted_items (added diskChanges)) []).

(** The disk numbers of the disk-create calls of a trace, in order. *)
Definition disk_create_calls (t : list event) : list Z :=
  omap (fun e => match e with DisksInsert n _ _ => Some n | _ => None end) t.

(** ** Launching one instance *)

(** [Gce.__launch_instance]: the request body reads ['link'] of every
    disk after the first, then the insert call is made. The answer of the
    backend is taken to depend on the instance name only. *)
Definition launch_instance (w : World) (instance_name : string)
    (persistent_disks : list disk_spec) : M (list event) operation :=
  if forallb (fun d => bool_decide (ds_link d <> None))
       (List.tl persistent_disks)
  then
    emit (InstancesInsert instance_name) >>
    lift_res (instances_insert w instance_name)
  else raise (KeyError "link").

(** The body of the [for node_request in node_requests] loop of
    [Gce.__launch_instances]. *)
Definition launch_one (w : World) (cfg : config) (args : common_launch_args)
  : M rstate unit :=
  let* r0 := gets req in
  let instance_name := get_instance_name_from_host_name (n_name (nr_node r0)) in
  update_req (set_instance_name instance_name) >>
  let* metadata :=
    try_except
      (on_trace (lift_res (instance_metadata w (n_name (nr_node r0)))))
      (fun exc =>
         on_trace (emit (LogError
           ("Error getting metadata for instance [" +:+ instance_name
              +:+ "] (" +:+ n_name (nr_node r0) +:+ ")"))) >>
         raise exc) in
  let* persistent_disks := process_added_disk_changes w cfg in
  let persistent_disks :=
    match persistent_disks with
    | [] => [ {| ds_name := None; ds_sizeGb := inject_Z (cfg_disksize cfg);
                 ds_link := None |} ]
    | _ => persistent_disks
    end in
  let* response :=
    try_except
      (on_trace (launch_instance w instance_name persistent_disks))
      (fun exc =>
         on_trace (emit (LogError
           ("Error launching instance [" +:+ instance_name +:+ "]"))) >>
         raise exc) in
  update_req (set_response response) >>
  let* zone :=
    match zone_name response with
    | Some z => ret z
    | None => raise (KeyError "zone")
    end in
  let instance_metadata :=
    [("zone", zone)] ++
    (if preemptible args then [("gce:scheduling", "preemptible")] else []) in
  let* adapter_cfg := on_trace (lift_res (load_resource_adapter_config w)) in
  update_req (set_node (node_set_instance
    {| im_instance := instance_name;
       im_instance_metadata := instance_metadata;
       im_resource_adapter_configuration := adapter_cfg |})).

(** ** Waiting for one instance *)

(** [gevent_wait_for_instance] *)
Definition gevent_wait_for_instance (w : World) (cfg : config)
  : M rstate bool :=
  let* pending_node_request := gets req in
  let* response :=
    match nr_response pending_node_request with
    | Some response => ret response
    | None => raise (KeyError "response")
    end in
  let* result :=
    on_trace (_gevent_blocking_call w (cfg_project cfg) response
                (cfg_sleeptime cfg)) in
  (* ['error' in result]: the empty answer has no key *)
  let status :=
    match result with
    | Some operation =>
        match op_error operation with Some _ => Error | None => Success end
    | None => Success
    end in
  update_req (set_status status) >>
  update_req (set_result result) >>
  ret (bool_decide (status = Success)).

(** [Gce.gce_get_vm]: any [HttpError] gives [None]. The content of an
    error that is not a 404 is only logged; it is taken to be a
    well-formed error payload or no JSON at all. *)
Definition gce_get_vm (w : World) (instance_name : string)
  : M (list event) (option vm_instance) :=
  emit (InstancesGet instance_name) >>
  match instances_get w instance_name with
  | Ok vm => ret (Some vm)
  | Raise (HttpError status) =>
      (if bool_decide (status <> 404) then
         emit (LogError ("Unable to get Compute Engine instance "
                           +:+ instance_name))
       else ret tt) >>
      ret None
  | Raise e => raise e
  end.

(** [Gce.__get_instance_internal_ip] *)
Definition get_instance_internal_ip (instance : vm_instance)
  : res (option string) :=
  match networkInterfaces instance with
  | None => Raise (KeyError "networkInterfaces")
  | Some [] => Ok None
  | Some (network_interface :: _) =>
      match networkIP network_interface with
      | Some ip => Ok (Some ip)
      | None => Raise (KeyError "networkIP")
      end
  end.

(** [Gce.__instance_post_launch] *)
Definition instance_post_launch (w : World) : M rstate unit :=
  let* node_request := gets req in
  let* instance_name :=
    match nr_instance_name node_request with
    | Some n => ret n
    | None => raise (KeyError "instance_name")
    end in
  let* vm_inst := on_trace (gce_get_vm w instance_name) in
  match vm_inst with
  | None =>
      on_trace (emit (LogError
        ("VM [" +:+ instance_name
           +:+ "] went away after launching; nothing to do")))
  | Some vm_inst =>
      update_req (set_node (node_set_state NODE_STATE_INSTALLED)) >>
      let* internal_ip := on_trace (lift_res (get_instance_internal_ip vm_inst)) in
      match internal_ip with
      | None =>
          on_trace (emit (LogError
            ("VM [" +:+ instance_name
               +:+ "] does not have an IP address (???)")))
      | Some internal_ip =>
          update_req (set_node (node_append_nic
            {| nic_ip := internal_ip; nic_boot := true |})) >>
          let name := n_name (nr_node node_request) in
          on_trace (emit (PreAddHost name internal_ip)) >>
          on_trace (lift_res (pre_add_host w name internal_ip))
      end
  end.

(** [Gce.__get_project_and_zone_metadata] *)
Definition get_project_and_zone_metadata (n : node)
  : res (option string * option string) :=
  match n_instance n with
  | None =>
      Raise (AttributeError
               "'NoneType' object has no attribute 'instance_metadata'")
  | Some i =>
      Ok (foldl (fun '(project, zone) '(key, value) =>
                   if bool_decide (key = "project") then (Some value, zone)
                   else if bool_decide (key = "zone") then (project, Some value)
                   else (project, zone))
            (None, None) (im_instance_metadata i))
  end.

(** [Gce.__deleteInstance] *)
Definition deleteInstance (w : World) (n : node) : M (list event) unit :=
  let instance_name := get_instance_name_from_host_name (n_name n) in
  let* _ := lift_res (get_project_and_zone_metadata n) in
  emit (InstancesDelete instance_name) >>
  match instances_delete w instance_name with
  | Ok _ => ret tt
  | Raise (HttpError status) =>
      if bool_decide (status = 404) then
        emit (LogWarning ("Instance [" +:+ instance_name +:+ "] not found"))
      else
        raise (CommandFailed
                 ("Error deleting Compute Engine instance ["
                    +:+ instance_name +:+ "]"))
  | Raise e => raise e
  end.

(** [', '.join('%s (%s)' % (error['message'], error['code']) ...)] *)
Definition error_logmsg (errors : list gce_error) : string :=
  String.concat ", "
    ((fun e => err_message e +:+ " (" +:+ err_code e +:+ ")") <$> errors).

(** [Gce.__wait_for_instance]. The requests that are waited for have an
    instance name, set when they were launched; the log messages print
    the empty string for a missing one. *)
Definition wait_for_instance (w : World) (cfg : config) : M rstate unit :=
  try_except
    (let* launched := gevent_wait_for_instance w cfg in
     let* pending_node_request := gets req in
     if launched then
       try_except (instance_post_launch w)
         (fun exc =>
            let msg :=
              "Internal error: post-launch action for VM ["
                +:+ from_option id "" (nr_instance_name pending_node_request)
                +:+ "]" in
            on_trace (emit (LogError msg)) >>
            mark_node_request_failed
              (msg +:+ " (exception " +:+ exn_class_name exc +:+ ": "
                 +:+ exn_str exc +:+ ")") >>
            let* r := gets req in
            on_trace (deleteInstance w (nr_node r)))
     else
       let logmsg :=
         error_logmsg
           (from_option id []
              (from_option (from_option op_error None) None
                 (nr_result pending_node_request))) in
       on_trace (emit (LogError
         ("Google Compute Engine error: " +:+ logmsg))) >>
       mark_node_request_failed logmsg)
    (fun exc =>
       let* r := gets req in
       on_trace (emit (LogError
         ("_blocking_call() failed on instance ["
            +:+ from_option id "" (nr_instance_name r) +:+ "]"))) >>
       mark_node_request_failed (exn_str exc)).

(** ** The batch *)

(** The state of a batch: the node request dicts, in queue order, and the
    trace. *)
Definition bstate : Type := (list node_request * list event)%type.

(** [for node_request in node_requests: body]. The dicts are updated in
    place, so the updates of an iteration that raises are kept. *)
Fixpoint for_each_loop (body : M rstate unit) (todo : list node_request)
    (t : list event) : res unit * bstate :=
  match todo with
  | [] => (Ok tt, ([], t))
  | r :: rest =>
      match body {| req := r; tr := t |} with
      | (Ok _, s) =>
          let '(o, (rest', t')) := for_each_loop body rest (tr s) in
          (o, (req s :: rest', t'))
      | (Raise e, s) => (Raise e, (req s :: rest, tr s))
      end
  end.

Definition for_each_request (body : M rstate unit) : M bstate unit :=
  fun '(reqs, t) => for_each_loop body reqs t.

(** Runs a computation that touches no request. *)
Definition on_batch_trace {A} (m : M (list event) A) : M bstate A :=
  fun '(reqs, t) => let '(r, t') := m t in (r, (reqs, t')).

(** What a worker does with a request: the requests without a
    ['response'] are not queued. The workers are greenlets that each own
    one request at a time; the requests are taken here one after the
    other, in queue order. *)
Definition wait_worker (w : World) (cfg : config) : M rstate unit :=
  let* r := gets req in
  match nr_response r with
  | None => ret tt
  | Some _ => wait_for_instance w cfg
  end.

(** The last loop of [Gce.__wait_for_instances]: raise at the first
    request in error. *)
Fixpoint raise_if_failed (reqs : list node_request) : M (list event) unit :=
  match reqs with
  | [] => ret tt
  | node_request :: rest =>
      if bool_decide (nr_status node_request = Error) then
        match nr_message node_request with
        | None => raise (KeyError "message")
        | Some m =>
            emit (LogError ("Message: " +:+ m)) >>
            raise (CommandFailed "Fatal error launching one or more instances")
        end
      else raise_if_failed rest
  end.

(** [Gce.__wait_for_instances] *)
Definition wait_for_instances (w : World) (cfg : config) : M bstate unit :=
  for_each_request (wait_worker w cfg) >>
  let* reqs := gets fst in
  on_batch_trace (raise_if_failed reqs).

(** [Gce.__launch_instances] *)
Definition launch_instances (w : World) (cfg : config)
    (extra_args : option (gset string)) : M bstate unit :=
  let* common_launch_args :=
    on_batch_trace (get_common_launch_args w cfg extra_args) in
  for_each_request (launch_one w cfg common_launch_args) >>
  wait_for_instances w cfg.

(** [Gce.__process_deleted_disk_changes]; the entries are visited in the
    order of the dict. *)
Definition process_deleted_disk_changes (w : World) (n : node)
  : M (list event) unit :=
  let diskChanges := discoverStorageChanges w (n_name n) true in
  modify (fun t : list event =>
    t ++ omap (fun '(removedDiskNumber, d) =>
                 if bool_decide (adapter d <> "default") then None
                 else Some (SanDeleteDrive (n_name n) removedDiskNumber))
           (map_to_list (removed diskChanges))).

(** [Gce.__node_cleanup] *)
Definition node_cleanup (w : World) (n : node) : M (list event) unit :=
  emit (ClearSessionNode (n_name n)) >>
  process_deleted_disk_changes w n.

(** The loop of [Gce.__post_launch_action]: the requests after it, and
    the list [result]. A node appended to [result] is the object whose
    state is set right after, so the list holds it as provisioned. *)
Fixpoint post_launch_loop (w : World) (reqs : list node_request)
  : M (list event) (list node_request * list node) :=
  match reqs with
  | [] => ret ([], [])
  | node_request :: rest =>
      let* (node_request', result0) :=
        if bool_decide (nr_status node_request <> Success) then
          emit (LogError
            (match nr_instance_name node_request with
             | Some instance_name =>
                 "Cleaning up failed instance [" +:+ instance_name
                   +:+ "] (node [" +:+ n_name (nr_node node_request) +:+ "])"
             | None =>
                 "Cleaning up node [" +:+ n_name (nr_node node_request) +:+ "]"
             end)) >>
          node_cleanup w (nr_node node_request) >>
          emit (DbDelete (n_name (nr_node node_request))) >>
          ret (node_request, [])
        else
          let node_request' :=
            set_node (node_set_state NODE_STATE_PROVISIONED) node_request in
          emit (ProvisionedEvent (n_name (nr_node node_request'))) >>
          ret (node_request', [nr_node node_request']) in
      let* (rest', result) := post_launch_loop w rest in
      ret (node_request' :: rest', result0 ++ result)
  end.

(** The text of the partial-success warning. *)
Definition partial_warning (completed count : nat) : string :=
  "only " +:+ pretty completed +:+ " of " +:+ pretty count
    +:+ " requested instances launched successfully".

(** [Gce.__post_launch_action] *)
Definition post_launch_action (w : World) : M bstate (list node) :=
  fun '(reqs, t) =>
    let count := length reqs in
    match post_launch_loop w reqs t with
    | (Ok (reqs', result), t') =>
        let completed := length result in
        let t'' := t' ++ [DbCommit] in
        let t''' :=
          if (bool_decide (completed <> 0%nat)
              && bool_decide (completed < count)%nat)%bool
          then t'' ++ [LogWarning (partial_warning completed count)]
          else t'' in
        (Ok result, (reqs', t'''))
    | (Raise e, t') => (Raise e, (reqs, t'))
    end.

(** [Gce.__createNodes]: [count] nodes named by the host name policy. *)
Fixpoint createNodes_loop (w : World) (indices : list nat) : res (list node) :=
  match indices with
  | [] => Ok []
  | i :: rest =>
      res_bind (generate_node_name w i) (fun name =>
      res_bind (createNodes_loop w rest) (fun nodes =>
      Ok (init_new_node name :: nodes)))
  end.

Definition createNodes (w : World) (count : Z) : res (list node) :=
  createNodes_loop w (seq 0 (Z.to_nat count)).

(** [Gce.__addActiveNodes]: the outcome of the call, the node requests
    as it leaves them, and the trace. *)
Definition addActiveNodes (w : World) (cfg : config) (count : Z)
    (extra_args : option (gset string)) : res (list node) * bstate :=
  match createNodes w count with
  | Raise e => (Raise e, ([], []))
  | Ok nodes =>
      let t0 := [DbAddAll (n_name <$> nodes); DbCommit] in
      let node_request_queue := build_node_request_queue nodes in
      (let* _ :=
         try_except (launch_instances w cfg extra_args)
           (fun exc => post_launch_action w >> raise exc) in
       post_launch_action w)
        (node_request_queue, t0)
  end.

(** ** Naming a node *)

(** [Gce.__generate_node_name], from the name [fqdn] that the add-host
    API generated; [hostname, _ = fqdn.split('.', 1)] needs a dot. *)
Definition __generate_node_name (fqdn : string) (override_dns_domain : bool)
    (dns_domain private_dns_zone installer_public_hostname : string)
  : res string :=
  match Py.splitn "."%char 1 fqdn with
  | [hostname; _] =>
      if override_dns_domain then
        if bool_decide (dns_domain = private_dns_zone) then Ok fqdn
        else Ok (hostname +:+ "." +:+ private_dns_zone)
      else if Py.contains "."%char installer_public_hostname then
        Ok (hostname +:+ "." +:+
            List.nth 1 (Py.splitn "."%char 1 installer_public_hostname) "")
      else Ok hostname
  | _ => Raise (ValueError "not enough values to unpack (expected 2, got 1)")
  end.

(** ** Sample collaborators *)

Module Sample.

Definition cfg : config :=
  {| cfg_project := "proj"; cfg_zone := "us-east1-b";
     cfg_region := "us-east1"; cfg_networks := [("default", None, None)];
     cfg_image := None; cfg_image_family := None;
     cfg_image_url := Some "projects/img/global/images/centos";
     cfg_accelerators := None; cfg_disksize := 10; cfg_sleeptime := 5 |}.

Definition op (name status : string) (error : option (list gce_error))
  : operation :=
  {| op_name := name; op_zone := Some "zones/us-east1-b";
     op_status := status; op_error := error;
     op_targetLink := Some ("instances/" +:+ name) |}.

Definition quota_error : list gce_error :=
  [ {| err_message := "Quota exceeded"; err_code := "QUOTA_EXCEEDED" |} ].

Definition vm (ips : list string) : vm_instance :=
  {| networkInterfaces := Some ((fun ip => {| networkIP := Some ip |}) <$> ips) |}.

(** A backend on which every call succeeds: an insert answers with a
    running operation, the second poll finds it done, and each instance
    has one interface. *)
Definition healthy : World :=
  {| images_get := fun _ image => Ok ("images/" +:+ image);
     images_getFromFamily := fun _ family => Ok ("families/" +:+ family);
     discoverStorageChanges := fun _ _ => {| added := ∅; removed := ∅ |};
     disks_insert := fun name => Ok (op name "RUNNING" None);
     instances_insert := fun name => Ok (op name "RUNNING" None);
     operations_get := fun name =>
       {| answers := [op name "RUNNING" None; op name "DONE" None];
          ending := EndEmpty |};
     random_source := fun _ attempt => Z.of_nat attempt * 1237;
     instances_get := fun _ => Ok (vm ["10.0.0.5"]);
     instances_delete := fun name => Ok (op name "RUNNING" None);
     pre_add_host := fun _ _ => Ok tt;
     instance_metadata := fun _ => Ok [];
     load_resource_adapter_config := Ok "default";
     generate_node_name := fun i =>
       Ok ("compute-" +:+ pretty i +:+ ".cloud.example.com") |}.

Definition with_operations (f : string -> poll_script) (w : World) : World :=
  {| images_get := images_get w;
     images_getFromFamily := images_getFromFamily w;
     discoverStorageChanges := discoverStorageChanges w;
     disks_insert := disks_insert w;
     instances_insert := instances_insert w;
     operations_get := f;
     random_source := random_source w;
     instances_get := instances_get w;
     instances_delete := instances_delete w;
     pre_add_host := pre_add_host w;
     instance_metadata := instance_metadata w;
     load_resource_adapter_config := load_resource_adapter_config w;
     generate_node_name := generate_node_name w |}.

(** As [healthy], but the operation of [compute-1] ends with an
    ['error'] field. *)
Definition one_failed_operation : World :=
  with_operations
    (fun name =>
       if bool_decide (name = "compute-1") then
         {| answers := [op name "DONE" (Some quota_error)];
            ending := EndEmpty |}
       else operations_get healthy name)
    healthy.






Definition with_storage (f : string -> bool -> disk_changes) (w : World)
  : World :=
  {| images_get := images_get w;
     images_getFromFamily := images_getFromFamily w;
     discoverStorageChanges := f;
     disks_insert := disks_insert w;
     instances_insert := instances_insert w;
     operations_get := operations_get w;
     random_source := random_source w;
     instances_get := instances_get w;
     instances_delete := instances_delete w;
     pre_add_host := pre_add_host w;
     instance_metadata := instance_metadata w;
     load_resource_adapter_config := load_resource_adapter_config w;
     generate_node_name := generate_node_name w |}.

Definition default_disk (sizeMb : Z) : disk :=
  {| adapter := "default"; size := sizeMb; sanVolume := None |}.

(** As [healthy], with a boot disk and one data disk to add to every
    node. *)
Definition one_data_disk : World :=
  with_storage
    (fun _ _ =>
       {| added := {[ 1 := default_disk 20000; 2 := default_disk 10000 ]};
          removed := ∅ |})
    healthy.


(** A node request as the launch loop has it when the disks of the
    node are provisioned. *)
Definition request (name : string) : node_request :=
  set_instance_name (get_instance_name_from_host_name name)
    (new_node_request (init_new_node name)).

Definition with_instances (insert : string -> res operation)
    (get : string -> res vm_instance) (w : World) : World :=
  {| images_get := images_get w;
     images_getFromFamily := images_getFromFamily w;
     discoverStorageChanges := discoverStorageChanges w;
     disks_insert := disks_insert w;
     instances_insert := insert;
     operations_get := operations_get w;
     random_source := random_source w;
     instances_get := get;
     instances_delete := instances_delete w;
     pre_add_host := pre_add_host w;
     instance_metadata := instance_metadata w;
     load_resource_adapter_config := load_resource_adapter_config w;
     generate_node_name := generate_node_name w |}.

Definition with_pre_add_host (f : string -> string -> res unit) (w : World)
  : World :=
  {| images_get := images_get w;
     images_getFromFamily := images_getFromFamily w;
     discoverStorageChanges := discoverStorageChanges w;
     disks_insert := disks_insert w;
     instances_insert := instances_insert w;
     operations_get := operations_get w;
     random_source := random_source w;
     instances_get := instances_get w;
     instances_delete := instances_delete w;
     pre_add_host := f;
     instance_metadata := instance_metadata w;
     load_resource_adapter_config := load_resource_adapter_config w;
     generate_node_name := generate_node_name w |}.



(** As [healthy], but the instances have no network interface. *)
Definition no_address : World :=
  with_instances (instances_insert healthy) (fun _ => Ok (vm [])) healthy.

(** As [healthy], but cluster registration fails. *)
Definition registration_fails : World :=
  with_pre_add_host
    (fun _ _ => Raise (OtherError "DnsError" "zone not writable")) healthy.


(** As [healthy], but an operation is found running three times
    before it is done. *)
Definition slow_operation : World :=
  with_operations
    (fun name =>
       {| answers := [op name "RUNNING" None; op name "RUNNING" None;
                      op name "RUNNING" None; op name "DONE" None];
          ending := EndEmpty |})
    healthy.

(** A node request as the wait phase receives it. *)
Definition submitted (name : string) : node_request :=
  set_response (op (get_instance_name_from_host_name name) "RUNNING" None)
    (request name).

End Sample.

(** ** Deleting nodes *)

(** What [Gce.deleteNode] asks besides the backend: the name of the
    resource adapter configuration an instance record points to, if it
    points to one, the session of that configuration, and the storage
    changes as the catalogue reports them the second time it is asked
    about a node, after the cleanup. *)
Record Directory : Type := {
  adapter_configuration : instance_mapping -> option string;
  get_gce_session : string -> res unit;
  discoverStorageChanges_again : string -> bool -> disk_changes;
}.

(** The body of the loop of [Gce.deleteNode]. *)
Definition deleteNode_one (d : Directory) (w : World) (n : node)
  : M (list event) unit :=
  match n_instance n with
  | None => ret tt
  | Some i =>
      match adapter_configuration d i with
      | None => ret tt
      | Some name =>
          lift_res (get_gce_session d name) >>
          deleteInstance w n >>
          node_cleanup w n >>
          process_deleted_disk_changes
            (Sample.with_storage (discoverStorageChanges_again d) w) n
      end
  end.

(** [Gce.deleteNode] *)
Fixpoint deleteNode (d : Directory) (w : World) (nodes : list node)
  : M (list event) unit :=
  match nodes with
  | [] => ret tt
  | n :: rest => deleteNode_one d w n >> deleteNode d w rest
  end.


(** ** Vocabulary of the statements *)

(** The [';']-separated flag tokens of a network entry. *)
Definition flag_tokens (net : network_def) : list string :=
  match net.2 with
  | None => []
  | Some a => Py.split ";"%char a
  end.

Definition is_ext_token (tok : string) : bool :=
  Py.startswith "ext" (Py.lower tok).

Definition is_noext_token (tok : string) : bool :=
  Py.startswith "noext" (Py.lower tok).

Definition is_primary_token (tok : string) : bool :=
  Py.startswith "pri" (Py.lower tok).

(** A token [get_network_flags] accepts: empty, or one of the three
    flags. *)
Definition known_token (tok : string) : bool :=
  bool_decide (tok = "") || is_ext_token tok || is_noext_token tok
  || is_primary_token tok.

(** The entry carries the primary flag. *)
Definition carries_primary (net : network_def) : bool :=
  existsb is_primary_token (flag_tokens net).

(** Every flag of the entry is a known one. *)
Definition flags_recognised (net : network_def) : bool :=
  forallb known_token (flag_tokens net).

(** The number of entries that carry the primary flag. *)
Definition primary_count (networks : list network_def) : nat :=
  length (filter (fun net => carries_primary net = true) networks).

(** The parts of one item of the accelerator setting. *)
Definition accelerator_parts (item : string) : list string :=
  Py.split ":"%char (Py.strip item).







(** The seconds slept in a trace, in order. *)
Definition sleeps (t : list event) : list Q :=
  omap (fun e => match e with Sleep q => Some q | _ => None end) t.

(** The value [random.randint(0, temp / 2)] returns at [attempt]. *)
Definition jitter_at (w : World) (key : string) (polling_interval : Z)
    (attempt : nat) : Z :=
  randint 0 (backoff_temp polling_interval attempt / 2)
    (random_source w key attempt).

(** An added disk the provisioner creates itself: a disk of the default
    storage adapter with a number above 1. *)
Definition data_disk (item : Z * disk) : Prop :=
  adapter item.2 = "default" /\ 1 < item.1.

Global Instance data_disk_dec item : Decision (data_disk item).
Proof. unfold data_disk. apply _. Defined.


(** The number of answers of a poll that come before the first one
    that is done: the polls after which the poller has to wait. *)
Fixpoint unfinished (answers : list operation) : nat :=
  match answers with
  | [] => 0
  | r :: more =>
      if bool_decide (op_status r = "DONE") then 0 else S (unfinished more)
  end.

Definition Qsum (l : list Q) : Q := foldr Qplus 0%Q l.

(** The mean of the sleep at [attempt] over the values
    [0 .. temp / 2] the jitter takes with equal chance. *)
Definition mean_sleeptime (polling_interval : Z) (attempt : nat) : Q :=
  let n := Z.to_nat (backoff_temp polling_interval attempt / 2) in
  (Qsum ((fun j => sleeptime polling_interval attempt (Z.of_nat j))
           <$> seq 0 (S n))
   / inject_Z (Z.of_nat (S n)))%Q.

(** The values ['status'] is assigned while a request is waited for:
    the poll sets ['success'] or ['error'] or raises, the branch on an
    operation in error and the two [except] clauses set ['error']. *)
Definition wait_suffixes : list (list request_status) :=
  [ [Error]; [Error; Error]; [Success]; [Success; Error];
    [Success; Error; Error] ].

(** What reconciliation does with one request: the calls it makes, the
    request it leaves, and the nodes it returns for it. *)
Definition reconcile_events (w : World) (r : node_request) : list event :=
  let name := n_name (nr_node r) in
  if bool_decide (nr_status r <> Success) then
    [LogError
       (match nr_instance_name r with
        | Some instance_name =>
            "Cleaning up failed instance [" +:+ instance_name
              +:+ "] (node [" +:+ name +:+ "])"
        | None => "Cleaning up node [" +:+ name +:+ "]"
        end);
     ClearSessionNode name]
    ++ omap (fun '(removedDiskNumber, d) =>
               if bool_decide (adapter d <> "default") then None
               else Some (SanDeleteDrive name removedDiskNumber))
         (map_to_list (removed (discoverStorageChanges w name true)))
    ++ [DbDelete name]
  else [ProvisionedEvent name].

Definition reconciled (r : node_request) : node_request :=
  if bool_decide (nr_status r <> Success) then r
  else set_node (node_set_state NODE_STATE_PROVISIONED) r.

Definition returned (r : node_request) : list node :=
  if bool_decide (nr_status r <> Success) then []
  else [nr_node (reconciled r)].

(** The number of requests in [Success] state. *)
Definition successes (reqs : list node_request) : nat :=
  length (filter (fun r => nr_status r = Success) reqs).

(** A request that has not been waited for, and one that has. *)
Definition fresh (r : node_request) : Prop :=
  nr_history r = [Pending] /\ nr_status r = Pending.

Definition waited (r : node_request) : Prop :=
  exists suffix,
    suffix ∈ wait_suffixes /\
    nr_history r = [Pending] ++ suffix /\
    last suffix = Some (nr_status r).

(** The event deletes the record of the node [name]. *)
Definition deletes_record (name : string) (e : event) : bool :=
  match e with
  | DbDelete n => bool_decide (n = name)
  | _ => false
  end.

(** The token sets ['external']: a token that is not empty and is an
    [ext] or a [noext] flag. *)
Definition sets_external (tok : string) : bool :=
  negb (bool_decide (tok = "")) && (is_ext_token tok || is_noext_token tok).

(** A stretch of trace made of polls and sleeps only, in which a sleep
    follows a poll and a poll follows a sleep; [after_get] tells whether
    the event before the stretch was a poll. *)
Fixpoint well_paced (after_get : bool) (evs : list event) : bool :=
  match evs with
  | [] => true
  | OperationsGet _ _ :: rest => negb after_get && well_paced true rest
  | Sleep _ :: rest => after_get && well_paced false rest
  | _ => false
  end.

Definition is_sleep (e : event) : bool :=
  match e with Sleep _ => true | _ => false end.

(** The request [r'] is the request [r] some steps later: the same
    node name, instance name and stored response. *)
Definition same_request (r r' : node_request) : Prop :=
  n_name (nr_node r') = n_name (nr_node r) /\
  nr_instance_name r' = nr_instance_name r /\
  nr_response r' = nr_response r.

(** The request holds what its poll returned, and that has no error:
    it is the empty answer, or an operation that is done and has no
    ['error'] key. *)
Definition polled_without_error (r : node_request) : Prop :=
  nr_result r = Some None \/
  exists result,
    nr_result r = Some (Some result) /\
    op_status result = "DONE" /\
    op_error result = None.

(** The instance names of the instance-create calls of a trace, in
    order. *)
Definition instance_inserts (t : list event) : list string :=
  omap (fun e => match e with InstancesInsert n => Some n | _ => None end) t.

(** The instance name a request is launched under. *)
Definition launch_name (r : node_request) : string :=
  get_instance_name_from_host_name (n_name (nr_node r)).



(** The request was polled to success and marked as failed afterwards:
    its post-launch action raised. *)
Definition hook_failed (r : node_request) : Prop :=
  Success ∈ nr_history r /\ nr_status r = Error.

Global Instance hook_failed_dec r : Decision (hook_failed r).
Proof. unfold hook_failed. apply _. Defined.




(** The number of events of a trace that satisfy [p]. *)
Definition count_events (p : event -> bool) (t : list event) : nat :=
  length (List.filter p t).

Definition is_provisioned_event (e : event) : bool :=
  match e with ProvisionedEvent _ => true | _ => false end.

Definition is_record_delete (e : event) : bool :=
  match e with DbDelete _ => true | _ => false end.

Definition is_commit (e : event) : bool :=
  match e with DbCommit => true | _ => false end.

Definition is_warning (e : event) : bool :=
  match e with LogWarning _ => true | _ => false end.

(** The node names of a list of requests, in order. *)
Definition request_names (reqs : list node_request) : list string :=
  (fun r => n_name (nr_node r)) <$> reqs.

(** The node has a VM as [Gce.deleteNode] sees it: an instance record
    that points to a resource adapter configuration. *)
Definition has_vm (d : Directory) (n : node) : bool :=
  match n_instance n with
  | Some i => bool_decide (adapter_configuration d i <> None)
  | None => false
  end.

(** The instance names of the instance-delete calls of a trace, and the
    names of the nodes cleared from the add-host session, in order. *)
Definition instance_deletes (t : list event) : list string :=
  omap (fun e => match e with InstancesDelete n => Some n | _ => None end) t.

Definition cleared (t : list event) : list string :=
  omap (fun e => match e with ClearSessionNode n => Some n | _ => None end) t.

(** The instance name of a node. *)
Definition instance_name_of (n : node) : string :=
  get_instance_name_from_host_name (n_name n).

(** Deleting the node with a VM goes through: the session of its
    adapter configuration is there, and the delete call succeeds or
    finds no instance (404). *)
Definition deletable (d : Directory) (w : World) (n : node) : Prop :=
  (forall i name,
      n_instance n = Some i -> adapter_configuration d i = Some name ->
      is_Ok (get_gce_session d name) = true) /\
  (is_Ok (instances_delete w (instance_name_of n)) = true \/
   instances_delete w (instance_name_of n) = Raise (HttpError 404)).

(** The answers of a poll reach an operation that is done and has no
    error, after answers that are not done. *)
Definition completes (script : poll_script) : Prop :=
  exists pre last post,
    answers script = pre ++ last :: post /\
    Forall (fun r => op_status r <> "DONE") pre /\
    op_status last = "DONE" /\
    op_error last = None.

(** A backend on which a batch goes through: no disk is to be added,
    the metadata and the adapter configuration are there, every create
    call answers with an operation that has a zone and that finishes
    without error, every instance is found with an address on its first
    interface, and the address is registered. *)
Definition cooperative (w : World) (cfg : config) : Prop :=
  0 <= cfg_sleeptime cfg /\
  (forall name, added (discoverStorageChanges w name false) = ∅) /\
  (forall name, is_Ok (instance_metadata w name) = true) /\
  is_Ok (load_resource_adapter_config w) = true /\
  (forall name,
     exists r,
       instances_insert w name = Ok r /\
       op_zone r <> None /\
       (if bool_decide (op_status r = "DONE") then op_error r = None
        else completes (operations_get w (op_name r)))) /\
  (forall name,
     exists vm ip,
       instances_get w name = Ok vm /\
       get_instance_internal_ip vm = Ok (Some ip) /\
       forall node_name, pre_add_host w node_name ip = Ok tt).

(** * Proofs *)

(** ** Strings *)

Lemma concat_cons_cons sep x y l :
  String.concat sep (x :: y :: l) = x +:+ sep +:+ String.concat sep (y :: l).
Proof. reflexivity. Qed.

Lemma splitn_cons sep n c s :
  Py.splitn sep (S n) (String c s) =
  if Py.ascii_eqb c sep then "" :: Py.splitn sep n s
  else match Py.splitn sep (S n) s with
       | w :: ws => String c w :: ws
       | [] => [String c ""]
       end.
Proof. reflexivity. Qed.

Lemma splitn_0 sep s : Py.splitn sep 0 s = [s].
Proof. by destruct s. Qed.

Lemma splitn_not_nil sep n s : Py.splitn sep n s <> [].
Proof.
  revert n. induction s as [|c s IH]; intros [|n]; try done.
  rewrite splitn_cons. destruct (Py.ascii_eqb c sep); [done|].
  specialize (IH (S n)). by destruct (Py.splitn sep (S n) s).
Qed.

(** Joining the pieces of a split with the separator gives the string
    back. *)
Lemma splitn_concat sep n s :
  String.concat (String sep "") (Py.splitn sep n s) = s.
Proof.
  revert n. induction s as [|c s IH]; intros [|n]; try reflexivity.
  rewrite splitn_cons. unfold Py.ascii_eqb. case_bool_decide as Hc.
  - specialize (IH n). pose proof (splitn_not_nil sep n s) as Hne.
    destruct (Py.splitn sep n s) as [|y l]; [done|].
    rewrite concat_cons_cons, IH. by subst c.
  - specialize (IH (S n)). pose proof (splitn_not_nil sep (S n) s) as Hne.
    destruct (Py.splitn sep (S n) s) as [|w [|y l]]; [done| |].
    + cbn in IH |- *. by rewrite IH.
    + rewrite concat_cons_cons in IH. rewrite concat_cons_cons.
      by subst s.
Qed.

Lemma splitn_length sep n s :
  length (Py.splitn sep n s) = S (Nat.min n (Py.count sep s)).
Proof.
  revert n. induction s as [|c s IH]; intros [|n]; try reflexivity.
  rewrite splitn_cons. cbn [Py.count]. destruct (Py.ascii_eqb c sep).
  - cbn [length]. rewrite IH. cbn. lia.
  - specialize (IH (S n)). pose proof (splitn_not_nil sep (S n) s) as Hne.
    destruct (Py.splitn sep (S n) s) as [|w ws]; [done|].
    cbn [length] in *. rewrite IH. cbn. lia.
Qed.

(** The first piece of a split that may cut has no separator. *)
Lemma splitn_head_clean sep n s :
  Py.count sep (List.hd "" (Py.splitn sep (S n) s)) = 0%nat.
Proof.
  induction s as [|c s IH]; [reflexivity|].
  rewrite splitn_cons. unfold Py.ascii_eqb. case_bool_decide as Hc.
  - reflexivity.
  - pose proof (splitn_not_nil sep (S n) s) as Hne.
    destruct (Py.splitn sep (S n) s) as [|w ws]; [done|].
    cbn [List.hd Py.count] in *. unfold Py.ascii_eqb.
    by rewrite bool_decide_eq_false_2, IH.
Qed.

Lemma count_app c s1 s2 :
  Py.count c (s1 +:+ s2) = (Py.count c s1 + Py.count c s2)%nat.
Proof.
  induction s1 as [|a s1 IH]; [reflexivity|].
  change (Py.count c (String a (s1 +:+ s2)) =
          (Py.count c (String a s1) + Py.count c s2)%nat).
  cbn [Py.count]. rewrite IH. lia.
Qed.

(** When the string has at most [n] separators, no piece has one. *)
Lemma splitn_all_clean sep n s :
  (Py.count sep s <= n)%nat ->
  Forall (fun piece => Py.count sep piece = 0%nat) (Py.splitn sep n s).
Proof.
  revert n. induction s as [|c s IH]; intros [|n] Hn.
  - by repeat constructor.
  - by repeat constructor.
  - rewrite splitn_0. constructor; [lia | constructor].
  - rewrite splitn_cons. cbn [Py.count] in Hn. unfold Py.ascii_eqb in *.
    case_bool_decide as Hc.
    + constructor; [reflexivity|]. apply IH. lia.
    + specialize (IH (S n) ltac:(lia)).
      pose proof (splitn_not_nil sep (S n) s) as Hne.
      destruct (Py.splitn sep (S n) s) as [|w ws]; [done|].
      apply Forall_cons in IH as [Hw Hws]. constructor; [|done].
      cbn [Py.count]. unfold Py.ascii_eqb.
      by rewrite bool_decide_eq_false_2, Hw.
Qed.

Lemma string_app_cons a s t : String a s +:+ t = String a (s +:+ t).
Proof. reflexivity. Qed.

Lemma string_app_nil_l s : "" +:+ s = s.
Proof. reflexivity. Qed.

Lemma string_app_nil_r s : s +:+ "" = s.
Proof.
  induction s as [|a s IH]; [done|]. by rewrite string_app_cons, IH.
Qed.

Lemma string_app_assoc s1 s2 s3 : (s1 +:+ s2) +:+ s3 = s1 +:+ (s2 +:+ s3).
Proof.
  induction s1 as [|a s1 IH]; [done|]. by rewrite !string_app_cons, IH.
Qed.

Lemma rev_app_spec s t : String.rev_app s t = String.rev s +:+ t.
Proof.
  unfold String.rev. revert t. induction s as [|a s IH]; intros t; [done|].
  cbn [String.rev_app]. rewrite (IH (String a "")), IH.
  by rewrite string_app_assoc.
Qed.

Lemma rev_app_rev_app s t u :
  String.rev_app (String.rev_app s t) u = String.rev_app t (s +:+ u).
Proof.
  revert t u. induction s as [|a s IH]; intros t u; [done|].
  cbn [String.rev_app]. by rewrite IH.
Qed.

Lemma string_rev_involutive s : String.rev (String.rev s) = s.
Proof.
  unfold String.rev. rewrite rev_app_rev_app. cbn [String.rev_app].
  apply string_app_nil_r.
Qed.

Lemma string_rev_app s t :
  String.rev (s +:+ t) = String.rev t +:+ String.rev s.
Proof.
  induction s as [|a s IH].
  - by rewrite string_app_nil_l, string_app_nil_r.
  - rewrite string_app_cons. unfold String.rev at 1 3.
    cbn [String.rev_app]. rewrite !rev_app_spec, IH.
    by rewrite string_app_assoc.
Qed.

Lemma count_rev c s : Py.count c (String.rev s) = Py.count c s.
Proof.
  induction s as [|a s IH]; [done|].
  unfold String.rev. cbn [String.rev_app]. rewrite rev_app_spec, count_app, IH.
  cbn [Py.count]. lia.
Qed.

(** [rsplit] at the last separator: two pieces that give the string
    back, the second without a separator, or the string itself when it
    has none. *)
Lemma rsplit1_spec sep s :
  match Py.rsplit1 sep s with
  | [whole] => whole = s /\ Py.count sep s = 0%nat
  | [head; tail] =>
      s = head +:+ String sep tail /\ Py.count sep tail = 0%nat
  | _ => False
  end.
Proof.
  unfold Py.rsplit1.
  pose proof (splitn_concat sep 1 (String.rev s)) as Hj.
  pose proof (splitn_length sep 1 (String.rev s)) as Hl.
  pose proof (splitn_head_clean sep 0 (String.rev s)) as Hc.
  rewrite count_rev in Hl.
  destruct (Py.splitn sep 1 (String.rev s)) as [|h [|t [|]]];
    cbn [length] in Hl; try (exfalso; lia).
  - cbn in Hj. subst h. cbn. rewrite string_rev_involutive.
    split; [done|]. destruct (Py.count sep s); [done | lia].
  - rewrite concat_cons_cons in Hj. cbn [String.concat] in Hj.
    cbn [fmap list_fmap]. cbn [List.hd] in Hc.
    change (reverse [String.rev h; String.rev t])
      with [String.rev t; String.rev h].
    split; [|by rewrite count_rev].
    rewrite <- (string_rev_involutive s), <- Hj.
    rewrite !string_rev_app. rewrite string_app_assoc. done.
Qed.

(** ** Network flags *)

Lemma lower_empty tok : Py.lower tok = "" -> tok = "".
Proof. destruct tok; [done | discriminate]. Qed.

Lemma prefix_cons a s1 b s2 :
  String.prefix (String a s1) (String b s2) =
  if ascii_dec a b then String.prefix s1 s2 else false.
Proof. reflexivity. Qed.

Lemma primary_token_not_ext tok :
  is_primary_token tok = true ->
  tok <> "" /\ is_ext_token tok = false /\ is_noext_token tok = false.
Proof.
  unfold is_primary_token, is_ext_token, is_noext_token, Py.startswith.
  intros H. split.
  - intros ->. cbv in H. discriminate H.
  - destruct (Py.lower tok) as [|c s]; [discriminate H|].
    rewrite prefix_cons in H.
    destruct (ascii_dec "p" c) as [<-|]; [|discriminate H].
    split; reflexivity.
Qed.

Lemma ext_token_not_empty tok : is_ext_token tok = true -> tok <> "".
Proof. intros H ->. cbv in H. discriminate H. Qed.

Lemma noext_token_not_ext tok :
  is_noext_token tok = true -> tok <> "" /\ is_ext_token tok = false.
Proof.
  unfold is_noext_token, is_ext_token, Py.startswith. intros H. split.
  - intros ->. cbv in H. discriminate H.
  - destruct (Py.lower tok) as [|c s]; [discriminate H|].
    rewrite prefix_cons in H.
    destruct (ascii_dec "n" c) as [<-|]; [|discriminate H]. reflexivity.
Qed.

(** One step of the flag loop, by the kind of the token. *)
Lemma flags_loop_cons tok rest result :
  get_network_flags_loop (tok :: rest) result =
  if bool_decide (tok = "") then get_network_flags_loop rest result
  else if is_ext_token tok then
    get_network_flags_loop rest (<["external" := true]> result)
  else if is_noext_token tok then
    get_network_flags_loop rest (<["external" := false]> result)
  else if is_primary_token tok then
    get_network_flags_loop rest (<["primary" := true]> result)
  else Raise (ConfigurationError ("Invalid network flag: [" +:+ tok +:+ "]")).
Proof. reflexivity. Qed.

Lemma flags_loop_is_Ok args : forall result,
  is_Ok (get_network_flags_loop args result) = forallb known_token args.
Proof.
  induction args as [|tok rest IH]; intros result; [reflexivity|].
  rewrite flags_loop_cons. cbn [forallb]. unfold known_token at 1.
  case_bool_decide; [apply IH|].
  destruct (is_ext_token tok); [apply IH|].
  destruct (is_noext_token tok); [apply IH|].
  destruct (is_primary_token tok); [apply IH|]. reflexivity.
Qed.

Lemma flags_loop_raise args : forall result e,
  get_network_flags_loop args result = Raise e ->
  is_ConfigurationError e = true.
Proof.
  induction args as [|tok rest IH]; intros result e; [discriminate|].
  rewrite flags_loop_cons.
  case_bool_decide; [apply IH|].
  destruct (is_ext_token tok); [apply IH|].
  destruct (is_noext_token tok); [apply IH|].
  destruct (is_primary_token tok); [apply IH|].
  intros [= <-]. reflexivity.
Qed.

Lemma flags_loop_primary args : forall result flags,
  get_network_flags_loop args result = Ok flags ->
  flags !! "primary" =
    if existsb is_primary_token args then Some true else result !! "primary".
Proof.
  induction args as [|tok rest IH]; intros result flags; cbn [existsb].
  - intros [= <-]. reflexivity.
  - rewrite flags_loop_cons.
    destruct (is_primary_token tok) eqn:Hp.
    + apply primary_token_not_ext in Hp as (Hne & -> & ->).
      rewrite bool_decide_eq_false_2 by done.
      intros H. rewrite (IH _ _ H). rewrite lookup_insert_eq.
      by destruct (existsb _ _).
    + cbn [orb]. case_bool_decide as Hemp; [apply IH|].
      destruct (is_ext_token tok).
      { intros Hl. rewrite (IH _ _ Hl). by rewrite lookup_insert_ne. }
      destruct (is_noext_token tok); [|discriminate].
      intros Hl. rewrite (IH _ _ Hl). by rewrite lookup_insert_ne.
Qed.

(** An ['external'] entry that is [True] comes from an [ext] token. *)
Lemma flags_loop_external args : forall result flags,
  get_network_flags_loop args result = Ok flags ->
  flags !! "external" = Some true ->
  result !! "external" = Some true \/ existsb is_ext_token args = true.
Proof.
  induction args as [|tok rest IH]; intros result flags; cbn [existsb].
  - intros [= <-]. auto.
  - rewrite flags_loop_cons.
    case_bool_decide as Hemp.
    { subst tok. intros H1 H2.
      destruct (IH _ _ H1 H2); auto. }
    destruct (is_ext_token tok) eqn:He; [auto|].
    destruct (is_noext_token tok).
    { intros H1 H2. destruct (IH _ _ H1 H2) as [H|H]; [|auto].
      rewrite lookup_insert_eq in H. discriminate. }
    destruct (is_primary_token tok); [|discriminate].
    intros H1 H2. destruct (IH _ _ H1 H2) as [H|H]; [|auto].
    rewrite lookup_insert_ne in H by done. auto.
Qed.

Lemma get_network_flags_is_Ok net :
  is_Ok (get_network_flags net.2) = flags_recognised net.
Proof.
  unfold get_network_flags, flags_recognised, flag_tokens.
  destruct net.2; [apply flags_loop_is_Ok | reflexivity].
Qed.

Lemma get_network_flags_raise args e :
  get_network_flags args = Raise e -> is_ConfigurationError e = true.
Proof.
  unfold get_network_flags. destruct args; [apply flags_loop_raise | discriminate].
Qed.

Lemma get_network_flags_primary net flags :
  get_network_flags net.2 = Ok flags ->
  flags !! "primary" = if carries_primary net then Some true else None.
Proof.
  unfold get_network_flags, carries_primary, flag_tokens.
  destruct net.2.
  - intros H. by rewrite (flags_loop_primary _ _ _ H), lookup_empty.
  - intros [= <-]. by rewrite lookup_empty.
Qed.

(** ** Network interface resolution *)

(** How a built interface relates to its entry: it is the interface
    [get_network_interface] builds, with external access when the flags
    of the entry resolve ['external'] to [True]. *)
Definition resolves_to (project region : string) (net : network_def)
    (ni : network_interface) : Prop :=
  exists ni0 flags,
    get_network_interface project region net = Ok (ni0, flags) /\
    get_network_flags net.2 = Ok flags /\
    accessConfigs ni0 = None /\
    ni = if is_network_flag_set flags "external" false
         then set_external_network_access ni0 else ni0.

Lemma get_network_interface_cases project region net :
  (exists ni flags,
      get_network_interface project region net = Ok (ni, flags) /\
      get_network_flags net.2 = Ok flags /\ accessConfigs ni = None) \/
  (exists e,
      get_network_interface project region net = Raise e /\
      get_network_flags net.2 = Raise e).
Proof.
  destruct net as [[nd sd] args]. unfold get_network_interface. cbn [snd].
  destruct (split_forward_slash_value nd project) as [pj nw].
  destruct (get_network_flags args) as [flags|e]; cbn [res_bind]; eauto 10.
Qed.

Lemma network_interface_loop_cons project region net rest prim acc :
  network_interface_loop project region (net :: rest) prim acc =
  res_bind (get_network_interface project region net)
    (fun '(network_interface, network_flags) =>
       let is_primary :=
         match network_flags !! "primary" with Some true => true | _ => false end in
       if (is_primary && bool_decide (prim <> None))%bool then
         Raise (ConfigurationError
                  ("Only one interface may be primary: "
                     +:+ net.1.1 +:+ " is already marked as primary"))
       else
         network_interface_loop project region rest
           (if is_primary then Some net else prim)
           (acc ++ [if is_network_flag_set network_flags "external" false
                    then set_external_network_access network_interface
                    else network_interface])).
Proof. reflexivity. Qed.

Definition primary_seen (prim : option network_def) : nat :=
  match prim with Some _ => 1 | None => 0 end.

Lemma primary_count_cons net rest :
  primary_count (net :: rest) =
  ((if carries_primary net then 1 else 0) + primary_count rest)%nat.
Proof.
  unfold primary_count. rewrite filter_cons.
  destruct (decide (carries_primary net = true)) as [->|Hn]; [reflexivity|].
  by apply not_true_is_false in Hn as ->.
Qed.

(** The loop raises nothing but [ConfigurationError]. *)
Lemma network_interface_loop_raise project region nets : forall prim acc e,
  network_interface_loop project region nets prim acc = Raise e ->
  is_ConfigurationError e = true.
Proof.
  induction nets as [|net rest IH]; intros prim acc e; [discriminate|].
  rewrite network_interface_loop_cons.
  destruct (get_network_interface_cases project region net)
    as [(ni & flags & -> & Hf & _)|(e' & -> & Hf)]; cbn [res_bind].
  - destruct (_ && _)%bool; [intros [= <-]; reflexivity | apply IH].
  - intros [= <-]. by apply get_network_flags_raise in Hf.
Qed.

(** What a run of the loop that succeeds has met and built. *)
Lemma network_interface_loop_Ok project region nets : forall prim acc nis,
  network_interface_loop project region nets prim acc = Ok nis ->
  Forall (fun net => flags_recognised net = true) nets /\
  (primary_count nets + primary_seen prim <= 1)%nat /\
  exists news, nis = acc ++ news /\ Forall2 (resolves_to project region) nets news.
Proof.
  induction nets as [|net rest IH]; intros prim acc nis.
  - intros [= <-]. split; [constructor|]. split.
    + destruct prim; cbn; lia.
    + exists []. by rewrite app_nil_r.
  - rewrite network_interface_loop_cons.
    destruct (get_network_interface_cases project region net)
      as [(ni & flags & Hg & Hf & Hac)|(e' & -> & Hf)]; [|discriminate].
    rewrite Hg. cbn [res_bind].
    rewrite (get_network_flags_primary _ _ Hf).
    rewrite primary_count_cons.
    assert (Hrec : flags_recognised net = true).
    { rewrite <- get_network_flags_is_Ok, Hf. reflexivity. }
    destruct (carries_primary net); cbn [andb].
    + case_bool_decide as Hprim; [discriminate|].
      intros H. apply IH in H as (Hall & Hcnt & news & -> & Hnews).
      split; [by constructor|]. split.
      { subst prim. cbn in *. lia. }
      eexists (_ :: news). split; [by rewrite <- app_assoc|].
      constructor; [|done]. by exists ni, flags.
    + intros H. apply IH in H as (Hall & Hcnt & news & -> & Hnews).
      split; [by constructor|]. split; [cbn; lia|].
      eexists (_ :: news). split; [by rewrite <- app_assoc|].
      constructor; [|done]. by exists ni, flags.
Qed.

(** The loop succeeds on recognised flags and at most one primary. *)
Lemma network_interface_loop_is_Ok project region nets : forall prim acc,
  Forall (fun net => flags_recognised net = true) nets ->
  (primary_count nets + primary_seen prim <= 1)%nat ->
  is_Ok (network_interface_loop project region nets prim acc) = true.
Proof.
  induction nets as [|net rest IH]; intros prim acc Hall Hcnt; [reflexivity|].
  rewrite network_interface_loop_cons.
  apply Forall_cons in Hall as [Hrec Hall].
  rewrite <- get_network_flags_is_Ok in Hrec.
  destruct (get_network_interface_cases project region net)
    as [(ni & flags & Hg & Hf & Hac)|(e' & _ & Hf)];
    [|by rewrite Hf in Hrec].
  rewrite Hg. cbn [res_bind].
  rewrite (get_network_flags_primary _ _ Hf).
  rewrite primary_count_cons in Hcnt.
  destruct (carries_primary net); cbn [andb].
  - destruct prim; [cbn in Hcnt; lia|].
    rewrite bool_decide_eq_false_2 by (intros Hx; by apply Hx).
    apply IH; [done | cbn in *; lia].
  - apply IH; [done | lia].
Qed.

(** The backward-compatibility step fails only where the loop did. *)
Lemma enable_external_network_access_Ok nets nis :
  Forall (fun net => flags_recognised net = true) nets ->
  is_Ok (enable_external_network_access nets nis) = true.
Proof.
  intros Hall. unfold enable_external_network_access.
  destruct nets as [|[[nd sd] args] [|]]; try reflexivity.
  destruct nis as [|ni0 others]; [reflexivity|].
  case_bool_decide; [reflexivity|].
  apply Forall_cons in Hall as [Hrec _].
  rewrite <- get_network_flags_is_Ok in Hrec. cbn [snd] in Hrec.
  destruct (get_network_flags args); [|discriminate]. cbn [res_bind].
  by destruct (is_network_flag_set _ _ _).
Qed.

Lemma enable_external_network_access_raise nets nis e :
  enable_external_network_access nets nis = Raise e ->
  is_ConfigurationError e = true.
Proof.
  unfold enable_external_network_access.
  destruct nets as [|[[nd sd] args] [|]]; try discriminate.
  destruct nis as [|ni0 others]; [discriminate|].
  case_bool_decide; [discriminate|].
  destruct (get_network_flags args) eqn:Hf; cbn [res_bind].
  - by destruct (is_network_flag_set _ _ _).
  - intros [= <-]. by apply get_network_flags_raise in Hf.
Qed.

(** Resolution succeeds exactly on configurations whose flags are all
    recognised and in which at most one entry is primary; it raises
    nothing but [ConfigurationError]. *)
Lemma get_network_interface_definitions_is_Ok project region nets :
  is_Ok (get_network_interface_definitions project region nets) = true <->
  Forall (fun net => flags_recognised net = true) nets /\
  (primary_count nets <= 1)%nat.
Proof.
  unfold get_network_interface_definitions. split.
  - destruct (network_interface_loop _ _ _ _ _) as [nis|e] eqn:Hl; [|discriminate].
    intros _. apply network_interface_loop_Ok in Hl as (Hall & Hcnt & _).
    cbn in Hcnt. split; [done | lia].
  - intros [Hall Hcnt].
    pose proof (network_interface_loop_is_Ok project region nets None [] Hall) as Hl.
    destruct (network_interface_loop _ _ _ _ _) as [nis|e];
      [|by (cbn in Hl; apply Hl; lia)].
    cbn [res_bind]. by apply enable_external_network_access_Ok.
Qed.

Lemma get_network_interface_definitions_raise project region nets e :
  get_network_interface_definitions project region nets = Raise e ->
  is_ConfigurationError e = true.
Proof.
  unfold get_network_interface_definitions.
  destruct (network_interface_loop _ _ _ _ _) as [nis|e'] eqn:Hl; cbn [res_bind].
  - apply enable_external_network_access_raise.
  - intros [= <-]. by apply network_interface_loop_raise in Hl.
Qed.

Lemma not_Ok_raises_ConfigurationError project region nets :
  is_Ok (get_network_interface_definitions project region nets) = false ->
  raises_ConfigurationError
    (get_network_interface_definitions project region nets) = true.
Proof.
  destruct (get_network_interface_definitions _ _ _) eqn:H; [discriminate|].
  intros _. cbn. by apply get_network_interface_definitions_raise in H.
Qed.

(** C10: network interface resolution raises [ConfigurationError] when
    two or more entries carry the primary flag, and resolves without
    error a configuration of recognised flags in which no entry is
    marked primary. *)
Theorem C10_primary_flag_resolution project region networks :
  ((2 <= primary_count networks)%nat ->
   raises_ConfigurationError
     (get_network_interface_definitions project region networks) = true) /\
  (primary_count networks = 0%nat ->
   Forall (fun net => flags_recognised net = true) networks ->
   is_Ok (get_network_interface_definitions project region networks) = true).
Proof.
  split.
  - intros Hcnt. apply not_Ok_raises_ConfigurationError.
    apply not_true_is_false. intros HOk.
    apply get_network_interface_definitions_is_Ok in HOk as [_ ?]. lia.
  - intros Hcnt Hall. apply get_network_interface_definitions_is_Ok.
    split; [done | lia].
Qed.

Lemma C10_primary_flag_resolution_witness :
  raises_ConfigurationError
    (get_network_interface_definitions "proj" "us-east1"
       [split_three_item_value "net-a:sub-a:primary";
        split_three_item_value "net-b::pri;ext"]) = true /\
  is_Ok
    (get_network_interface_definitions "proj" "us-east1"
       [split_three_item_value "net-a:sub-a:ext";
        split_three_item_value "net-b"]) = true.
Proof.
  split.
  - apply (proj1 (C10_primary_flag_resolution "proj" "us-east1" _)).
    vm_compute. lia.
  - apply (proj2 (C10_primary_flag_resolution "proj" "us-east1" _)).
    + vm_compute. reflexivity.
    + repeat constructor.
Defined.

(** ** External access *)

Lemma resolves_to_access project region net ni flags :
  resolves_to project region net ni ->
  get_network_flags net.2 = Ok flags ->
  (accessConfigs ni = Some EXTERNAL_NETWORK_ACCESS_CONFIG <->
     flags !! "external" = Some true) /\
  (accessConfigs ni = None <-> flags !! "external" <> Some true).
Proof.
  intros (ni0 & flags' & _ & Hf & Hac & ->) Hf'.
  rewrite Hf in Hf'. injection Hf' as ->.
  unfold is_network_flag_set.
  destruct (flags !! "external") as [[]|]; cbn; rewrite ?Hac; split; split;
    try done; try discriminate.
Qed.

Lemma external_flag_from_token net flags :
  get_network_flags net.2 = Ok flags ->
  flags !! "external" = Some true ->
  existsb is_ext_token (flag_tokens net) = true.
Proof.
  unfold get_network_flags, flag_tokens. destruct net.2.
  - intros H1 H2. destruct (flags_loop_external _ _ _ H1 H2) as [H|H]; [|done].
    by rewrite lookup_empty in H.
  - intros [= <-]. by rewrite lookup_empty.
Qed.

(** C6, as the code has it: a single network named [default] always gets
    external access; a single network of another name gets it unless its
    flags resolve ['external'] to [False]; with any other number of
    networks an interface has external access exactly where the flags
    resolve ['external'] to [True], which takes an [ext] flag. An
    interface with external access carries the NAT entry
    [EXTERNAL_NETWORK_ACCESS_CONFIG], an interface without it has no
    ['accessConfigs'] key. *)
Theorem C6_external_access project region networks nis :
  get_network_interface_definitions project region networks = Ok nis ->
  (forall nd sd args,
      networks = [(nd, sd, args)] ->
      exists ni flags,
        nis = [ni] /\
        get_network_flags args = Ok flags /\
        accessConfigs ni =
          (if (bool_decide (nd <> "default")
               && bool_decide (flags !! "external" = Some false))%bool
           then None
           else Some EXTERNAL_NETWORK_ACCESS_CONFIG)) /\
  (length networks <> 1%nat ->
   Forall2
     (fun net ni =>
        exists flags,
          get_network_flags net.2 = Ok flags /\
          accessConfigs ni =
            (if bool_decide (flags !! "external" = Some true)
             then Some EXTERNAL_NETWORK_ACCESS_CONFIG
             else None) /\
          (accessConfigs ni <> None ->
           existsb is_ext_token (flag_tokens net) = true))
     networks nis).
Proof.
  unfold get_network_interface_definitions.
  destruct (network_interface_loop _ _ _ _ _) as [nis0|e] eqn:Hl; [|discriminate].
  cbn [res_bind]. intros Hen.
  apply network_interface_loop_Ok in Hl as (_ & _ & news & -> & Hnews).
  cbn [app] in Hen. split.
  - intros nd sd args ->.
    apply Forall2_cons_inv_l in Hnews as (ni1 & rest & Hres & Hrest & ->).
    apply Forall2_nil_inv_l in Hrest as ->.
    destruct Hres as (ni0 & flags & _ & Hf & Hac & ->). cbn [snd] in Hf.
    unfold enable_external_network_access in Hen. rewrite Hf in Hen.
    cbn [res_bind] in Hen.
    exists (match nis with ni :: _ => ni | [] => ni0 end), flags.
    unfold is_network_flag_set in Hen |- *.
    case_bool_decide as Hd.
    + rewrite bool_decide_eq_false_2 by (intros Hx; by apply Hx).
      injection Hen as <-. by split_and!.
    + rewrite (bool_decide_eq_true_2 _ Hd). cbn [andb].
      destruct (flags !! "external") as [[]|] eqn:Hext; cbn in Hen |- *;
        injection Hen as <-; split_and!; try done.
  - intros Hlen.
    assert (nis = news) as ->.
    { unfold enable_external_network_access in Hen.
      destruct networks as [|[[nd sd] args] [|]]; cbn in Hlen;
        try done; by injection Hen. }
    eapply Forall2_impl; [exact Hnews|].
    intros net ni Hres.
    pose proof Hres as (ni0 & flags & _ & Hf & Hac & Hni).
    exists flags. split; [done|].
    destruct (resolves_to_access _ _ _ _ _ Hres Hf) as [Hs Hn].
    assert (Hval : accessConfigs ni =
                   if bool_decide (flags !! "external" = Some true)
                   then Some EXTERNAL_NETWORK_ACCESS_CONFIG else None).
    { case_bool_decide as Hext; [by apply Hs | by apply Hn]. }
    split; [done|]. intros Hany.
    apply (external_flag_from_token net flags Hf).
    rewrite Hval in Hany. by case_bool_decide.
Qed.

Lemma C6_external_access_witness :
  exists ni flags,
    [ {| network :=
           "https://www.googleapis.com/compute/v1/projects/proj/global/networks/net-a";
         subnetwork := None; accessConfigs := None |} ] = [ni] /\
    get_network_flags (Some "noext") = Ok flags /\
    accessConfigs ni =
      (if (bool_decide ("net-a" <> "default")
           && bool_decide (flags !! "external" = Some false))%bool
       then None
       else Some EXTERNAL_NETWORK_ACCESS_CONFIG).
Proof.
  refine (proj1 (C6_external_access "proj" "us-east1"
                   [("net-a", Some "", Some "noext")] _ _)
            "net-a" (Some "") (Some "noext") eq_refl).
  vm_compute. reflexivity.
Defined.

(** C6, as stated, fails: on the single network [default] an explicit
    [noext] flag does not take external access away. *)
Lemma C6_noext_on_default_ignored :
  (let nets := [split_three_item_value "default::noext"] in
   res_bind (get_network_flags (Some "noext"))
     (fun flags => Ok (flags !! "external")) = Ok (Some false) /\
   res_bind (get_network_interface_definitions "proj" "us-east1" nets)
     (fun nis => Ok (accessConfigs <$> nis))
     = Ok [Some EXTERNAL_NETWORK_ACCESS_CONFIG]).
Proof. split; vm_compute; reflexivity. Qed.

(** ** Malformed settings *)










(** ** Backoff of the poller *)

Lemma sleeps_app t1 t2 : sleeps (t1 ++ t2) = sleeps t1 ++ sleeps t2.
Proof. apply omap_app. Qed.

Lemma backoff_temp_nonneg polling_interval attempt :
  0 <= polling_interval -> 0 <= backoff_temp polling_interval attempt.
Proof.
  intros Hpi. unfold backoff_temp, max_sleep_time.
  assert (0 < 2 ^ Z.of_nat attempt) by (apply Z.pow_pos_nonneg; lia).
  apply Z.min_glb; [lia | nia].
Qed.

Lemma backoff_temp_le_cap polling_interval attempt :
  backoff_temp polling_interval attempt <= 5000.
Proof. unfold backoff_temp, max_sleep_time. lia. Qed.

(** From the first attempt on [temp] is even: [temp / 2] is exact. *)
Lemma backoff_temp_even polling_interval attempt :
  (1 <= attempt)%nat ->
  2 * (backoff_temp polling_interval attempt / 2) =
  backoff_temp polling_interval attempt.
Proof.
  intros Ha. unfold backoff_temp, max_sleep_time.
  destruct attempt as [|n]; [lia|].
  rewrite Nat2Z.inj_succ, Z.pow_succ_r by lia.
  set (m := polling_interval * 1000 * 2 ^ Z.of_nat n).
  replace (polling_interval * 1000 * (2 * 2 ^ Z.of_nat n)) with (2 * m)
    by (unfold m; ring).
  destruct (Z.min_spec 5000 (2 * m)) as [[_ ->]|[_ ->]].
  - reflexivity.
  - rewrite (Z.mul_comm 2 m), Z.div_mul by lia. ring.
Qed.

Lemma backoff_temp_mono polling_interval a b :
  0 <= polling_interval -> (a <= b)%nat ->
  backoff_temp polling_interval a <= backoff_temp polling_interval b.
Proof.
  intros Hpi Hab. unfold backoff_temp.
  apply Z.min_le_compat_l.
  apply Z.mul_le_mono_nonneg_l; [lia|].
  apply Z.pow_le_mono_r; lia.
Qed.

Lemma randint_range h raw : 0 <= h -> 0 <= randint 0 h raw <= h.
Proof.
  intros Hh. unfold randint.
  pose proof (Z.mod_pos_bound raw (h - 0 + 1)). lia.
Qed.

Lemma sleeptime_first polling_interval jitter :
  sleeptime polling_interval 0 jitter = 10%Q.
Proof. reflexivity. Qed.

Lemma sleeptime_backoff polling_interval attempt jitter :
  (1 <= attempt)%nat ->
  sleeptime polling_interval attempt jitter =
  Qmake (backoff_temp polling_interval attempt / 2 + jitter) 1000.
Proof.
  intros Ha. unfold sleeptime.
  destruct attempt; [lia | reflexivity].
Qed.

(** What one sleep of the poller adds to the trace; from the first
    attempt on it sleeps only when [temp / 2] is not negative. *)
Lemma gevent_sleep_sleeps w key polling_interval attempt t :
  let t' := (gevent_sleep w key polling_interval attempt t).2 in
  match (gevent_sleep w key polling_interval attempt t).1 with
  | Ok _ =>
      sleeps t' = sleeps t ++
        [sleeptime polling_interval attempt
           (jitter_at w key polling_interval attempt)] /\
      ((1 <= attempt)%nat -> 0 <= backoff_temp polling_interval attempt / 2)
  | Raise _ => t' = t
  end.
Proof.
  unfold gevent_sleep, jitter_at.
  destruct attempt as [|n]; cbn [Nat.ltb Nat.leb].
  - cbn. rewrite sleeps_app. split; [done | lia].
  - destruct (_ <? 0) eqn:Hneg; cbn; [done|].
    rewrite sleeps_app. split; [done|]. intros _. lia.
Qed.

Lemma _gevent_blocking_call_loop_done w key polling_interval ending pending
    response attempt t :
  op_status response = "DONE" ->
  _gevent_blocking_call_loop w key polling_interval pending ending response
    attempt t = (Ok (Some response), t).
Proof.
  intros Hd. destruct pending; cbn [_gevent_blocking_call_loop];
    by rewrite bool_decide_eq_true_2.
Qed.

(** The sleeps of a polling run are those of the attempts
    [attempt], [attempt + 1], ... in order, one per unfinished answer. *)
Lemma _gevent_blocking_call_loop_sleeps w key polling_interval ending pending :
  forall response attempt t,
  exists k,
    sleeps (_gevent_blocking_call_loop w key polling_interval pending ending
              response attempt t).2 =
    sleeps t ++
      ((fun a => sleeptime polling_interval a
                   (jitter_at w key polling_interval a)) <$> seq attempt k) /\
    forall a, (attempt <= a < attempt + k)%nat -> (1 <= a)%nat ->
              0 <= backoff_temp polling_interval a / 2.
Proof.
  induction pending as [|r more IH]; intros response attempt t.
  - exists 0%nat. split; [|lia]. cbn [_gevent_blocking_call_loop].
    case_bool_decide; cbn; [by rewrite app_nil_r|].
    destruct ending; cbn; by rewrite sleeps_app, !app_nil_r.
  - cbn [_gevent_blocking_call_loop].
    case_bool_decide;
      [exists 0%nat; split; [cbn; by rewrite app_nil_r | lia]|].
    unfold bind at 1, emit at 1, modify at 1.
    unfold bind at 1.
    case_bool_decide as Hr.
    + exists 0%nat. split; [|lia]. cbn [ret].
      rewrite _gevent_blocking_call_loop_done by done.
      cbn. by rewrite sleeps_app, !app_nil_r.
    + pose proof (gevent_sleep_sleeps w key polling_interval attempt
                    (t ++ [operation_get_call response])) as Hs.
      cbn zeta in Hs.
      destruct (gevent_sleep _ _ _ _ _) as [[[]|e] t1]; cbn [fst snd] in Hs |- *.
      * destruct Hs as [Hs Hnn].
        destruct (IH r (S attempt) t1) as (k & Hk & Hrest).
        exists (S k). split.
        { rewrite Hk, Hs, sleeps_app. cbn.
          by rewrite app_nil_r, <- app_assoc. }
        intros a Ha H1.
        destruct (decide (a = attempt)) as [->|]; [by apply Hnn|].
        apply Hrest; lia.
      * exists 0%nat. split; [|lia].
        subst t1. cbn. by rewrite sleeps_app, !app_nil_r.
Qed.

Lemma Qsum_snoc l x : (Qsum (l ++ [x]) == Qsum l + x)%Q.
Proof.
  unfold Qsum. induction l as [|y l IH]; cbn [app foldr].
  - ring.
  - rewrite IH. ring.
Qed.

(** The sum of [(c + j) / 1000] over [j = 0 .. n - 1]. *)
Lemma Qsum_arithmetic c n :
  (Qsum ((fun j => Qmake (c + Z.of_nat j) 1000) <$> seq 0 n) ==
   Qmake (2 * Z.of_nat n * c + Z.of_nat n * (Z.of_nat n - 1)) 2000)%Q.
Proof.
  induction n as [|n IH].
  - reflexivity.
  - rewrite seq_S, fmap_app. cbn [fmap list_fmap Nat.add].
    rewrite Qsum_snoc, IH.
    unfold Qeq, Qplus. cbn [Qnum Qden]. lia.
Qed.

(** The mean sleep of an attempt of the backoff is three quarters of
    [temp], in seconds. *)
Lemma mean_sleeptime_closed polling_interval attempt :
  0 <= polling_interval -> (1 <= attempt)%nat ->
  (mean_sleeptime polling_interval attempt ==
   Qmake (3 * (backoff_temp polling_interval attempt / 2)) 2000)%Q.
Proof.
  intros Hpi Ha. unfold mean_sleeptime.
  pose proof (backoff_temp_nonneg polling_interval attempt Hpi) as Hnn.
  set (h := backoff_temp polling_interval attempt / 2).
  assert (Hh : 0 <= h) by (apply Z.div_pos; lia).
  erewrite list_fmap_ext; [|intros i j _; apply (sleeptime_backoff _ _ _ Ha)].
  fold h. rewrite Qsum_arithmetic.
  rewrite Nat2Z.inj_succ, Z2Nat.id by lia.
  unfold Qeq, Qdiv, Qmult, Qinv, inject_Z. cbn [Qnum Qden].
  destruct (Z.succ h) as [|p|p] eqn:Hp; try lia.
  cbn [Qnum Qden]. rewrite !Pos2Z.inj_mul. nia.
Qed.

Lemma gevent_sleep_nonneg w key polling_interval attempt t :
  0 <= polling_interval ->
  gevent_sleep w key polling_interval attempt t =
  (Ok tt,
   t ++ [Sleep (sleeptime polling_interval attempt
                  (if (0 <? attempt)%nat
                   then jitter_at w key polling_interval attempt else 0))]).
Proof.
  intros Hp. unfold gevent_sleep, jitter_at.
  destruct (0 <? attempt)%nat; [|done]. cbv zeta.
  pose proof (backoff_temp_nonneg polling_interval attempt Hp) as Hn.
  destruct (_ <? 0) eqn:Hneg; [|done].
  apply Z.ltb_lt in Hneg.
  assert (0 <= backoff_temp polling_interval attempt / 2)
    by (apply Z.div_pos; lia).
  lia.
Qed.

Lemma sleeptime_jitter_first polling_interval j :
  sleeptime polling_interval 0 j = sleeptime polling_interval 0 0.
Proof. reflexivity. Qed.

(** With a polling interval that is not negative the poller sleeps
    once after each answer that is not done, at the attempts
    [attempt], [attempt + 1], ... *)
Lemma _gevent_blocking_call_loop_unfinished w key polling_interval ending
    pending :
  0 <= polling_interval ->
  forall response attempt t,
    op_status response <> "DONE" ->
    sleeps (_gevent_blocking_call_loop w key polling_interval pending ending
              response attempt t).2 =
    sleeps t ++
      ((fun a => sleeptime polling_interval a
                   (jitter_at w key polling_interval a))
         <$> seq attempt (unfinished pending)).
Proof.
  intros Hp. induction pending as [|r more IH]; intros response attempt t Hresp.
  - cbn [_gevent_blocking_call_loop unfinished].
    rewrite (bool_decide_eq_false_2 _ Hresp).
    destruct ending; cbn; by rewrite sleeps_app, !app_nil_r.
  - cbn [_gevent_blocking_call_loop unfinished].
    rewrite (bool_decide_eq_false_2 _ Hresp).
    cbv [bind emit modify ret]. case_bool_decide as Hr.
    + rewrite _gevent_blocking_call_loop_done by done.
      cbn. by rewrite sleeps_app, !app_nil_r.
    + rewrite gevent_sleep_nonneg by done.
      rewrite (IH r (S attempt) _ Hr), !sleeps_app.
      cbn [seq fmap list_fmap]. rewrite <- !app_assoc. f_equal.
      cbn. f_equal. by destruct attempt.
Qed.

(** C4: a polling run on an operation that is not done sleeps once
    after every answer that finds it unfinished, and nowhere else. The
    first sleep of a run is 10 seconds whatever the polling interval; the
    sleep of attempt [a >= 1] is
    [(temp / 2 + rand(0, temp / 2)) / 1000] seconds with
    [temp = min(5000, polling_interval * 1000 * 2 ^ a)], at most the
    5000 ms cap, where the jitter takes every value from [0] to
    [temp / 2]; and for a polling interval that is not negative the mean
    of that sleep over the jitter does not decrease with the attempt. *)
Theorem C4_backoff_schedule w project_id response polling_interval :
  let t := (_gevent_blocking_call w project_id response polling_interval []).2 in
  let key := op_name response in
  (0 <= polling_interval -> op_status response <> "DONE" ->
   sleeps t =
     (fun a => sleeptime polling_interval a
                 (jitter_at w key polling_interval a))
       <$> seq 0 (unfinished (answers (operations_get w key)))) /\
  (op_status response = "DONE" -> t = []) /\
  (forall q, sleeps t !! 0%nat = Some q -> q = 10%Q) /\
  (forall a q,
      (1 <= a)%nat -> sleeps t !! a = Some q ->
      let temp := Z.min 5000 (polling_interval * 1000 * 2 ^ Z.of_nat a) in
      exists jitter,
        jitter = randint 0 (temp / 2) (random_source w key a) /\
        0 <= jitter <= temp / 2 /\
        (forall j, 0 <= j <= temp / 2 -> randint 0 (temp / 2) j = j) /\
        2 * (temp / 2) = temp /\
        q = sleeptime polling_interval a jitter /\
        q = Qmake (temp / 2 + jitter) 1000 /\
        (q * 1000 <= 5000)%Q) /\
  (0 <= polling_interval ->
   forall a b,
     (1 <= a <= b)%nat ->
     (mean_sleeptime polling_interval a <= mean_sleeptime polling_interval b)%Q).
Proof.
  intros t key. subst t key. unfold _gevent_blocking_call.
  destruct (_gevent_blocking_call_loop_sleeps w (op_name response)
              polling_interval (ending (operations_get w (op_name response)))
              (answers (operations_get w (op_name response))) response 0%nat [])
    as (k & Hk & Hnn).
  split_and!.
  - intros Hp Hresp.
    by rewrite (_gevent_blocking_call_loop_unfinished w _ _ _ _ Hp _ _ _ Hresp).
  - intros Hd. by rewrite _gevent_blocking_call_loop_done.
  - rewrite Hk. change (sleeps []) with (@nil Q). cbn [app].
    intros q. rewrite list_lookup_fmap.
    destruct (seq 0 k !! 0%nat) as [a|] eqn:Ha; [|discriminate].
    apply lookup_seq in Ha as [-> _]. cbn. by intros [= <-].
  - rewrite Hk. change (sleeps []) with (@nil Q). cbn [app].
    intros a q Ha. rewrite list_lookup_fmap.
    destruct (seq 0 k !! a) as [a'|] eqn:Hl; [|discriminate].
    apply lookup_seq in Hl as [-> Hak]. cbn [fmap option_fmap option_map Nat.add].
    intros [= <-].
    pose proof (backoff_temp_le_cap polling_interval a) as Hcap.
    pose proof (backoff_temp_even polling_interval a Ha) as Hev.
    assert (Hh : 0 <= backoff_temp polling_interval a / 2)
      by (apply Hnn; lia).
    pose proof (randint_range _ (random_source w (op_name response) a) Hh) as Hj.
    exists (jitter_at w (op_name response) polling_interval a).
    fold (jitter_at w (op_name response) polling_interval a) in Hj.
    change (Z.min 5000 (polling_interval * 1000 * 2 ^ Z.of_nat a))
      with (backoff_temp polling_interval a).
    split; [done|]. split; [done|]. split.
    { intros j Hjr. unfold randint. rewrite Z.mod_small by lia. lia. }
    split; [done|]. split; [done|]. split; [by apply sleeptime_backoff|].
    rewrite sleeptime_backoff by done.
    unfold Qle, Qmult. cbn [Qnum Qden]. lia.
  - intros Hpi a b [Ha Hab].
    rewrite !mean_sleeptime_closed by lia.
    pose proof (backoff_temp_mono polling_interval a b Hpi Hab) as Hm.
    pose proof (Z.div_le_mono _ _ 2 ltac:(lia) Hm).
    unfold Qle. cbn [Qnum Qden]. lia.
Qed.

Lemma C4_backoff_schedule_witness :
  sleeps (_gevent_blocking_call Sample.slow_operation "proj"
            (Sample.op "compute-0" "RUNNING" None) 5 []).2 =
    [10%Q; Qmake 3737 1000; Qmake 4974 1000] /\
  (exists jitter,
      0 <= jitter <= 2500 /\ Qmake 3737 1000 = Qmake (2500 + jitter) 1000) /\
  (mean_sleeptime 5 1 <= mean_sleeptime 5 2)%Q.
Proof.
  pose proof (C4_backoff_schedule Sample.slow_operation "proj"
                (Sample.op "compute-0" "RUNNING" None) 5)
    as (Hall & _ & _ & Hshape & Hmean).
  split_and!.
  - rewrite Hall; [vm_compute; reflexivity | lia | discriminate].
  - destruct (Hshape 1%nat (Qmake 3737 1000))
      as (j & _ & Hj & _ & _ & _ & Hq & _).
    + lia.
    + vm_compute. reflexivity.
    + exists j. split; [exact Hj | exact Hq].
  - apply Hmean; lia.
Defined.

(** ** Disk provisioning *)

Lemma disk_create_calls_app t1 t2 :
  disk_create_calls (t1 ++ t2) = disk_create_calls t1 ++ disk_create_calls t2.
Proof. apply omap_app. Qed.

(** Polling the dropped disk operation fails before any answer is
    read. *)
Lemma _blocking_call_None w project_id polling_interval t :
  _blocking_call w project_id None polling_interval t =
  (Raise (TypeError "'NoneType' object is not subscriptable"), t).
Proof. reflexivity. Qed.


Global Instance key_le_trans : Transitive key_le.
Proof. intros x y z. unfold key_le. apply transitivity. Qed.

Global Instance key_le_total : Total key_le.
Proof. intros x y. unfold key_le. apply total, _. Qed.







(** A node with a data disk of the default adapter never gets its disk
    list: the provisioner raises. *)
Lemma process_added_disk_loop_data_disk w cfg node_name instance_name items :
  forall persistent_disks t,
  Exists (fun item => adapter item.2 = "default" /\ 1 < item.1) items ->
  is_Ok (process_added_disk_loop w cfg node_name instance_name items
           persistent_disks t).1 = false.
Proof.
  induction items as [|[n d] rest IH]; intros pds t Hex.
  - by apply Exists_nil in Hex.
  - cbn [process_added_disk_loop].
    apply Exists_cons in Hex. cbn [fst snd] in Hex.
    case_bool_decide as Had.
    { apply IH. destruct Hex as [[? _]|]; [done|done]. }
    unfold bind at 1.
    destruct instance_name as [name|]; cbn [ret raise]; [|done].
    unfold bind at 1.
    case_bool_decide as Hn.
    + cbv [create_persistent_disk bind emit modify lift_res ret raise
             _blocking_call].
      by destruct (disks_insert w (get_disk_volume_name name n)).
    + cbn [ret]. unfold bind at 1, emit at 1, modify at 1.
      apply IH. destruct Hex as [[_ ?]|]; [lia|done].
Qed.

Lemma process_added_disk_changes_data_disk w cfg s n d :
  added (discoverStorageChanges w (n_name (nr_node (req s))) false) !! n = Some d ->
  adapter d = "default" -> 1 < n ->
  is_Ok (process_added_disk_changes w cfg s).1 = false.
Proof.
  intros Hl Had Hn.
  unfold process_added_disk_changes, bind, gets, on_trace.
  pose proof (process_added_disk_loop_data_disk w cfg
                (n_name (nr_node (req s))) (nr_instance_name (req s))
                (sorted_items (added (discoverStorageChanges w
                   (n_name (nr_node (req s))) false))) [] (tr s)) as H.
  destruct (process_added_disk_loop _ _ _ _ _ _ _) as [o t'].
  apply H. apply Exists_exists. exists (n, d). split; [|done].
  unfold sorted_items.
  rewrite merge_sort_Permutation. by apply elem_of_map_to_list.
Qed.

(** C3 fails on the code: for a node with a data disk (number 2, default
    adapter) the provisioner submits the disk-create call, then polls
    [None] instead of the operation the call returned; the poller raises
    [TypeError] and no disk list, hence no link, is returned. *)
Lemma C3_data_disk_poll_raises :
  process_added_disk_changes Sample.one_data_disk Sample.cfg
    {| req := Sample.request "compute-0.cloud.example.com"; tr := [] |} =
  (Raise (TypeError "'NoneType' object is not subscriptable"),
   {| req := Sample.request "compute-0.cloud.example.com";
      tr := [SanAddDrive "compute-0.cloud.example.com" 1;
             DisksInsert 2 "compute-0-disk-02" (Qmake 10000 1000)] |}).
Proof. vm_compute. reflexivity. Qed.

(** ** Node requests through the launch loop *)

Lemma on_trace_req {A} (m : M (list event) A) s :
  req (on_trace m s).2 = req s.
Proof. unfold on_trace. by destruct (m (tr s)). Qed.

Lemma process_added_disk_changes_req w cfg s :
  req (process_added_disk_changes w cfg s).2 = req s.
Proof.
  unfold process_added_disk_changes, bind, gets.
  apply (on_trace_req _ s).
Qed.

(** Launching leaves the status of the request alone, and a launch that
    returns has stored the response of the insert call. *)
Lemma launch_one_spec w cfg args s :
  nr_history (req (launch_one w cfg args s).2) = nr_history (req s) /\
  nr_status (req (launch_one w cfg args s).2) = nr_status (req s) /\
  (is_Ok (launch_one w cfg args s).1 = true ->
   nr_response (req (launch_one w cfg args s).2) <> None).
Proof.
  unfold launch_one.
  cbv [bind gets update_req modify try_except on_trace lift_res ret raise emit].
  destruct (instance_metadata w _); cbn [fst snd req tr]; [|done].
  match goal with
  | |- context [process_added_disk_changes w cfg ?s0] =>
      pose proof (process_added_disk_changes_req w cfg s0) as Hd;
      destruct (process_added_disk_changes w cfg s0) as [[pds|e] s1]
  end; cbn [fst snd req tr] in *; [|by rewrite Hd].
  destruct s1 as [r1 t1]. cbn [req tr] in *. subst r1.
  destruct (launch_instance w _ _ t1) as [[response|e] t2];
    cbn [fst snd req tr]; [|done].
  destruct (zone_name response); cbn [fst snd req tr]; [|done].
  destruct (load_resource_adapter_config w); cbn [fst snd req tr]; done.
Qed.

(** ** Node requests through the wait phase *)

(** Membership in a list that is written out. *)
Ltac in_list :=
  repeat first [apply list_elem_of_here | apply list_elem_of_further].

Lemma gevent_wait_for_instance_spec w cfg s :
  match (gevent_wait_for_instance w cfg s).1 with
  | Ok true =>
      nr_history (req (gevent_wait_for_instance w cfg s).2) =
        nr_history (req s) ++ [Success] /\
      nr_status (req (gevent_wait_for_instance w cfg s).2) = Success
  | Ok false =>
      nr_history (req (gevent_wait_for_instance w cfg s).2) =
        nr_history (req s) ++ [Error] /\
      nr_status (req (gevent_wait_for_instance w cfg s).2) = Error
  | Raise _ =>
      nr_history (req (gevent_wait_for_instance w cfg s).2) = nr_history (req s) /\
      nr_status (req (gevent_wait_for_instance w cfg s).2) = nr_status (req s)
  end.
Proof.
  unfold gevent_wait_for_instance.
  cbv [bind gets update_req modify on_trace ret raise].
  destruct (nr_response (req s)) as [response|]; cbn [fst snd req tr]; [|done].
  destruct (_gevent_blocking_call w _ response _ (tr s)) as [[[result|]|e] t1];
    cbn [fst snd req tr]; [|done|done].
  destruct (op_error result); cbn; done.
Qed.

Lemma instance_post_launch_spec w s :
  nr_history (req (instance_post_launch w s).2) = nr_history (req s) /\
  nr_status (req (instance_post_launch w s).2) = nr_status (req s).
Proof.
  unfold instance_post_launch.
  cbv [bind gets update_req modify on_trace lift_res ret raise emit].
  destruct (nr_instance_name (req s)) as [name|]; cbn [fst snd req tr]; [|done].
  destruct (gce_get_vm w name (tr s)) as [[[vm|]|e] t1];
    cbn [fst snd req tr]; [|done|done].
  destruct (get_instance_internal_ip vm) as [[ip|]|e];
    cbn [fst snd req tr]; [|done|done].
  destruct (pre_add_host w (n_name (nr_node (req s))) ip);
    cbn [fst snd req tr]; done.
Qed.

Lemma mark_node_request_failed_spec message s :
  exists s',
    mark_node_request_failed message s = (Ok tt, s') /\
    nr_history (req s') = nr_history (req s) ++ [Error] /\
    nr_status (req s') = Error /\
    tr s' = tr s.
Proof.
  unfold mark_node_request_failed.
  cbv [bind update_req modify ret].
  destruct (Py.truthy (Some message)); eexists; (split; [reflexivity|]); done.
Qed.

Lemma mark_node_request_failed_failed_node message s :
  exists s',
    mark_node_request_failed message s = (Ok tt, s') /\
    nr_status (req s') = Error /\
    nr_node (req s') = nr_node (req s).
Proof.
  unfold mark_node_request_failed.
  cbv [bind update_req modify ret].
  destruct (Py.truthy (Some message)); eexists; (split; [reflexivity|]); done.
Qed.

(** Waiting for an instance never raises; it assigns the status one to
    three times, by one of the five sequences of [wait_suffixes]. *)
Lemma wait_for_instance_spec w cfg s :
  exists s' suffix,
    wait_for_instance w cfg s = (Ok tt, s') /\
    suffix ∈ wait_suffixes /\
    nr_history (req s') = nr_history (req s) ++ suffix /\
    last suffix = Some (nr_status (req s')).
Proof.
  unfold wait_for_instance, try_except.
  unfold bind at 1.
  pose proof (gevent_wait_for_instance_spec w cfg s) as Hg.
  destruct (gevent_wait_for_instance w cfg s) as [[[|]|e] s1];
    cbn [fst snd] in Hg; destruct Hg as [Hh Hs].
  - (* the instance launched: the post-launch action runs *)
    cbv [bind gets] . cbn [fst snd].
    pose proof (instance_post_launch_spec w s1) as [Hh1 Hs1].
    destruct (instance_post_launch w s1) as [[[]|e] s2]; cbn [fst snd] in *.
    + exists s2, [Success]. rewrite Hh1, Hs1, Hh, Hs.
      split_and!; try done; unfold wait_suffixes; in_list.
    + cbv [on_trace emit modify]. cbn [fst snd req tr].
      match goal with
      | |- context [mark_node_request_failed ?m ?s0] =>
          destruct (mark_node_request_failed_spec m s0)
            as (s3 & -> & Hh3 & Hs3 & Ht3)
      end.
      cbn [req tr] in Hh3, Hs3, Ht3.
      destruct (deleteInstance w (nr_node (req s3)) (tr s3)) as [[[]|e'] t4].
      * eexists _, [Success; Error]. split; [reflexivity|].
        cbn [req]. rewrite Hh3, Hs3, Hh1, Hh, <- app_assoc.
        split_and!; try done; unfold wait_suffixes; in_list.
      * match goal with
        | |- context [mark_node_request_failed ?m ?s0] =>
            destruct (mark_node_request_failed_spec m s0)
              as (s5 & -> & Hh5 & Hs5 & Ht5)
        end.
        cbn [req tr] in Hh5, Hs5.
        exists s5, [Success; Error; Error]. split; [reflexivity|].
        rewrite Hh5, Hs5, Hh3, Hh1, Hh, <- !app_assoc.
        split_and!; try done; unfold wait_suffixes; in_list.
  - (* the operation ended in error *)
    cbv [bind gets on_trace emit modify]. cbn [fst snd req tr].
    match goal with
    | |- context [mark_node_request_failed ?m ?s0] =>
        destruct (mark_node_request_failed_spec m s0)
          as (s3 & -> & Hh3 & Hs3 & Ht3)
    end.
    cbn [req tr] in Hh3, Hs3.
    exists s3, [Error; Error]. split; [reflexivity|].
    rewrite Hh3, Hs3, Hh, <- app_assoc.
    split_and!; try done; unfold wait_suffixes; in_list.
  - (* the poll raised *)
    cbv [bind gets on_trace emit modify]. cbn [fst snd req tr].
    match goal with
    | |- context [mark_node_request_failed ?m ?s0] =>
        destruct (mark_node_request_failed_spec m s0)
          as (s3 & -> & Hh3 & Hs3 & Ht3)
    end.
    cbn [req tr] in Hh3, Hs3.
    exists s3, [Error]. split; [reflexivity|].
    rewrite Hh3, Hs3, Hh.
    split_and!; try done; unfold wait_suffixes; in_list.
Qed.

(** ** Loops over the node requests *)

Lemma for_each_loop_Forall2 (R : node_request -> node_request -> Prop) body :
  (forall r, R r r) ->
  (forall s, R (req s) (req (body s).2)) ->
  forall reqs t, Forall2 R reqs (for_each_loop body reqs t).2.1.
Proof.
  intros Hrefl Hbody. induction reqs as [|r rest IH]; intros t.
  - constructor.
  - cbn [for_each_loop].
    pose proof (Hbody {| req := r; tr := t |}) as Hr.
    destruct (body _) as [[[]|e] s1]; cbn [fst snd req] in *.
    + specialize (IH (tr s1)).
      destruct (for_each_loop body rest (tr s1)) as [o [rest' t']].
      cbn [fst snd] in *. by constructor.
    + constructor; [done|]. by apply Forall_Forall2_diag, Forall_forall.
Qed.

Lemma for_each_loop_Ok_Forall2 (R : node_request -> node_request -> Prop) body :
  (forall s, is_Ok (body s).1 = true -> R (req s) (req (body s).2)) ->
  forall reqs t,
    is_Ok (for_each_loop body reqs t).1 = true ->
    Forall2 R reqs (for_each_loop body reqs t).2.1.
Proof.
  intros Hbody. induction reqs as [|r rest IH]; intros t.
  - constructor.
  - cbn [for_each_loop].
    pose proof (Hbody {| req := r; tr := t |}) as Hr.
    destruct (body _) as [[[]|e] s1]; cbn [fst snd req] in *; [|discriminate].
    specialize (IH (tr s1)).
    destruct (for_each_loop body rest (tr s1)) as [o [rest' t']].
    cbn [fst snd] in *. intros HOk. constructor; auto.
Qed.

Lemma for_each_loop_total body :
  (forall s, (body s).1 = Ok tt) ->
  forall reqs t, (for_each_loop body reqs t).1 = Ok tt.
Proof.
  intros Hbody. induction reqs as [|r rest IH]; intros t; [reflexivity|].
  cbn [for_each_loop].
  pose proof (Hbody {| req := r; tr := t |}) as Hr.
  destruct (body _) as [[[]|e] s1]; cbn [fst] in Hr; [|discriminate].
  specialize (IH (tr s1)).
  by destruct (for_each_loop body rest (tr s1)) as [o [rest' t']].
Qed.

(** ** Reconciliation *)

Lemma post_launch_loop_eq w reqs : forall t,
  post_launch_loop w reqs t =
  (Ok (reconciled <$> reqs, reqs ≫= returned),
   t ++ (reqs ≫= reconcile_events w)).
Proof.
  induction reqs as [|r rest IH]; intros t.
  - cbn. by rewrite app_nil_r.
  - cbn [post_launch_loop]. rewrite fmap_cons, !bind_cons.
    assert (Hrec : reconciled r =
                   if bool_decide (nr_status r <> Success) then r
                   else set_node (node_set_state NODE_STATE_PROVISIONED) r)
      by reflexivity.
    assert (Hret : returned r =
                   if bool_decide (nr_status r <> Success) then []
                   else [nr_node (set_node
                           (node_set_state NODE_STATE_PROVISIONED) r)]).
    { unfold returned, reconciled. by case_bool_decide. }
    rewrite Hrec, Hret. unfold reconcile_events at 1.
    cbv [bind emit modify ret node_cleanup process_deleted_disk_changes].
    case_bool_decide; rewrite IH; rewrite <- ?app_assoc; reflexivity.
Qed.

Lemma reconciled_status r : nr_status (reconciled r) = nr_status r.
Proof. unfold reconciled. by case_bool_decide. Qed.

Lemma reconciled_history r : nr_history (reconciled r) = nr_history r.
Proof. unfold reconciled. by case_bool_decide. Qed.

Lemma reconciled_name r : n_name (nr_node (reconciled r)) = n_name (nr_node r).
Proof. unfold reconciled. by case_bool_decide. Qed.

Lemma successes_reconciled reqs :
  successes (reconciled <$> reqs) = successes reqs.
Proof.
  unfold successes. induction reqs as [|r rest IH]; [reflexivity|].
  rewrite fmap_cons, !filter_cons, reconciled_status.
  destruct (decide _); cbn; by rewrite IH.
Qed.

Lemma length_returned reqs : length (reqs ≫= returned) = successes reqs.
Proof.
  unfold successes. induction reqs as [|r rest IH]; [reflexivity|].
  rewrite bind_cons, length_app, filter_cons, IH. unfold returned.
  case_bool_decide as Hs; destruct (decide _); cbn; try done; lia.
Qed.

Lemma returned_eq reqs :
  reqs ≫= returned =
  nr_node <$> filter (fun r => nr_status r = Success) (reconciled <$> reqs).
Proof.
  induction reqs as [|r rest IH]; [reflexivity|].
  rewrite bind_cons, fmap_cons, filter_cons, reconciled_status, IH.
  unfold returned. case_bool_decide; destruct (decide _); done.
Qed.

(** Reconciliation always returns: the nodes of the requests in
    [Success] state; it leaves the statuses alone and appends its calls
    to the trace, with the warning when some but not all requests
    succeeded. *)
Lemma post_launch_action_eq w reqs t :
  post_launch_action w (reqs, t) =
  (Ok (reqs ≫= returned),
   (reconciled <$> reqs,
    t ++ (reqs ≫= reconcile_events w) ++ [DbCommit] ++
      if (bool_decide (successes reqs <> 0%nat)
          && bool_decide (successes reqs < length reqs)%nat)%bool
      then [LogWarning (partial_warning (successes reqs) (length reqs))]
      else [])).
Proof.
  unfold post_launch_action. rewrite post_launch_loop_eq, length_returned.
  destruct (_ && _)%bool; rewrite <- ?app_assoc; cbn [app];
    by rewrite ?app_nil_r.
Qed.

(** ** The launch of a batch *)

Lemma Forall2_transfer {A} (R : A -> A -> Prop) (P Q : A -> Prop) l k :
  Forall2 R l k -> Forall P l -> (forall x y, R x y -> P x -> Q y) ->
  Forall Q k.
Proof.
  intros H2 HP Himp. induction H2 as [|x y l k Hxy _ IH]; [constructor|].
  apply Forall_cons in HP as [Hx HP]. constructor; eauto.
Qed.

Lemma waited_status r :
  waited r -> nr_status r = Success \/ nr_status r = Error.
Proof.
  intros (suffix & Hin & _ & Hlast). unfold wait_suffixes in Hin.
  repeat (apply elem_of_cons in Hin as [->|Hin]; [cbn in Hlast; naive_solver|]).
  by apply elem_of_nil in Hin.
Qed.

Lemma raise_if_failed_spec reqs t :
  (Forall (fun r => nr_status r <> Error) reqs /\
   raise_if_failed reqs t = (Ok tt, t)) \/
  (Exists (fun r => nr_status r = Error) reqs /\
   exists e t',
     raise_if_failed reqs t = (Raise e, t') /\
     (e = CommandFailed "Fatal error launching one or more instances" \/
      e = KeyError "message")).
Proof.
  induction reqs as [|r rest IH]; [left; by split|].
  cbn [raise_if_failed]. case_bool_decide as Hs.
  - right. split; [by left|].
    destruct (nr_message r); cbv [bind emit modify raise]; eauto 10.
  - destruct IH as [[Hall ->]|[Hex Hrun]].
    + left. split; [by constructor | done].
    + right. split; [by right | done].
Qed.

Lemma wait_worker_spec w cfg s :
  (wait_worker w cfg s).1 = Ok tt /\
  (fresh (req s) -> nr_response (req s) <> None ->
   waited (req (wait_worker w cfg s).2)).
Proof.
  unfold wait_worker, bind, gets.
  destruct (nr_response (req s)) eqn:Hr; [|by split].
  destruct (wait_for_instance_spec w cfg s) as (s' & suffix & -> & Hin & Hh & Hl).
  split; [done|]. intros [Hf _] _. cbn [snd]. exists suffix.
  split_and!; [done | by rewrite Hh, Hf | done].
Qed.

Lemma launch_instances_eq w cfg extra_args reqs t :
  launch_instances w cfg extra_args (reqs, t) =
  match get_common_launch_args w cfg extra_args t with
  | (Raise e, t1) => (Raise e, (reqs, t1))
  | (Ok args, t1) =>
      match for_each_loop (launch_one w cfg args) reqs t1 with
      | (Raise e, s2) => (Raise e, s2)
      | (Ok _, (reqs2, t2)) =>
          match for_each_loop (wait_worker w cfg) reqs2 t2 with
          | (Raise e, s3) => (Raise e, s3)
          | (Ok _, (reqs3, t3)) =>
              let '(o, t4) := raise_if_failed reqs3 t3 in (o, (reqs3, t4))
          end
      end
  end.
Proof.
  unfold launch_instances, wait_for_instances.
  cbv [bind on_batch_trace for_each_request gets].
  destruct (get_common_launch_args w cfg extra_args t) as [[args|e] t1];
    [|reflexivity].
  destruct (for_each_loop (launch_one w cfg args) reqs t1)
    as [[[]|e] [reqs2 t2]]; [|reflexivity].
  destruct (for_each_loop (wait_worker w cfg) reqs2 t2)
    as [[[]|e] [reqs3 t3]]; reflexivity.
Qed.

(** The launch of a batch either fails before any request is waited
    for, or waits for every request and then returns, all requests being
    in [Success] state, or raises, one request being in [Error] state. *)
Lemma launch_instances_spec w cfg extra_args reqs t :
  Forall fresh reqs ->
  let run := launch_instances w cfg extra_args (reqs, t) in
  (Forall fresh run.2.1 /\ is_Ok run.1 = false) \/
  (Forall waited run.2.1 /\
   ((run.1 = Ok tt /\ Forall (fun r => nr_status r = Success) run.2.1) \/
    (Exists (fun r => nr_status r = Error) run.2.1 /\
     (run.1 = Raise (CommandFailed "Fatal error launching one or more instances")
      \/ run.1 = Raise (KeyError "message"))))).
Proof.
  intros Hfresh run. subst run. rewrite launch_instances_eq.
  destruct (get_common_launch_args w cfg extra_args t) as [[args|e] t1];
    [|left; by split].
  pose proof (for_each_loop_Forall2
                (fun r r' => nr_history r' = nr_history r /\
                             nr_status r' = nr_status r)
                (launch_one w cfg args) ltac:(done)
                (fun s => let H := launch_one_spec w cfg args s in
                          conj (proj1 H) (proj1 (proj2 H))) reqs t1) as Hsame.
  pose proof (for_each_loop_Ok_Forall2
                (fun r r' => nr_response r' <> None)
                (launch_one w cfg args)
                (fun s => proj2 (proj2 (launch_one_spec w cfg args s)))
                reqs t1) as Hresp.
  destruct (for_each_loop (launch_one w cfg args) reqs t1)
    as [[[]|e] [reqs2 t2]]; cbn [fst snd] in *.
  2:{ left. split; [|done].
      eapply Forall2_transfer; [exact Hsame | exact Hfresh|].
      intros x y [Hh Hs] [Hfh Hfs]. split; congruence. }
  assert (Hready : Forall (fun r => fresh r /\ nr_response r <> None) reqs2).
  { apply Forall_and. split.
    - eapply Forall2_transfer; [exact Hsame | exact Hfresh|].
      intros x y [Hh Hs] [Hfh Hfs]. split; congruence.
    - eapply Forall2_transfer; [exact (Hresp eq_refl) | exact Hfresh|].
      by intros x y Hy _. }
  right.
  pose proof (for_each_loop_total (wait_worker w cfg)
                (fun s => proj1 (wait_worker_spec w cfg s)) reqs2 t2) as Htot.
  pose proof (for_each_loop_Ok_Forall2
                (fun r r' => fresh r -> nr_response r <> None -> waited r')
                (wait_worker w cfg)
                (fun s _ => proj2 (wait_worker_spec w cfg s)) reqs2 t2) as Hw.
  destruct (for_each_loop (wait_worker w cfg) reqs2 t2) as [o [reqs3 t3]].
  cbn [fst snd] in *. subst o.
  assert (Hwaited : Forall waited reqs3).
  { eapply Forall2_transfer; [exact (Hw eq_refl) | exact Hready|].
    intros x y Hxy [Hf Hr]. by apply Hxy. }
  destruct (raise_if_failed_spec reqs3 t3)
    as [[Hnone ->]|[Hex (e & t4 & -> & He)]]; cbn [fst snd].
  - split; [done|]. left. split; [done|].
    rewrite Forall_forall in Hwaited, Hnone |- *. intros r Hr.
    destruct (waited_status r (Hwaited r Hr)) as [|Herr]; [done|].
    by destruct (Hnone r Hr).
  - split; [done|]. right. split; [done|].
    destruct He as [->| ->]; auto.
Qed.

(** ** The batch call *)

Lemma createNodes_loop_fresh w indices nodes :
  createNodes_loop w indices = Ok nodes ->
  Forall fresh (build_node_request_queue nodes).
Proof.
  revert nodes. induction indices as [|i rest IH]; intros nodes.
  - intros [= <-]. constructor.
  - cbn [createNodes_loop].
    destruct (generate_node_name w i); [|discriminate]. cbn [res_bind].
    destruct (createNodes_loop w rest) as [ns|]; [|discriminate].
    cbn [res_bind]. intros [= <-]. constructor; [by split | by apply IH].
Qed.

(** The batch call is the launch followed by reconciliation; the
    outcome is that of the launch when it raises, and the nodes
    reconciliation returns otherwise. *)
Lemma addActiveNodes_eq w cfg count extra_args :
  addActiveNodes w cfg count extra_args =
  match createNodes w count with
  | Raise e => (Raise e, ([], []))
  | Ok nodes =>
      let run :=
        launch_instances w cfg extra_args
          (build_node_request_queue nodes,
           [DbAddAll (n_name <$> nodes); DbCommit]) in
      let rec := post_launch_action w run.2 in
      (match run.1 with Ok _ => rec.1 | Raise e => Raise e end, rec.2)
  end.
Proof.
  unfold addActiveNodes.
  destruct (createNodes w count) as [nodes|e]; [|reflexivity].
  cbv [bind try_except raise].
  destruct (launch_instances _ _ _ _) as [[[]|e] [reqs1 t1]]; cbn [fst snd].
  - destruct (post_launch_action w (reqs1, t1)) as [o s2]. reflexivity.
  - rewrite post_launch_action_eq. reflexivity.
Qed.

(** What the batch call leaves: either nothing, the nodes could not be
    named, or the requests of a launch, reconciled. *)
Lemma addActiveNodes_cases w cfg count extra_args :
  (addActiveNodes w cfg count extra_args).2 = ([], []) /\
  is_Ok (addActiveNodes w cfg count extra_args).1 = false \/
  exists reqs0 t0 reqs1 t1 o1,
    Forall fresh reqs0 /\
    launch_instances w cfg extra_args (reqs0, t0) = (o1, (reqs1, t1)) /\
    addActiveNodes w cfg count extra_args =
    (match o1 with Ok _ => Ok (reqs1 ≫= returned) | Raise e => Raise e end,
     (reconciled <$> reqs1,
      t1 ++ (reqs1 ≫= reconcile_events w) ++ [DbCommit] ++
        if (bool_decide (successes reqs1 <> 0%nat)
            && bool_decide (successes reqs1 < length reqs1)%nat)%bool
        then [LogWarning (partial_warning (successes reqs1) (length reqs1))]
        else [])).
Proof.
  rewrite addActiveNodes_eq. unfold createNodes.
  destruct (createNodes_loop w _) as [nodes|e] eqn:Hc; [|left; by split].
  right. apply createNodes_loop_fresh in Hc.
  destruct (launch_instances w cfg extra_args
              (build_node_request_queue nodes,
               [DbAddAll (n_name <$> nodes); DbCommit]))
    as [o1 [reqs1 t1]] eqn:Hl.
  exists (build_node_request_queue nodes),
    [DbAddAll (n_name <$> nodes); DbCommit], reqs1, t1, o1.
  split; [done|]. split; [done|].
  cbn zeta. cbn [fst snd]. rewrite post_launch_action_eq. reflexivity.
Qed.

Lemma successes_fresh reqs : Forall fresh reqs -> successes reqs = 0%nat.
Proof.
  unfold successes. induction 1 as [|r rest [_ Hs] _ IH]; [reflexivity|].
  rewrite filter_cons. destruct (decide _) as [Heq|]; [|done].
  rewrite Hs in Heq. discriminate.
Qed.

Lemma filter_all_Success reqs :
  Forall (fun r => nr_status r = Success) reqs ->
  filter (fun r => nr_status r = Success) reqs = reqs.
Proof.
  induction 1 as [|r rest Hs _ IH]; [reflexivity|].
  rewrite filter_cons. destruct (decide _); [|done]. by rewrite IH.
Qed.

Lemma successes_all reqs :
  Forall (fun r => nr_status r = Success) reqs -> successes reqs = length reqs.
Proof.
  unfold successes. induction 1 as [|r rest Hs _ IH]; [reflexivity|].
  rewrite filter_cons. destruct (decide _); [|done]. cbn. by rewrite IH.
Qed.

(** Every request the batch call leaves has been reconciled, and the
    calls of its reconciliation are in the trace. *)
Lemma addActiveNodes_reconciled w cfg count extra_args r :
  r ∈ (addActiveNodes w cfg count extra_args).2.1 ->
  exists r1,
    r = reconciled r1 /\
    forall e, e ∈ reconcile_events w r1 ->
              e ∈ (addActiveNodes w cfg count extra_args).2.2.
Proof.
  destruct (addActiveNodes_cases w cfg count extra_args)
    as [[Hnil _]|(reqs0 & t0 & reqs1 & t1 & o1 & _ & _ & ->)].
  { rewrite Hnil. intros Hr. by apply elem_of_nil in Hr. }
  cbn [fst snd]. intros Hr.
  apply list_elem_of_fmap in Hr as (r1 & -> & Hr1).
  exists r1. split; [done|].
  intros e He. rewrite !elem_of_app. right; left.
  apply list_elem_of_bind. by exists r1.
Qed.

Lemma reconcile_events_commit w r :
  nr_status r = Success ->
  ProvisionedEvent (n_name (nr_node r)) ∈ reconcile_events w r /\
  n_state (nr_node (reconciled r)) = NODE_STATE_PROVISIONED.
Proof.
  intros Hs. unfold reconcile_events, reconciled.
  rewrite !bool_decide_eq_false_2 by (intros Hne; by apply Hne).
  split; [in_list | reflexivity].
Qed.

Lemma reconcile_events_rollback w r :
  nr_status r <> Success ->
  let name := n_name (nr_node r) in
  ClearSessionNode name ∈ reconcile_events w r /\
  DbDelete name ∈ reconcile_events w r /\
  (forall n d,
      removed (discoverStorageChanges w name true) !! n = Some d ->
      adapter d = "default" ->
      SanDeleteDrive name n ∈ reconcile_events w r).
Proof.
  intros Hs name. unfold reconcile_events. fold name.
  rewrite bool_decide_eq_true_2 by done. split_and!.
  - in_list.
  - rewrite !elem_of_app. right; right. in_list.
  - intros n d Hl Had. rewrite !elem_of_app. right; left.
    apply list_elem_of_omap. exists (n, d). split.
    + by apply elem_of_map_to_list.
    + by rewrite bool_decide_eq_false_2 by (intros Hne; by apply Hne).
Qed.

(** C1, as the code has it: reconciliation marks the node of every
    request in [Success] state as provisioned and deletes the record of
    every other; when some but not all requests of a batch end in
    [Success] state, it logs the partial-success warning and the call
    raises the exception of the wait phase instead of returning the
    committed nodes; the call returns only when every request ended in
    [Success] state. *)
Theorem C1_partial_success_raises w cfg count extra_args :
  let run := addActiveNodes w cfg count extra_args in
  let reqs := run.2.1 in
  ((0 < successes reqs < length reqs)%nat ->
   LogWarning (partial_warning (successes reqs) (length reqs)) ∈ run.2.2 /\
   (run.1 = Raise (CommandFailed "Fatal error launching one or more instances")
    \/ run.1 = Raise (KeyError "message"))) /\
  (forall nodes,
      run.1 = Ok nodes ->
      successes reqs = length reqs /\ nodes = nr_node <$> reqs) /\
  (forall r,
      r ∈ reqs ->
      if bool_decide (nr_status r = Success) then
        ProvisionedEvent (n_name (nr_node r)) ∈ run.2.2 /\
        n_state (nr_node r) = NODE_STATE_PROVISIONED
      else DbDelete (n_name (nr_node r)) ∈ run.2.2).
Proof.
  intros run reqs. subst run reqs.
  refine ((fun H => conj (proj1 (proj1 H))
                        (conj (proj2 (proj1 H)) (proj2 H))) _).
  split; [|
    intros r Hr;
    destruct (addActiveNodes_reconciled w cfg count extra_args r Hr)
      as (r1 & -> & Hev);
    rewrite reconciled_status, reconciled_name;
    case_bool_decide as Hs;
    [ destruct (reconcile_events_commit w r1 Hs) as [Hp Hst];
      split; [by apply Hev | done]
    | destruct (reconcile_events_rollback w r1 Hs) as (_ & Hd & _);
      by apply Hev ] ].
  destruct (addActiveNodes_cases w cfg count extra_args)
    as [[Hnil Hraise]|(reqs0 & t0 & reqs1 & t1 & o1 & Hfresh & Hl & ->)].
  { rewrite Hnil. cbn [fst snd]. split.
    - cbn. lia.
    - intros nodes Hn. rewrite Hn in Hraise. discriminate. }
  cbn [fst snd]. rewrite successes_reconciled, length_fmap.
  pose proof (launch_instances_spec w cfg extra_args reqs0 t0 Hfresh) as Hspec.
  cbn zeta in Hspec. rewrite Hl in Hspec. cbn [fst snd] in Hspec.
  destruct Hspec as [[Hf Hno]|[Hw [[-> Hall]|[Hex Hr]]]].
  - rewrite (successes_fresh _ Hf). split; [lia|].
    intros nodes. destruct o1; [discriminate Hno | discriminate].
  - rewrite (successes_all _ Hall). split; [lia|].
    intros nodes [= <-]. split; [done|].
    rewrite returned_eq.
    rewrite filter_all_Success; [done|].
    apply Forall_forall. intros r Hr.
    apply list_elem_of_fmap in Hr as (r1 & -> & Hr1).
    rewrite reconciled_status.
    rewrite Forall_forall in Hall. by apply Hall.
  - split.
    + intros [Hpos Hlt]. split.
      * rewrite !bool_decide_eq_true_2 by lia. cbn [andb].
        rewrite !elem_of_app. right; right; right. by apply list_elem_of_singleton.
      * by destruct Hr as [-> | ->]; [left | right].
    + intros nodes. by destruct Hr as [-> | ->].
Qed.

Lemma C1_partial_success_raises_witness :
  let run := addActiveNodes Sample.one_failed_operation Sample.cfg 3 None in
  (0 < successes run.2.1 < length run.2.1)%nat /\
  LogWarning (partial_warning (successes run.2.1) (length run.2.1)) ∈ run.2.2 /\
  (run.1 = Raise (CommandFailed "Fatal error launching one or more instances")
   \/ run.1 = Raise (KeyError "message")).
Proof.
  intros run.
  assert (Hsome : (0 < successes run.2.1 < length run.2.1)%nat)
    by (vm_compute; lia).
  split; [exact Hsome|].
  exact (proj1 (C1_partial_success_raises Sample.one_failed_operation
                  Sample.cfg 3 None) Hsome).
Defined.

(** C1, as stated, fails: in a batch of 3 whose creates all succeed and
    where one polled operation carries an ['error'] field, two nodes are
    provisioned, one is rolled back and the warning is logged, but the
    call raises [CommandFailed] and returns no node. *)
Lemma C1_batch_of_three_raises :
  let run := addActiveNodes Sample.one_failed_operation Sample.cfg 3 None in
  run.1 = Raise (CommandFailed "Fatal error launching one or more instances") /\
  nr_status <$> run.2.1 = [Success; Error; Success] /\
  n_state <$> (nr_node <$> run.2.1) =
    [NODE_STATE_PROVISIONED; NODE_STATE_LAUNCHING; NODE_STATE_PROVISIONED] /\
  filter (fun e => deletes_record "compute-1.cloud.example.com" e = true)
    run.2.2 = [DbDelete "compute-1.cloud.example.com"] /\
  last run.2.2 =
    Some (LogWarning "only 2 of 3 requested instances launched successfully").
Proof. vm_compute. repeat split; reflexivity. Qed.

(** ** Rollback *)





























(** ** Status histories *)

(** C7, as the code has it: the status of a request starts as
    ['pending'], submission does not change it, and the wait phase moves
    it to ['success'] or ['error'] and from ['success'] to ['error'] when
    the post-launch hook raises; ['error'] is never left and ['pending']
    never entered again. The sequence of values assigned is one of the
    six below, and the status is the last of them. *)
Theorem C7_status_histories w cfg count extra_args :
  Forall
    (fun r =>
       nr_history r ∈
         [ [Pending];
           [Pending; Error]; [Pending; Error; Error];
           [Pending; Success];
           [Pending; Success; Error]; [Pending; Success; Error; Error] ] /\
       last (nr_history r) = Some (nr_status r))
    (addActiveNodes w cfg count extra_args).2.1.
Proof.
  destruct (addActiveNodes_cases w cfg count extra_args)
    as [[-> _]|(reqs0 & t0 & reqs1 & t1 & o1 & Hfresh & Hl & ->)];
    [constructor|].
  cbn [fst snd]. apply Forall_fmap. 
  pose proof (launch_instances_spec w cfg extra_args reqs0 t0 Hfresh) as Hspec.
  cbn zeta in Hspec. rewrite Hl in Hspec. cbn [fst snd] in Hspec.
  assert (Hall : Forall (fun r => fresh r \/ waited r) reqs1).
  { destruct Hspec as [[H _]|[H _]];
      (eapply Forall_impl; [exact H|]); cbn; auto. }
  eapply Forall_impl; [exact Hall|]. cbn.
  intros r Hr. rewrite reconciled_history, reconciled_status.
  destruct Hr as [[-> ->]|(suffix & Hin & -> & Hlast)].
  - split; [in_list | done].
  - unfold wait_suffixes in Hin.
    repeat (apply elem_of_cons in Hin as [->|Hin];
            [split; [in_list | exact Hlast]|]).
    by apply elem_of_nil in Hin.
Qed.

(** C7, as stated, fails: a request whose instance launched and whose
    cluster registration fails goes from ['success'] to ['error']; and
    no status stands for a submitted request, which stays ['pending']. *)
Lemma C7_success_then_error :
  (nr_history <$>
     (addActiveNodes Sample.registration_fails Sample.cfg 1 None).2.1) =
    [[Pending; Success; Error]] /\
  (nr_status <$>
     (for_each_loop
        (launch_one Sample.healthy Sample.cfg
           {| image_url := ""; network_interfaces := [];
              preemptible := false; accelerators := None |})
        [Sample.request "compute-0.cloud.example.com"] []).2.1) = [Pending].
Proof. vm_compute. split; reflexivity. Qed.

(** ** The post-launch hook *)

(** After a poll that found the instance launched, the request ends as
    the hook leaves it when the hook returns, and ends in [Error] state
    when the hook raises. *)
Lemma wait_for_instance_hook w cfg s s1 :
  gevent_wait_for_instance w cfg s = (Ok true, s1) ->
  ((instance_post_launch w s1).1 = Ok tt ->
   wait_for_instance w cfg s = (Ok tt, (instance_post_launch w s1).2)) /\
  (is_Ok (instance_post_launch w s1).1 = false ->
   nr_status (req (wait_for_instance w cfg s).2) = Error /\
   nr_node (req (wait_for_instance w cfg s).2) =
     nr_node (req (instance_post_launch w s1).2)).
Proof.
  intros Hg.
  destruct (wait_for_instance w cfg s) as [o sf] eqn:Hw. revert Hw.
  unfold wait_for_instance, try_except.
  unfold bind at 1. rewrite Hg. cbv [bind gets]. cbn [fst snd].
  destruct (instance_post_launch w s1) as [[[]|e] s2]; cbn [fst snd].
  - intros [= <- <-]. split; [done | discriminate].
  - cbv [on_trace emit modify]. cbn [fst snd req tr].
    match goal with
    | |- context [mark_node_request_failed ?m ?s0] =>
        destruct (mark_node_request_failed_failed_node m s0)
          as (s3 & -> & Hs3 & Hn3)
    end.
    cbn [req tr] in Hs3, Hn3.
    destruct (deleteInstance w (nr_node (req s3)) (tr s3)) as [[[]|e'] t4].
    + intros [= <- <-]. split; [discriminate|]. intros _.
      cbn [req]. by rewrite Hs3, Hn3.
    + match goal with
      | |- context [mark_node_request_failed ?m ?s0] =>
          destruct (mark_node_request_failed_failed_node m s0)
            as (s5 & -> & Hs5 & Hn5)
      end.
      cbn [req tr] in Hs5, Hn5.
      intros [= <- <-]. split; [discriminate|]. intros _.
      by rewrite Hs5, Hn5, Hn3.
Qed.

(** C8, as the code has it: once the instance is running and its
    description is fetched, the hook takes the address of the first
    network interface, adds it to the node and registers the node with
    it; an instance without any network interface is logged and leaves
    the request in [Success] state, with no address on the node; a
    description without the interface list, or whose first interface has
    no address, raises and puts the request in [Error] state. *)
Theorem C8_internal_address w cfg s s1 name vm :
  gevent_wait_for_instance w cfg s = (Ok true, s1) ->
  nr_instance_name (req s1) = Some name ->
  instances_get w name = Ok vm ->
  let hook := instance_post_launch w s1 in
  let final := (wait_for_instance w cfg s).2 in
  let node_name := n_name (nr_node (req s1)) in
  match networkInterfaces vm with
  | Some (first :: _) =>
      match networkIP first with
      | Some ip =>
          n_nics (nr_node (req hook.2)) =
            n_nics (nr_node (req s1)) ++ [ {| nic_ip := ip; nic_boot := true |} ] /\
          tr hook.2 = tr s1 ++ [InstancesGet name; PreAddHost node_name ip] /\
          hook.1 = pre_add_host w node_name ip
      | None =>
          hook.1 = Raise (KeyError "networkIP") /\ nr_status (req final) = Error
      end
  | Some [] =>
      hook.1 = Ok tt /\
      nr_status (req final) = Success /\
      n_nics (nr_node (req final)) = n_nics (nr_node (req s1)) /\
      forall ip, PreAddHost node_name ip ∉ drop (length (tr s1)) (tr final)
  | None =>
      hook.1 = Raise (KeyError "networkInterfaces") /\
      nr_status (req final) = Error
  end.
Proof.
  intros Hg Hname Hvm hook final node_name.
  destruct (wait_for_instance_hook w cfg s s1 Hg) as [HOk HRaise].
  pose proof (gevent_wait_for_instance_spec w cfg s) as Hspec.
  rewrite Hg in Hspec. cbn [fst snd] in Hspec. destruct Hspec as [_ Hst].
  assert (Hhook : hook =
    match get_instance_internal_ip vm with
    | Ok (Some ip) =>
        (pre_add_host w node_name ip,
         {| req := set_node (node_append_nic {| nic_ip := ip; nic_boot := true |})
                     (set_node (node_set_state NODE_STATE_INSTALLED) (req s1));
            tr := tr s1 ++ [InstancesGet name; PreAddHost node_name ip] |})
    | Ok None =>
        (Ok tt,
         {| req := set_node (node_set_state NODE_STATE_INSTALLED) (req s1);
            tr := tr s1 ++ [InstancesGet name;
                            LogError ("VM [" +:+ name
                              +:+ "] does not have an IP address (???)")] |})
    | Raise e =>
        (Raise e,
         {| req := set_node (node_set_state NODE_STATE_INSTALLED) (req s1);
            tr := tr s1 ++ [InstancesGet name] |})
    end).
  { subst hook node_name. unfold instance_post_launch.
    cbv [bind gets update_req modify on_trace lift_res ret raise emit gce_get_vm].
    rewrite Hname, Hvm. cbn [fst snd req tr].
    destruct (get_instance_internal_ip vm) as [[ip|]|e];
      cbn [fst snd req tr]; rewrite <- ?app_assoc; cbn [app]; reflexivity. }
  fold hook in HOk, HRaise. fold final in HOk, HRaise. clearbody hook.
  unfold get_instance_internal_ip in Hhook.
  destruct (networkInterfaces vm) as [[|first rest]|].
  - subst hook. cbn [fst snd] in *. specialize (HOk eq_refl).
    subst final. rewrite HOk. cbn [fst snd req tr nr_status nr_node set_node
      n_nics node_set_state].
    split_and!; [done | done | done|].
    intros ip. rewrite drop_app_length.
    intros Hin. by repeat (apply elem_of_cons in Hin as [?|Hin]; [done|]);
      apply elem_of_nil in Hin.
  - destruct (networkIP first) as [ip|]; subst hook; cbn [fst snd] in *.
    + cbn [req tr nr_node set_node n_nics node_append_nic node_set_state].
      done.
    + split; [done|]. by apply HRaise.
  - subst hook. cbn [fst snd] in *. split; [done|]. by apply HRaise.
Qed.

Lemma C8_internal_address_witness :
  let s := {| req := Sample.submitted "compute-0.cloud.example.com"; tr := [] |} in
  nr_status (req (wait_for_instance Sample.no_address Sample.cfg s).2) = Success /\
  n_nics (nr_node (req (wait_for_instance Sample.no_address Sample.cfg s).2)) = [].
Proof.
  intros s.
  pose proof (C8_internal_address Sample.no_address Sample.cfg s
                (gevent_wait_for_instance Sample.no_address Sample.cfg s).2
                "compute-0" (Sample.vm [])) as H.
  cbn zeta in H. cbn [networkInterfaces Sample.vm fmap list_fmap] in H.
  destruct H as (_ & Hs & Hn & _).
  - vm_compute. reflexivity.
  - vm_compute. reflexivity.
  - reflexivity.
  - split; [exact Hs|]. rewrite Hn. vm_compute. reflexivity.
Defined.

(** C8, as stated, fails: an instance whose description has no network
    interface, hence no address, leaves its request in [Success] state,
    and its node is returned without an address. *)
Lemma C8_no_address_still_success :
  let run := addActiveNodes Sample.no_address Sample.cfg 1 None in
  res_bind (instances_get Sample.no_address "compute-0")
    (fun vm => Ok (networkInterfaces vm)) = Ok (Some []) /\
  nr_status <$> run.2.1 = [Success] /\
  res_bind run.1 (fun nodes => Ok ((fun n => (n_name n, n_nics n)) <$> nodes)) =
    Ok [("compute-0.cloud.example.com", [])].
Proof. vm_compute. repeat split; reflexivity. Qed.

(** * Further properties *)

(** ** Splitting strings *)

(** X1: [split_three_item_value] loses nothing: joining the network,
    the subnet and the flags it returns with [':'] gives the value back.
    A value with one colon has no flags, a value with two has all three
    parts and none of them contains a colon, and a value with three or
    more colons is taken whole as the network. *)
Theorem split_three_item_value_round_trip value :
  let '(net, subnet, flags) := split_three_item_value value in
  String.concat ":" (net :: option_list subnet ++ option_list flags) = value /\
  match Py.count ":" value with
  | 0%nat => subnet = None /\ flags = None
  | 1%nat =>
      exists s, subnet = Some s /\ flags = None /\
                Py.count ":" net = 0%nat /\ Py.count ":" s = 0%nat
  | 2%nat =>
      exists s f, subnet = Some s /\ flags = Some f /\
                  Py.count ":" net = 0%nat /\ Py.count ":" s = 0%nat /\
                  Py.count ":" f = 0%nat
  | _ => net = value /\ subnet = None /\ flags = None
  end.
Proof.
  unfold split_three_item_value.
  destruct (Py.count ":" value) as [|[|[|k]]] eqn:Hc; cbn [Nat.eqb].
  - by repeat split.
  - pose proof (splitn_concat ":" 1 value) as Hj.
    pose proof (splitn_length ":" 1 value) as Hl.
    pose proof (splitn_all_clean ":" 1 value ltac:(lia)) as Hcl.
    rewrite Hc in Hl.
    destruct (Py.splitn ":" 1 value) as [|t1 [|t2 [|]]]; try discriminate.
    apply Forall_cons in Hcl as [H1 Hcl]. apply Forall_cons in Hcl as [H2 _].
    split; [exact Hj|]. by exists t2.
  - pose proof (splitn_concat ":" 2 value) as Hj.
    pose proof (splitn_length ":" 2 value) as Hl.
    pose proof (splitn_all_clean ":" 2 value ltac:(lia)) as Hcl.
    rewrite Hc in Hl.
    destruct (Py.splitn ":" 2 value) as [|t1 [|t2 [|t3 [|]]]]; try discriminate.
    apply Forall_cons in Hcl as [H1 Hcl]. apply Forall_cons in Hcl as [H2 Hcl].
    apply Forall_cons in Hcl as [H3 _].
    split; [exact Hj|]. by exists t2, t3.
  - by repeat split.
Qed.

(** X2: [split_forward_slash_value] cuts at the first slash: the two
    parts joined with ['/'] give the value back and the first has no
    slash; a value without a slash comes back with the default in front. *)
Theorem split_forward_slash_value_round_trip value default :
  let '(a, b) := split_forward_slash_value value default in
  if Py.contains "/" value then
    a +:+ "/" +:+ b = value /\ Py.count "/" a = 0%nat
  else a = default /\ b = value.
Proof.
  unfold split_forward_slash_value.
  destruct (Py.contains "/" value) eqn:Hc; [|done].
  pose proof (splitn_concat "/" 1 value) as Hj.
  pose proof (splitn_length "/" 1 value) as Hl.
  pose proof (splitn_head_clean "/" 0 value) as Hh.
  unfold Py.contains in Hc. apply negb_true_iff, Nat.eqb_neq in Hc.
  destruct (Py.splitn "/" 1 value) as [|t1 [|t2 [|]]]; cbn [length] in Hl;
    try discriminate; try (exfalso; lia).
  split; [exact Hj | exact Hh].
Qed.

Lemma prefix_app s t : String.prefix s (s +:+ t) = true.
Proof.
  induction s as [|a s IH]; [by destruct t|].
  change (String a s +:+ t) with (String a (s +:+ t)).
  rewrite prefix_cons. by destruct (ascii_dec a a).
Qed.

Lemma prefix_refl s : String.prefix s s = true.
Proof.
  induction s as [|a s IH]; [reflexivity|].
  rewrite prefix_cons. by destruct (ascii_dec a a).
Qed.

(** X3: the instance name of a host name is its part before the first
    dot: it has no dot, the host name starts with it, it is the host name
    itself when that has no dot, and taking it twice changes nothing. *)
Theorem get_instance_name_from_host_name_spec hostname :
  let name := get_instance_name_from_host_name hostname in
  Py.count "." name = 0%nat /\
  Py.startswith name hostname = true /\
  (Py.count "." hostname = 0%nat -> name = hostname) /\
  get_instance_name_from_host_name name = name.
Proof.
  assert (Hnodot : forall h, Py.count "." h = 0%nat ->
                     get_instance_name_from_host_name h = h).
  { intros h Hh. unfold get_instance_name_from_host_name.
    pose proof (splitn_concat "." 1 h) as Hj.
    pose proof (splitn_length "." 1 h) as Hl. rewrite Hh in Hl.
    destruct (Py.splitn "." 1 h) as [|t1 [|]]; try discriminate.
    exact Hj. }
  assert (Hclean : Py.count "." (get_instance_name_from_host_name hostname)
                   = 0%nat).
  { unfold get_instance_name_from_host_name.
    pose proof (splitn_head_clean "." 0 hostname) as Hh.
    pose proof (splitn_not_nil "." 1 hostname) as Hne.
    by destruct (Py.splitn "." 1 hostname). }
  cbn zeta. split_and!; [exact Hclean | | exact (Hnodot hostname) | by apply Hnodot].
  unfold get_instance_name_from_host_name, Py.startswith.
  pose proof (splitn_concat "." 1 hostname) as Hj.
  pose proof (splitn_not_nil "." 1 hostname) as Hne.
  destruct (Py.splitn "." 1 hostname) as [|t1 [|t2 l]]; [done| |].
  - cbn in Hj. subst t1. apply prefix_refl.
  - rewrite concat_cons_cons in Hj. rewrite <- Hj. apply prefix_app.
Qed.

(** ** Flags, accelerators and interfaces *)

Lemma last_cons_2 {A} (x : A) l :
  last (x :: l) = match last l with Some y => Some y | None => Some x end.
Proof.
  destruct l as [|y l]; [reflexivity|].
  change (last (x :: y :: l)) with (last (y :: l)).
  destruct (last (y :: l)) eqn:H; [reflexivity|].
  by apply last_None in H.
Qed.

Lemma flags_loop_last_wins args : forall result flags,
  get_network_flags_loop args result = Ok flags ->
  flags !! "external" =
    match last (filter (fun tok => sets_external tok = true) args) with
    | Some tok => Some (is_ext_token tok)
    | None => result !! "external"
    end /\
  (forall key, key <> "external" -> key <> "primary" ->
               flags !! key = result !! key).
Proof.
  induction args as [|tok rest IH]; intros result flags.
  - intros [= <-]. by split.
  - rewrite flags_loop_cons, filter_cons.
    destruct (bool_decide (tok = "")) eqn:Hemp.
    { rewrite decide_False
        by (unfold sets_external; rewrite Hemp; discriminate).
      apply IH. }
    destruct (is_ext_token tok) eqn:He.
    { rewrite decide_True by (unfold sets_external; by rewrite Hemp, He).
      intros H. destruct (IH _ _ H) as [Hx Hd]. rewrite last_cons_2, Hx.
      split.
      - destruct (last _); [done|]. by rewrite lookup_insert_eq, He.
      - intros key H1 H2. rewrite (Hd key H1 H2). by rewrite lookup_insert_ne. }
    destruct (is_noext_token tok) eqn:Hn.
    { rewrite decide_True by (unfold sets_external; by rewrite Hemp, He, Hn).
      intros H. destruct (IH _ _ H) as [Hx Hd]. rewrite last_cons_2, Hx.
      split.
      - destruct (last _); [done|]. by rewrite lookup_insert_eq, He.
      - intros key H1 H2. rewrite (Hd key H1 H2). by rewrite lookup_insert_ne. }
    rewrite decide_False
      by (unfold sets_external; rewrite Hemp, He, Hn; discriminate).
    destruct (is_primary_token tok); [|discriminate]. intros H.
    destruct (IH _ _ H) as [Hx Hd]. rewrite Hx.
    rewrite lookup_insert_ne by done. split; [done|].
    intros key H1 H2. rewrite (Hd key H1 H2). by rewrite lookup_insert_ne.
Qed.

(** X4: among the flags of a network the last [ext] or [noext] one
    decides ['external'], and no key but ['external'] and ['primary'] is
    ever set; the only exception raised is [ConfigurationError]. *)
Theorem get_network_flags_last_wins network_args :
  match get_network_flags network_args with
  | Ok flags =>
      flags !! "external" =
        match network_args with
        | Some a =>
            is_ext_token <$>
              last (filter (fun tok => sets_external tok = true)
                      (Py.split ";" a))
        | None => None
        end /\
      (forall key, key <> "external" -> key <> "primary" ->
                   flags !! key = None)
  | Raise e => is_ConfigurationError e = true
  end.
Proof.
  destruct (get_network_flags network_args) as [flags|e] eqn:Hf;
    [|by apply get_network_flags_raise in Hf].
  unfold get_network_flags in Hf. destruct network_args as [a|].
  - destruct (flags_loop_last_wins _ _ _ Hf) as [Hx Hd]. split.
    + rewrite Hx, lookup_empty. by destruct (last _).
    + intros key H1 H2. by rewrite (Hd key H1 H2), lookup_empty.
  - injection Hf as <-. split; [by rewrite lookup_empty|].
    intros key _ _. by rewrite lookup_empty.
Qed.

Lemma _parse_accelerator_loop_spec items : forall accel,
  match _parse_accelerator_loop items accel with
  | Ok l =>
      exists news,
        l = accel ++ news /\
        Forall2
          (fun item acc =>
             exists count,
               accelerator_parts item = [acceleratorType acc; count] /\
               Py.int count = Some (acceleratorCount acc))
          items news
  | Raise e =>
      e = ConfigurationError "Invalid Accelerator Configuration" \/
      exists msg, e = ValueError msg
  end.
Proof.
  induction items as [|item rest IH]; intros accel.
  - cbn. exists []. by rewrite app_nil_r.
  - cbn [_parse_accelerator_loop]. fold (accelerator_parts item).
    destruct (accelerator_parts item) as [|a [|c [|]]] eqn:Hp; auto.
    destruct (Py.int c) as [n|] eqn:Hi; [|right; eauto].
    specialize (IH (accel ++ [{| acceleratorType := a; acceleratorCount := n |}])).
    destruct (_parse_accelerator_loop rest _) as [l|e]; [|done].
    destruct IH as (news & -> & Hnews).
    eexists (_ :: news). split; [by rewrite <- app_assoc|].
    constructor; [|done]. by exists c.
Qed.

Lemma split_not_nil sep s : Py.split sep s <> [].
Proof.
  induction s as [|c s IH]; [done|]. cbn [Py.split].
  destruct (Py.ascii_eqb c sep); [done|]. by destruct (Py.split sep s).
Qed.

(** X5: when [_parse_accelerator] returns, it returns one accelerator
    per comma-separated item, in order, each with the type and the
    integer count of its item, so never an empty list; it raises nothing
    but [ConfigurationError] and the [ValueError] of [int()]. *)
Theorem _parse_accelerator_spec accelerator_string :
  match _parse_accelerator accelerator_string with
  | Ok l =>
      l <> [] /\
      Forall2
        (fun item acc =>
           exists count,
             accelerator_parts item = [acceleratorType acc; count] /\
             Py.int count = Some (acceleratorCount acc))
        (Py.split "," accelerator_string) l
  | Raise e =>
      e = ConfigurationError "Invalid Accelerator Configuration" \/
      exists msg, e = ValueError msg
  end.
Proof.
  unfold _parse_accelerator.
  pose proof (_parse_accelerator_loop_spec (Py.split "," accelerator_string) [])
    as H.
  destruct (_parse_accelerator_loop _ _) as [l|e]; [|done].
  destruct H as (news & -> & Hnews). cbn [app]. split; [|done].
  pose proof (split_not_nil "," accelerator_string) as Hne.
  intros ->. apply Forall2_nil_inv_r in Hnews. done.
Qed.

(** X6: resolution builds one interface per network entry, in the order
    of the entries; the network of each is in the project named before
    the slash of the entry, the configured project otherwise, and the
    interface has a subnetwork exactly when the entry names one. *)
Theorem get_network_interface_definitions_shape project region networks nis :
  get_network_interface_definitions project region networks = Ok nis ->
  Forall2
    (fun net ni =>
       let '(p, name) := split_forward_slash_value net.1.1 project in
       network ni = GCE_URL +:+ p +:+ "/global/networks/" +:+ name /\
       (subnetwork ni = None <-> Py.truthy net.1.2 = false))
    networks nis.
Proof.
  unfold get_network_interface_definitions.
  destruct (network_interface_loop _ _ _ _ _) as [nis0|e] eqn:Hl; [|discriminate].
  cbn [res_bind]. intros Hen.
  apply network_interface_loop_Ok in Hl as (_ & _ & news & -> & Hnews).
  cbn [app] in Hen.
  assert (Hbase : Forall2
            (fun net ni =>
               let '(p, name) := split_forward_slash_value net.1.1 project in
               network ni = GCE_URL +:+ p +:+ "/global/networks/" +:+ name /\
               (subnetwork ni = None <-> Py.truthy net.1.2 = false))
            networks news).
  { eapply Forall2_impl; [exact Hnews|].
    intros [[nd sd] args] ni (ni0 & flags & Hg & _ & _ & ->).
    unfold get_network_interface in Hg. cbn [fst snd].
    destruct (split_forward_slash_value nd project) as [p name].
    destruct (get_network_flags args); [|discriminate].
    cbn [res_bind] in Hg. injection Hg as <- _.
    destruct (is_network_flag_set _ _ _);
      cbn [network subnetwork set_external_network_access];
      (split; [reflexivity|]);
      (destruct (Py.truthy sd);
       [destruct (split_forward_slash_value _ _); split; discriminate | done]). }
  unfold enable_external_network_access in Hen.
  destruct networks as [|[[nd sd] args] [|]]; try (by injection Hen as <-).
  destruct news as [|ni0 others]; [by injection Hen as <-|].
  assert (nis = set_external_network_access ni0 :: others \/ nis = ni0 :: others)
    as [-> | ->].
  { case_bool_decide; [injection Hen as <-; auto|].
    destruct (get_network_flags args); [|discriminate]. cbn [res_bind] in Hen.
    destruct (is_network_flag_set _ _ _); injection Hen as <-; auto. }
  - apply Forall2_cons in Hbase as [H1 H2]. by constructor.
  - done.
Qed.

Lemma get_network_interface_definitions_shape_witness :
  Forall2
    (fun net ni =>
       let '(p, name) := split_forward_slash_value net.1.1 "proj" in
       network ni = GCE_URL +:+ p +:+ "/global/networks/" +:+ name /\
       (subnetwork ni = None <-> Py.truthy net.1.2 = false))
    [split_three_item_value "other/net-a:sub-a:ext"]
    [ {| network :=
           "https://www.googleapis.com/compute/v1/projects/other/global/networks/net-a";
         subnetwork :=
           Some "https://www.googleapis.com/compute/v1/projects/other/regions/us-east1/subnetworks/sub-a";
         accessConfigs := Some EXTERNAL_NETWORK_ACCESS_CONFIG |} ].
Proof.
  apply (get_network_interface_definitions_shape "proj" "us-east1").
  vm_compute. reflexivity.
Defined.

(** ** The pollers *)

Lemma _blocking_call_loop_done polling_interval ending pending response t :
  op_status response = "DONE" ->
  _blocking_call_loop polling_interval pending ending response t =
  (Ok (Some response), t).
Proof.
  intros Hd. destruct pending; cbn [_blocking_call_loop];
    by rewrite bool_decide_eq_true_2.
Qed.

Lemma _blocking_call_loop_terminal polling_interval ending pending :
  forall response t,
  match (_blocking_call_loop polling_interval pending ending response t).1 with
  | Ok (Some r) => op_status r = "DONE"
  | _ => True
  end.
Proof.
  induction pending as [|r more IH]; intros response t;
    cbn [_blocking_call_loop]; case_bool_decide as Hd; cbn; try done.
  - by destruct ending.
  - cbv [bind emit modify ret]. case_bool_decide; apply IH.
Qed.

Lemma _gevent_blocking_call_loop_terminal w key polling_interval ending pending :
  forall response attempt t,
  match (_gevent_blocking_call_loop w key polling_interval pending ending
           response attempt t).1 with
  | Ok (Some r) => op_status r = "DONE"
  | _ => True
  end.
Proof.
  induction pending as [|r more IH]; intros response attempt t;
    cbn [_gevent_blocking_call_loop]; case_bool_decide as Hd; cbn; try done.
  - by destruct ending.
  - cbv [bind emit modify ret]. case_bool_decide; [apply IH|].
    destruct (gevent_sleep _ _ _ _ _) as [[[]|e] t1]; [apply IH | done].
Qed.

(** X7: an operation a poller returns is done, whichever poller it is;
    polling it again asks the backend nothing and returns it as it is. *)
Theorem pollers_return_terminal w project_id response polling_interval t :
  match (_blocking_call w project_id (Some response) polling_interval t).1 with
  | Ok (Some r) =>
      op_status r = "DONE" /\
      forall t', _blocking_call w project_id (Some r) polling_interval t' =
                 (Ok (Some r), t')
  | _ => True
  end /\
  match (_gevent_blocking_call w project_id response polling_interval t).1 with
  | Ok (Some r) =>
      op_status r = "DONE" /\
      forall t', _gevent_blocking_call w project_id r polling_interval t' =
                 (Ok (Some r), t')
  | _ => True
  end.
Proof.
  split.
  - unfold _blocking_call.
    pose proof (_blocking_call_loop_terminal polling_interval
                  (ending (operations_get w (op_name response)))
                  (answers (operations_get w (op_name response))) response t)
      as H.
    destruct (_blocking_call_loop _ _ _ _ _) as [[[r|]|e] t1]; try done.
    cbn [fst] in *. split; [done|]. intros t'.
    by apply _blocking_call_loop_done.
  - unfold _gevent_blocking_call.
    pose proof (_gevent_blocking_call_loop_terminal w (op_name response)
                  polling_interval
                  (ending (operations_get w (op_name response)))
                  (answers (operations_get w (op_name response))) response
                  0%nat t) as H.
    destruct (_gevent_blocking_call_loop _ _ _ _ _ _ _) as [[[r|]|e] t1];
      try done.
    cbn [fst] in *. split; [done|]. intros t'.
    by apply _gevent_blocking_call_loop_done.
Qed.

Lemma last_cons_cons {A} (x y : A) l : last (x :: y :: l) = last (y :: l).
Proof. reflexivity. Qed.

Lemma _blocking_call_loop_paced polling_interval ending pending :
  forall response t,
  exists evs,
    (_blocking_call_loop polling_interval pending ending response t).2 =
      t ++ evs /\
    well_paced false evs = true /\
    from_option is_sleep false (last evs) = false /\
    Forall (fun e => is_sleep e = true ->
                     e = Sleep (inject_Z polling_interval)) evs /\
    (op_status response <> "DONE" ->
     exists evs', evs = operation_get_call response :: evs').
Proof.
  induction pending as [|r more IH]; intros response t;
    cbn [_blocking_call_loop]; case_bool_decide as Hd.
  - exists []. cbn. by rewrite app_nil_r.
  - exists [operation_get_call response].
    destruct ending; cbn; split_and!; try done; try by repeat constructor.
    all: by eexists.
  - exists []. cbn. by rewrite app_nil_r.
  - cbv [bind emit modify ret]. case_bool_decide as Hr.
    + rewrite _blocking_call_loop_done by done.
      exists [operation_get_call response].
      cbn; split_and!; try done; try by repeat constructor.
      by eexists.
    + destruct (IH r ((t ++ [operation_get_call response])
                        ++ [Sleep (inject_Z polling_interval)]))
        as (evs & -> & Hp & Hl & Hs & Hne).
      destruct (Hne Hr) as [evs' ->].
      exists (operation_get_call response
                :: Sleep (inject_Z polling_interval)
                :: operation_get_call r :: evs').
      rewrite <- !app_assoc. split_and!; [done | exact Hp | | |].
      * by rewrite !last_cons_cons in *.
      * constructor; [done|]. constructor; [done|]. exact Hs.
      * by eexists.
Qed.

Lemma gevent_sleep_cases w key polling_interval attempt t :
  (exists e, gevent_sleep w key polling_interval attempt t = (Raise e, t)) \/
  (exists q, gevent_sleep w key polling_interval attempt t =
             (Ok tt, t ++ [Sleep q])).
Proof.
  unfold gevent_sleep. destruct (0 <? attempt)%nat.
  - cbv zeta. destruct (_ <? 0).
    + left. by eexists.
    + right. by eexists.
  - right. by eexists.
Qed.

Lemma _gevent_blocking_call_loop_paced w key polling_interval ending pending :
  forall response attempt t,
  exists evs,
    (_gevent_blocking_call_loop w key polling_interval pending ending
       response attempt t).2 = t ++ evs /\
    well_paced false evs = true /\
    from_option is_sleep false (last evs) = false /\
    (op_status response <> "DONE" ->
     exists evs', evs = operation_get_call response :: evs').
Proof.
  induction pending as [|r more IH]; intros response attempt t;
    cbn [_gevent_blocking_call_loop]; case_bool_decide as Hd.
  - exists []. cbn. by rewrite app_nil_r.
  - exists [operation_get_call response].
    destruct ending; cbn; split_and!; try done; by eexists.
  - exists []. cbn. by rewrite app_nil_r.
  - cbv [bind emit modify ret]. case_bool_decide as Hr.
    + rewrite _gevent_blocking_call_loop_done by done.
      exists [operation_get_call response].
      cbn; split_and!; try done. by eexists.
    + destruct (gevent_sleep_cases w key polling_interval attempt
                  (t ++ [operation_get_call response]))
        as [[e ->]|[q ->]].
      * exists [operation_get_call response].
        cbn; split_and!; try done. by eexists.
      * destruct (IH r (S attempt)
                    ((t ++ [operation_get_call response]) ++ [Sleep q]))
          as (evs & -> & Hp & Hl & Hne).
        destruct (Hne Hr) as [evs' ->].
        exists (operation_get_call response :: Sleep q
                  :: operation_get_call r :: evs').
        rewrite <- !app_assoc. split_and!; [done | exact Hp | |].
        -- by rewrite !last_cons_cons in *.
        -- by eexists.
Qed.

(** X8: the calls of a poller are polls and sleeps in turn: the run
    starts with a poll (if it asks anything), a sleep comes only after a
    poll and is followed by a poll, and two polls are never made without
    a sleep between them. The blocking poller sleeps the polling interval
    each time. *)
Theorem pollers_paced w project_id response polling_interval t :
  (exists evs,
     (_blocking_call w project_id (Some response) polling_interval t).2 =
       t ++ evs /\
     well_paced false evs = true /\
     from_option is_sleep false (last evs) = false /\
     Forall (fun e => is_sleep e = true ->
                      e = Sleep (inject_Z polling_interval)) evs) /\
  (exists evs,
     (_gevent_blocking_call w project_id response polling_interval t).2 =
       t ++ evs /\
     well_paced false evs = true /\
     from_option is_sleep false (last evs) = false).
Proof.
  split.
  - unfold _blocking_call.
    destruct (_blocking_call_loop_paced polling_interval
                (ending (operations_get w (op_name response)))
                (answers (operations_get w (op_name response))) response t)
      as (evs & H1 & H2 & H3 & H4 & _).
    by exists evs.
  - unfold _gevent_blocking_call.
    destruct (_gevent_blocking_call_loop_paced w (op_name response)
                polling_interval
                (ending (operations_get w (op_name response)))
                (answers (operations_get w (op_name response))) response
                0%nat t)
      as (evs & H1 & H2 & H3 & _).
    by exists evs.
Qed.

(** ** Deleting and fetching an instance *)

(** X9: deleting the instance of a node never lets an HTTP error of the
    backend through: a 404 is logged as a warning and the call returns,
    any other status becomes [CommandFailed]. A node without an instance
    record fails before the backend is asked; otherwise exactly one
    delete call is made, for the instance named after the host. *)
Theorem deleteInstance_outcome w n t :
  let instance_name := get_instance_name_from_host_name (n_name n) in
  let run := deleteInstance w n t in
  (forall status, run.1 <> Raise (HttpError status)) /\
  (n_instance n = None -> exists msg, run = (Raise (AttributeError msg), t)) /\
  (n_instance n <> None ->
   exists log,
     run.2 = t ++ InstancesDelete instance_name :: log /\
     Forall (fun e => is_cloud_call e = false) log) /\
  (is_Ok run.1 = true <->
   n_instance n <> None /\
   (is_Ok (instances_delete w instance_name) = true \/
    instances_delete w instance_name = Raise (HttpError 404))) /\
  (forall status,
     n_instance n <> None -> status <> 404 ->
     instances_delete w instance_name = Raise (HttpError status) ->
     exists msg, run.1 = Raise (CommandFailed msg)).
Proof.
  cbv zeta. unfold deleteInstance, get_project_and_zone_metadata.
  destruct (n_instance n) as [i|].
  - cbv [bind lift_res emit modify ret raise].
    destruct (instances_delete w _) as [o|e] eqn:Hdel.
    + cbn. split_and!; try done.
      * intros _. exists []. split; [done | constructor].
      * split; [intros _; split; [done | by left] | done].
    + destruct e; cbn;
        try (split_and!; try done;
             [ intros _; exists []; split; [done | constructor]
             | split; [done | by intros [_ [|]]] ]).
      case_bool_decide as H404; cbn.
      * subst status. split_and!; try done.
        -- intros _. eexists [_]. rewrite <- app_assoc. split; [done|].
           by repeat constructor.
        -- split; [intros _; split; [done | by right] | done].
        -- by intros status _ Hs [= <-].
      * split_and!; try done.
        -- intros _. exists []. split; [done | constructor].
        -- split; [done | intros [_ [|[= ?]]]; done].
        -- intros status' _ _ _. by eexists.
  - cbn. split_and!; try done.
    + intros _. by eexists.
    + split; [done | by intros []].
Qed.

(** X10: fetching an instance never raises an HTTP error: whatever the
    status, the caller gets [None]; the failure is logged unless the
    status is 404. One lookup is made in every case. *)
Theorem gce_get_vm_outcome w instance_name t :
  let run := gce_get_vm w instance_name t in
  (forall status, run.1 <> Raise (HttpError status)) /\
  (forall status,
     instances_get w instance_name = Raise (HttpError status) ->
     run.1 = Ok None /\
     (status = 404 -> run.2 = t ++ [InstancesGet instance_name]) /\
     (status <> 404 ->
      exists msg,
        run.2 = t ++ [InstancesGet instance_name; LogError msg])) /\
  (forall vm,
     instances_get w instance_name = Ok vm ->
     run = (Ok (Some vm), t ++ [InstancesGet instance_name])) /\
  (forall vm, run.1 = Ok (Some vm) -> instances_get w instance_name = Ok vm).
Proof.
  cbv zeta. unfold gce_get_vm. cbv [bind emit modify ret raise].
  destruct (instances_get w instance_name) as [vm|e].
  - cbn. split_and!; try done.
    + by intros vm' [= <-].
    + by intros vm' [= <-].
  - destruct e; cbn; try (split_and!; done).
    case_bool_decide as H404; cbn.
    + split_and!; try done.
      intros status' [= <-]. split_and!; try done.
      intros _. rewrite <- app_assoc. by eexists.
    + split_and!; try done.
      intros status' [= <-]. split_and!; try done.
Qed.

(** ** What the wait phase keeps and what it stores *)

Lemma same_request_refl r : same_request r r.
Proof. by repeat split. Qed.

Lemma same_request_trans r1 r2 r3 :
  same_request r1 r2 -> same_request r2 r3 -> same_request r1 r3.
Proof.
  intros (H1 & H2 & H3) (H4 & H5 & H6).
  repeat split; congruence.
Qed.

Lemma _gevent_blocking_call_terminal w project_id response polling_interval t :
  match (_gevent_blocking_call w project_id response polling_interval t).1 with
  | Ok (Some r) => op_status r = "DONE"
  | _ => True
  end.
Proof. apply _gevent_blocking_call_loop_terminal. Qed.

Lemma gevent_wait_for_instance_frame w cfg s :
  let run := gevent_wait_for_instance w cfg s in
  nr_node (req run.2) = nr_node (req s) /\
  same_request (req s) (req run.2) /\
  (run.1 = Ok true -> polled_without_error (req run.2)).
Proof.
  cbv zeta. unfold gevent_wait_for_instance.
  cbv [bind gets update_req modify on_trace ret raise].
  destruct (nr_response (req s)) as [response|]; cbn [fst snd req tr];
    [|split_and!; [done | apply same_request_refl | done]].
  pose proof (_gevent_blocking_call_terminal w (cfg_project cfg) response
                (cfg_sleeptime cfg) (tr s)) as Hdone.
  destruct (_gevent_blocking_call w _ response _ (tr s)) as [[[result|]|e] t1];
    cbn [fst snd req tr] in *;
    [| split_and!; [done | done | by left]
     | split_and!; [done | apply same_request_refl | done]].
  split_and!; [done | done |].
  destruct (op_error result) eqn:Herr; cbn; [done|].
  intros _. right. exists result. by rewrite Herr.
Qed.

Lemma instance_post_launch_frame w s :
  let run := instance_post_launch w s in
  same_request (req s) (req run.2) /\
  nr_result (req run.2) = nr_result (req s) /\
  n_instance (nr_node (req run.2)) = n_instance (nr_node (req s)).
Proof.
  cbv zeta. unfold instance_post_launch.
  cbv [bind gets update_req modify on_trace lift_res ret raise emit].
  destruct (nr_instance_name (req s)) as [name|]; cbn [fst snd req tr]; [|done].
  destruct (gce_get_vm w name (tr s)) as [[[vm|]|e] t1];
    cbn [fst snd req tr]; [|done|done].
  destruct (get_instance_internal_ip vm) as [[ip|]|e];
    cbn [fst snd req tr]; [|done|done].
  destruct (pre_add_host w (n_name (nr_node (req s))) ip);
    cbn [fst snd req tr]; done.
Qed.

Lemma mark_node_request_failed_frame message s :
  exists s',
    mark_node_request_failed message s = (Ok tt, s') /\
    nr_status (req s') = Error /\
    nr_node (req s') = nr_node (req s) /\
    same_request (req s) (req s') /\
    tr s' = tr s.
Proof.
  unfold mark_node_request_failed.
  cbv [bind update_req modify ret].
  destruct (Py.truthy (Some message)); eexists; (split; [reflexivity|]); done.
Qed.

(** Waiting keeps the identity of the request, and leaves it in
    [Success] state only with a poll result that has no error. *)
Lemma wait_for_instance_frame w cfg s :
  exists s',
    wait_for_instance w cfg s = (Ok tt, s') /\
    same_request (req s) (req s') /\
    (nr_status (req s') = Success \/ nr_status (req s') = Error) /\
    (nr_status (req s') = Success -> polled_without_error (req s')).
Proof.
  unfold wait_for_instance, try_except.
  unfold bind at 1.
  pose proof (gevent_wait_for_instance_frame w cfg s) as (_ & Hsame & Hdone).
  pose proof (gevent_wait_for_instance_spec w cfg s) as Hg.
  destruct (gevent_wait_for_instance w cfg s) as [[[|]|e] s1];
    cbn [fst snd] in *.
  - cbv [bind gets]. cbn [fst snd].
    pose proof (instance_post_launch_frame w s1) as (Hsame1 & Hres1 & _).
    pose proof (instance_post_launch_spec w s1) as [_ Hs1].
    destruct (instance_post_launch w s1) as [[[]|e] s2]; cbn [fst snd] in *.
    + exists s2. split_and!; [done | | |].
      * by eapply same_request_trans.
      * left. rewrite Hs1. apply Hg.
      * intros _. unfold polled_without_error. rewrite Hres1.
        exact (Hdone eq_refl).
    + cbv [on_trace emit modify]. cbn [fst snd req tr].
      match goal with
      | |- context [mark_node_request_failed ?m ?s0] =>
          destruct (mark_node_request_failed_frame m s0)
            as (s3 & -> & Hs3 & _ & Hsame3 & _)
      end.
      cbn [req tr] in *.
      destruct (deleteInstance w (nr_node (req s3)) (tr s3)) as [[[]|e'] t4];
        cbn [fst snd req tr].
      * eexists. split; [reflexivity|]. cbn [req]. rewrite Hs3.
        split_and!; [|by right|done].
        eapply same_request_trans; [|exact Hsame3].
        by eapply same_request_trans.
      * match goal with
        | |- context [mark_node_request_failed ?m ?s0] =>
            destruct (mark_node_request_failed_frame m s0)
              as (s5 & -> & Hs5 & _ & Hsame5 & _)
        end.
        cbn [fst snd req tr] in *. exists s5. rewrite Hs5.
        split_and!; [done| |by right|done].
        eapply same_request_trans; [|exact Hsame5].
        eapply same_request_trans; [|exact Hsame3].
        by eapply same_request_trans.
  - cbv [bind gets on_trace emit modify]. cbn [fst snd req tr].
    match goal with
    | |- context [mark_node_request_failed ?m ?s0] =>
        destruct (mark_node_request_failed_frame m s0)
          as (s3 & -> & Hs3 & _ & Hsame3 & _)
    end.
    cbn [fst snd req tr] in *. exists s3. rewrite Hs3.
    split_and!; [done| |by right|done].
    by eapply same_request_trans.
  - cbv [bind gets on_trace emit modify]. cbn [fst snd req tr].
    match goal with
    | |- context [mark_node_request_failed ?m ?s0] =>
        destruct (mark_node_request_failed_frame m s0)
          as (s3 & -> & Hs3 & _ & Hsame3 & _)
    end.
    cbn [fst snd req tr] in *. exists s3. rewrite Hs3.
    split_and!; [done| |by right|done].
    by eapply same_request_trans.
Qed.

(** X11: the wait phase is fault-isolated on a backend whose polls
    end, the backends of the model: whatever the polls, the instance
    lookups, the registrations and the delete calls answer or raise, the
    loop over the queue does not raise and reaches every request. A
    request that was submitted ends in success or error state, and in
    success state only with a poll result that has no error: an
    operation that is done and has no ['error'] key, or the empty
    answer, which the code takes for a success as well. A request that
    was not submitted is left as it was. *)
Theorem wait_phase_isolated w cfg reqs t :
  let run := for_each_request (wait_worker w cfg) (reqs, t) in
  run.1 = Ok tt /\
  Forall2
    (fun r r' =>
       same_request r r' /\
       (nr_response r = None -> r' = r) /\
       (nr_response r <> None ->
        (nr_status r' = Success \/ nr_status r' = Error) /\
        (nr_status r' = Success -> polled_without_error r')))
    reqs run.2.1.
Proof.
  cbv zeta. unfold for_each_request. split.
  - apply for_each_loop_total. intros s. apply wait_worker_spec.
  - apply for_each_loop_Ok_Forall2.
    + intros s _. unfold wait_worker. cbv [bind gets]. cbn [fst snd].
      destruct (nr_response (req s)) as [response|] eqn:Hresp.
      * destruct (wait_for_instance_frame w cfg s) as (s' & -> & H1 & H2 & H3).
        split_and!; [done | done | by intros _].
      * cbn. split_and!; [apply same_request_refl | done | done].
    + rewrite for_each_loop_total; [done|].
      intros s. apply wait_worker_spec.
Qed.

(** ** The launch loop *)

Lemma instance_inserts_app t1 t2 :
  instance_inserts (t1 ++ t2) = instance_inserts t1 ++ instance_inserts t2.
Proof. apply omap_app. Qed.

Lemma process_added_disk_loop_no_insert w cfg node_name instance_name items :
  forall persistent_disks t,
  exists evs,
    (process_added_disk_loop w cfg node_name instance_name items
       persistent_disks t).2 = t ++ evs /\
    instance_inserts evs = [].
Proof.
  induction items as [|[n d] rest IH]; intros pds t.
  - exists []. cbn. by rewrite app_nil_r.
  - cbn [process_added_disk_loop].
    case_bool_decide; [apply IH|].
    unfold bind at 1.
    destruct instance_name as [name|]; cbn [ret raise];
      [|exists []; cbn; by rewrite app_nil_r].
    unfold bind at 1.
    case_bool_decide as Hn.
    + exists [DisksInsert n (get_disk_volume_name name n) (Qmake (size d) 1000)].
      cbv [create_persistent_disk bind emit modify lift_res ret raise
             _blocking_call].
      by destruct (disks_insert w (get_disk_volume_name name n)).
    + cbn [ret]. unfold bind at 1, emit at 1, modify at 1.
      edestruct IH as (evs & Htr & Hcalls).
      exists (SanAddDrive node_name n :: evs).
      rewrite Htr, <- app_assoc. by split.
Qed.

Lemma process_added_disk_changes_no_insert w cfg s :
  exists evs,
    tr (process_added_disk_changes w cfg s).2 = tr s ++ evs /\
    instance_inserts evs = [].
Proof.
  unfold process_added_disk_changes, bind, gets, on_trace.
  destruct (process_added_disk_loop_no_insert w cfg
              (n_name (nr_node (req s))) (nr_instance_name (req s))
              (sorted_items (added (discoverStorageChanges w
                 (n_name (nr_node (req s))) false))) [] (tr s))
    as (evs & Htr & Hno).
  destruct (process_added_disk_loop _ _ _ _ _ _ _) as [o t'].
  by exists evs.
Qed.

(** A launch makes at most one instance-create call, under the launch
    name of the request, and exactly one if it returns. *)
Lemma launch_one_inserts w cfg args s :
  exists evs,
    tr (launch_one w cfg args s).2 = tr s ++ evs /\
    (instance_inserts evs = [] \/ instance_inserts evs = [launch_name (req s)]) /\
    (is_Ok (launch_one w cfg args s).1 = true ->
     instance_inserts evs = [launch_name (req s)]).
Proof.
  unfold launch_one, launch_name.
  cbv [bind gets update_req modify try_except on_trace lift_res ret raise emit].
  destruct (instance_metadata w _); cbn [fst snd req tr];
    [|eexists [_]; split_and!; [done | by left | done]].
  match goal with
  | |- context [process_added_disk_changes w cfg ?s0] =>
      destruct (process_added_disk_changes_no_insert w cfg s0)
        as (evs1 & Htr1 & Hno1);
      destruct (process_added_disk_changes w cfg s0) as [[pds|e] s1]
  end; cbn [fst snd req tr] in *;
    [|exists evs1; split_and!; [done | by left | done]].
  destruct s1 as [r1 t1]. cbn [req tr] in *. subst t1.
  unfold launch_instance.
  destruct (forallb _ _); cbv [bind emit modify lift_res ret raise];
    cbn [fst snd req tr].
  - destruct (instances_insert w _) as [response|e]; cbn [fst snd req tr].
    + destruct (zone_name response); cbn [fst snd req tr];
        [destruct (load_resource_adapter_config w); cbn [fst snd req tr]|];
        (eexists (evs1 ++ [_]); rewrite <- app_assoc;
         rewrite instance_inserts_app, Hno1;
         split_and!; [done | by right | done]).
    + eexists (evs1 ++ [_; _]). rewrite <- !app_assoc.
      rewrite instance_inserts_app, Hno1.
      split_and!; [done | by right | done].
  - eexists (evs1 ++ [_]). rewrite <- !app_assoc.
    rewrite instance_inserts_app, Hno1.
    split_and!; [done | by left | done].
Qed.

(** What a launch leaves on the request and on the node. *)
Lemma launch_one_frame w cfg args s :
  exists o s',
    launch_one w cfg args s = (o, s') /\
    n_name (nr_node (req s')) = n_name (nr_node (req s)) /\
    nr_instance_name (req s') = Some (launch_name (req s)) /\
    (is_Ok o = true ->
     exists response z i,
       instances_insert w (launch_name (req s)) = Ok response /\
       nr_response (req s') = Some response /\
       zone_name response = Some z /\
       n_instance (nr_node (req s')) = Some i /\
       im_instance i = launch_name (req s) /\
       im_instance_metadata i =
         ("zone", z) ::
         (if preemptible args then [("gce:scheduling", "preemptible")]
          else [])).
Proof.
  unfold launch_one, launch_name.
  cbv [bind gets update_req modify try_except on_trace lift_res ret raise emit].
  destruct (instance_metadata w _); cbn [fst snd req tr];
    [|eexists _, _; split; [reflexivity|]; done].
  match goal with
  | |- context [process_added_disk_changes w cfg ?s0] =>
      pose proof (process_added_disk_changes_req w cfg s0) as Hd;
      destruct (process_added_disk_changes w cfg s0) as [[pds|e] s1]
  end; cbn [fst snd req tr] in *;
    [|eexists _, _; split; [reflexivity|]; by rewrite Hd].
  destruct s1 as [r1 t1]. cbn [req tr] in *. subst r1.
  unfold launch_instance.
  destruct (forallb _ _); cbv [bind emit modify lift_res ret raise];
    cbn [fst snd req tr];
    [|eexists _, _; split; [reflexivity|]; done].
  destruct (instances_insert w _) as [response|e]; cbn [fst snd req tr];
    [|eexists _, _; split; [reflexivity|]; done].
  destruct (zone_name response) as [z|] eqn:Hz; cbn [fst snd req tr];
    [|eexists _, _; split; [reflexivity|]; done].
  destruct (load_resource_adapter_config w); cbn [fst snd req tr];
    (eexists _, _; split; [reflexivity|]); [|done].
  cbn. split_and!; [done | done |]. intros _.
  eexists response, z, _. split_and!; done.
Qed.

(** X12: the launch loop stops at the first request whose launch
    raises. With [k] the number of launches that returned: the first [k]
    requests hold the response of their create call, the requests after
    the failing one are left as they were, never submitted, and the
    instance-create calls are those of the first [k] requests, in queue
    order, with at most one more for the failing request. A loop that
    returns has made one create call per request. *)
Theorem launch_loop_stops_at_failure w cfg args reqs t :
  let run := for_each_loop (launch_one w cfg args) reqs t in
  exists (k : nat) evs,
    run.2.2 = t ++ evs /\
    length run.2.1 = length reqs /\
    Forall2 (fun r0 r =>
               exists response,
                 instances_insert w (launch_name r0) = Ok response /\
                 nr_response r = Some response)
      (take k reqs) (take k run.2.1) /\
    drop (S k) run.2.1 = drop (S k) reqs /\
    (instance_inserts evs = launch_name <$> take k reqs \/
     instance_inserts evs = launch_name <$> take (S k) reqs) /\
    (is_Ok run.1 = true -> k = length reqs) /\
    (is_Ok run.1 = false -> (k < length reqs)%nat).
Proof.
  cbv zeta. revert t. induction reqs as [|r rest IH]; intros t.
  - exists 0%nat, []. cbn. rewrite app_nil_r. split_and!; try done. by left.
  - cbn [for_each_loop].
    destruct (launch_one_inserts w cfg args {| req := r; tr := t |})
      as (evs0 & Htr0 & Hcases & Hok).
    destruct (launch_one_frame w cfg args {| req := r; tr := t |})
      as (o & s1' & Hrun & _ & _ & Hresp).
    destruct (launch_one w cfg args _) as [[[]|e] s1];
      injection Hrun as Ho Hs1; subst o s1'; cbn [fst snd req tr] in *.
    + destruct (IH (tr s1)) as (k & evs & Htr & Hlen & Hsub & Hrest & Hins & Hk1 & Hk2).
      destruct (for_each_loop _ rest (tr s1)) as [o [rest' t']].
      cbn [fst snd] in *.
      exists (S k), (evs0 ++ evs).
      rewrite Htr, Htr0, <- app_assoc, instance_inserts_app, (Hok eq_refl).
      split_and!; try done.
      * cbn. by rewrite Hlen.
      * cbn [take]. constructor; [|done].
        destruct (Hresp eq_refl) as (response & _ & _ & Hins0 & Hr0 & _).
        by exists response.
      * cbn [take fmap list_fmap app].
        destruct Hins as [->| ->]; [by left | by right].
      * intros Ho. cbn. by rewrite (Hk1 Ho).
      * intros Ho. cbn. specialize (Hk2 Ho). lia.
    + exists 0%nat, evs0. cbn. split_and!; try done; lia.
Qed.

(** ** Reconciliation, counted *)

Lemma count_events_app p t1 t2 :
  count_events p (t1 ++ t2) = (count_events p t1 + count_events p t2)%nat.
Proof. unfold count_events. by rewrite List.filter_app, length_app. Qed.

Lemma count_events_storage p name (items : list (Z * disk)) :
  (forall n, p (SanDeleteDrive name n) = false) ->
  count_events p
    (omap (fun '(removedDiskNumber, d) =>
             if bool_decide (adapter d <> "default") then None
             else Some (SanDeleteDrive name removedDiskNumber)) items) = 0%nat.
Proof.
  intros Hp. induction items as [|[n d] rest IH]; [done|].
  cbn [omap list_omap]. case_bool_decide; [done|].
  unfold count_events in *. cbn [List.filter]. by rewrite Hp.
Qed.

Lemma reconcile_events_counts w r :
  count_events is_provisioned_event (reconcile_events w r) =
    (if bool_decide (nr_status r = Success) then 1 else 0)%nat /\
  count_events is_record_delete (reconcile_events w r) =
    (if bool_decide (nr_status r = Success) then 0 else 1)%nat /\
  count_events is_commit (reconcile_events w r) = 0%nat /\
  count_events is_warning (reconcile_events w r) = 0%nat.
Proof.
  unfold reconcile_events. cbv zeta.
  destruct (decide (nr_status r = Success)) as [Hs|Hs].
  - rewrite (bool_decide_eq_false_2 (nr_status r <> Success)) by tauto.
    rewrite (bool_decide_eq_true_2 _ Hs). done.
  - rewrite (bool_decide_eq_true_2 _ Hs), (bool_decide_eq_false_2 _ Hs).
    rewrite !count_events_app, !count_events_storage by done.
    done.
Qed.

Lemma successes_cons r reqs :
  successes (r :: reqs) =
  ((if bool_decide (nr_status r = Success) then 1 else 0) + successes reqs)%nat.
Proof.
  unfold successes. rewrite filter_cons.
  destruct (decide (nr_status r = Success)) as [Hs|Hs].
  - by rewrite (bool_decide_eq_true_2 _ Hs).
  - by rewrite (bool_decide_eq_false_2 _ Hs).
Qed.

Lemma successes_le reqs : (successes reqs <= length reqs)%nat.
Proof.
  induction reqs as [|r rest IH]; [done|].
  rewrite successes_cons. cbn [length]. case_bool_decide; lia.
Qed.

Lemma reconcile_events_total w reqs :
  count_events is_provisioned_event (reqs ≫= reconcile_events w) =
    successes reqs /\
  (count_events is_record_delete (reqs ≫= reconcile_events w)
     + successes reqs)%nat = length reqs /\
  count_events is_commit (reqs ≫= reconcile_events w) = 0%nat /\
  count_events is_warning (reqs ≫= reconcile_events w) = 0%nat.
Proof.
  induction reqs as [|r rest (IH1 & IH2 & IH3 & IH4)]; [done|].
  rewrite bind_cons, !count_events_app, successes_cons.
  destruct (reconcile_events_counts w r) as (-> & -> & -> & ->).
  rewrite IH1, IH3, IH4. cbn [length].
  split_and!; try done. case_bool_decide; lia.
Qed.

Lemma returned_provisioned reqs :
  Forall (fun n => n_state n = NODE_STATE_PROVISIONED) (reqs ≫= returned).
Proof.
  induction reqs as [|r rest IH]; [constructor|].
  rewrite bind_cons. apply Forall_app. split; [|done].
  unfold returned, reconciled. case_bool_decide; by repeat constructor.
Qed.

(** X13: reconciliation always returns, and its books balance: it
    returns one provisioned node per request in success state and
    announces each of them once, deletes the record of every other
    request once, commits once, and warns once exactly when some but not
    all requests succeeded; the statuses of the requests are left as
    they were. *)
Theorem post_launch_action_accounting w reqs t :
  exists nodes reqs' evs,
    post_launch_action w (reqs, t) = (Ok nodes, (reqs', t ++ evs)) /\
    length nodes = successes reqs /\
    (length nodes <= length reqs)%nat /\
    Forall (fun n => n_state n = NODE_STATE_PROVISIONED) nodes /\
    nr_status <$> reqs' = nr_status <$> reqs /\
    count_events is_provisioned_event evs = successes reqs /\
    (count_events is_record_delete evs + successes reqs)%nat = length reqs /\
    count_events is_commit evs = 1%nat /\
    count_events is_warning evs =
      (if bool_decide (0 < successes reqs < length reqs)%nat then 1 else 0)%nat.
Proof.
  rewrite post_launch_action_eq.
  eexists _, _, _. split; [reflexivity|].
  destruct (reconcile_events_total w reqs) as (H1 & H2 & H3 & H4).
  rewrite length_returned, !count_events_app, H1, H3, H4.
  split_and!.
  - done.
  - apply successes_le.
  - apply returned_provisioned.
  - rewrite <- list_fmap_compose. apply list_fmap_ext.
    intros i r _. apply reconciled_status.
  - by destruct (_ && _).
  - destruct (_ && _); cbn; lia.
  - by destruct (_ && _).
  - destruct (decide (0 < successes reqs < length reqs)%nat) as [Hp|Hp].
    + rewrite (bool_decide_eq_true_2 _ Hp).
      rewrite (bool_decide_eq_true_2 (successes reqs <> 0%nat)) by lia.
      rewrite (bool_decide_eq_true_2 (successes reqs < length reqs)%nat) by lia.
      done.
    + rewrite (bool_decide_eq_false_2 _ Hp).
      destruct (decide (successes reqs = 0%nat)) as [Hz|Hz].
      * rewrite (bool_decide_eq_false_2 (successes reqs <> 0%nat)) by lia.
        done.
      * rewrite (bool_decide_eq_true_2 (successes reqs <> 0%nat)) by lia.
        rewrite (bool_decide_eq_false_2 (successes reqs < length reqs)%nat)
          by lia.
        done.
Qed.

(** ** Launching one request *)

Lemma get_project_and_zone_metadata_zone n i z more :
  n_instance n = Some i ->
  im_instance_metadata i = ("zone", z) :: more ->
  Forall (fun kv => kv.1 <> "project" /\ kv.1 <> "zone") more ->
  get_project_and_zone_metadata n = Ok (None, Some z).
Proof.
  intros Hi Hm Hmore. unfold get_project_and_zone_metadata.
  rewrite Hi, Hm. clear Hi Hm. f_equal. cbn [foldl].
  rewrite (bool_decide_eq_false_2 ("zone" = "project")) by done.
  rewrite (bool_decide_eq_true_2 ("zone" = "zone")) by done.
  generalize (Some z). induction Hmore as [|[k v] rest [H1 H2] _ IH];
    intros zone; [done|].
  cbn [foldl fst] in *.
  rewrite (bool_decide_eq_false_2 _ H1), (bool_decide_eq_false_2 _ H2).
  apply IH.
Qed.

(** A launch keeps the node name and sets the instance name; a launch
    that returns has stored the response of the create call and the
    instance record of the node. *)
(** X14: a launch that returns has made the create call under the
    launch name of the node, and has recorded on the node the instance
    name and the zone of the answer, the last component of its zone
    path; the zone lookup made when the instance is deleted later then
    finds that zone, and no project. The request carries the launch name
    also when the launch raises. *)
Theorem launch_one_records_zone w cfg args s :
  let run := launch_one w cfg args s in
  n_name (nr_node (req run.2)) = n_name (nr_node (req s)) /\
  nr_instance_name (req run.2) = Some (launch_name (req s)) /\
  match run.1 with
  | Ok _ =>
      exists response z i,
        instances_insert w (launch_name (req s)) = Ok response /\
        nr_response (req run.2) = Some response /\
        op_zone response <> None /\
        z = List.last (Py.split "/"%char (from_option id "" (op_zone response)))
              (from_option id "" (op_zone response)) /\
        n_instance (nr_node (req run.2)) = Some i /\
        im_instance i = launch_name (req s) /\
        get_project_and_zone_metadata (nr_node (req run.2)) =
          Ok (None, Some z)
  | Raise _ => True
  end.
Proof.
  cbv zeta.
  destruct (launch_one_frame w cfg args s) as (o & s' & -> & Hn & Hi & Hok).
  cbn [fst snd]. split_and!; [done | done |].
  destruct o as [[]|e]; [|done].
  destruct (Hok eq_refl) as (response & z & i & H1 & H2 & H3 & H4 & H5 & H6).
  exists response, z, i. split_and!; try done.
  - unfold zone_name in H3. by destruct (op_zone response).
  - unfold zone_name in H3. destruct (op_zone response); [|done].
    cbn in *. congruence.
  - eapply get_project_and_zone_metadata_zone; [done | done |].
    destruct (preemptible args); by repeat constructor.
Qed.

(** ** Every node record is accounted for *)

Lemma for_each_loop_names body :
  (forall s, n_name (nr_node (req (body s).2)) = n_name (nr_node (req s))) ->
  forall reqs t,
    request_names (for_each_loop body reqs t).2.1 = request_names reqs.
Proof.
  intros Hbody. induction reqs as [|r rest IH]; intros t; [done|].
  cbn [for_each_loop].
  pose proof (Hbody {| req := r; tr := t |}) as Hr.
  destruct (body _) as [[[]|e] s1]; cbn [fst snd req] in *.
  - specialize (IH (tr s1)).
    destruct (for_each_loop body rest (tr s1)) as [o [rest' t']].
    cbn [fst snd] in *. unfold request_names in *. cbn. by rewrite Hr, IH.
  - unfold request_names. cbn. by rewrite Hr.
Qed.

Lemma launch_one_name w cfg args s :
  n_name (nr_node (req (launch_one w cfg args s).2)) = n_name (nr_node (req s)).
Proof.
  by destruct (launch_one_frame w cfg args s) as (o & s' & -> & Hn & _).
Qed.

Lemma wait_worker_name w cfg s :
  n_name (nr_node (req (wait_worker w cfg s).2)) = n_name (nr_node (req s)).
Proof.
  unfold wait_worker. cbv [bind gets]. cbn [fst snd].
  destruct (nr_response (req s)); [|done].
  by destruct (wait_for_instance_frame w cfg s) as (s' & -> & [Hn _] & _).
Qed.

Lemma launch_instances_names w cfg extra_args reqs t :
  request_names (launch_instances w cfg extra_args (reqs, t)).2.1 =
  request_names reqs.
Proof.
  rewrite launch_instances_eq.
  destruct (get_common_launch_args w cfg extra_args t) as [[args|e] t1];
    [|done].
  pose proof (for_each_loop_names _ (launch_one_name w cfg args) reqs t1) as H1.
  destruct (for_each_loop (launch_one w cfg args) reqs t1)
    as [[[]|e] [reqs2 t2]]; cbn [fst snd] in *; [|done].
  pose proof (for_each_loop_names _ (wait_worker_name w cfg) reqs2 t2) as H2.
  destruct (for_each_loop (wait_worker w cfg) reqs2 t2)
    as [[[]|e] [reqs3 t3]]; cbn [fst snd] in *; [|congruence].
  destruct (raise_if_failed reqs3 t3). cbn [fst snd]. congruence.
Qed.

Lemma createNodes_loop_length w indices nodes :
  createNodes_loop w indices = Ok nodes -> length nodes = length indices.
Proof.
  revert nodes. induction indices as [|i rest IH]; intros nodes.
  - by intros [= <-].
  - cbn [createNodes_loop]. destruct (generate_node_name w i); [|done].
    cbn [res_bind]. destruct (createNodes_loop w rest) as [ns|]; [|done].
    cbn [res_bind]. intros [= <-]. cbn. by rewrite (IH ns).
Qed.

Lemma request_names_queue nodes :
  request_names (build_node_request_queue nodes) = n_name <$> nodes.
Proof.
  unfold request_names, build_node_request_queue.
  rewrite <- list_fmap_compose. by apply list_fmap_ext.
Qed.

Lemma request_names_reconciled reqs :
  request_names (reconciled <$> reqs) = request_names reqs.
Proof.
  unfold request_names. rewrite <- list_fmap_compose.
  apply list_fmap_ext. intros i r _. apply reconciled_name.
Qed.

(** X15: no node record is left behind by a batch provisioning call.
    If naming the nodes fails, nothing has been done. Otherwise the call
    leaves one request per requested node, for the nodes that were
    created, in order, and whatever the launch did, each of them is
    either in success state, provisioned and announced, or has had its
    record deleted. *)
Theorem addActiveNodes_no_orphans w cfg count extra_args :
  match createNodes w count with
  | Raise e => addActiveNodes w cfg count extra_args = (Raise e, ([], []))
  | Ok nodes =>
      let run := addActiveNodes w cfg count extra_args in
      length nodes = Z.to_nat count /\
      request_names run.2.1 = n_name <$> nodes /\
      Forall
        (fun r =>
           if bool_decide (nr_status r = Success) then
             n_state (nr_node r) = NODE_STATE_PROVISIONED /\
             ProvisionedEvent (n_name (nr_node r)) ∈ run.2.2
           else DbDelete (n_name (nr_node r)) ∈ run.2.2)
        run.2.1
  end.
Proof.
  pose proof (addActiveNodes_eq w cfg count extra_args) as Heq.
  pose proof (addActiveNodes_reconciled w cfg count extra_args) as Hrec.
  destruct (createNodes w count) as [nodes|e] eqn:Hc; [|done].
  cbv zeta. split_and!.
  - unfold createNodes in Hc. apply createNodes_loop_length in Hc.
    by rewrite Hc, length_seq.
  - rewrite Heq. cbv zeta.
    match goal with
    | |- context [launch_instances w cfg extra_args (?q, ?t0)] =>
        pose proof (launch_instances_names w cfg extra_args q t0) as Hn;
        destruct (launch_instances w cfg extra_args (q, t0))
          as [o1 [reqs1 t1]]
    end.
    cbn [fst snd] in *. rewrite post_launch_action_eq. cbn [fst snd].
    by rewrite request_names_reconciled, Hn, request_names_queue.
  - apply Forall_forall. intros r Hin.
    destruct (Hrec r Hin) as (r1 & -> & Hev).
    rewrite reconciled_status, reconciled_name.
    case_bool_decide as Hs.
    + destruct (reconcile_events_commit w r1 Hs) as [Hp Hst].
      split; [done | by apply Hev].
    + destruct (reconcile_events_rollback w r1 Hs) as (_ & Hd & _).
      by apply Hev.
Qed.

(** X16: a node that has a data disk of the default storage adapter to
    add (a disk number above 1) is never launched: the launch raises
    while its disks are provisioned, before the instance-create call,
    and the request is left without a response. *)
Theorem launch_one_data_disk_no_instance w cfg args s n d :
  added (discoverStorageChanges w (n_name (nr_node (req s))) false) !! n
    = Some d ->
  adapter d = "default" -> 1 < n ->
  let run := launch_one w cfg args s in
  is_Ok run.1 = false /\
  nr_response (req run.2) = nr_response (req s) /\
  exists evs, tr run.2 = tr s ++ evs /\ instance_inserts evs = [].
Proof.
  intros Hl Had Hn. cbv zeta. unfold launch_one.
  cbv [bind gets update_req modify try_except on_trace lift_res ret raise emit].
  destruct (instance_metadata w _); cbn [fst snd req tr];
    [|split_and!; [done | done | by eexists [_]]].
  match goal with
  | |- context [process_added_disk_changes w cfg ?s0] =>
      pose proof (process_added_disk_changes_data_disk w cfg s0 n d Hl Had Hn)
        as Hraise;
      pose proof (process_added_disk_changes_req w cfg s0) as Hd;
      destruct (process_added_disk_changes_no_insert w cfg s0)
        as (evs1 & Htr1 & Hno1);
      destruct (process_added_disk_changes w cfg s0) as [[pds|e] s1]
  end; cbn [fst snd req tr] in *; [done|].
  split_and!; [done | by rewrite Hd | by exists evs1].
Qed.

Lemma launch_one_data_disk_no_instance_witness :
  let s := {| req := new_node_request
                       (init_new_node "compute-0.cloud.example.com");
              tr := [] |} in
  let run :=
    launch_one Sample.one_data_disk Sample.cfg
      {| image_url := "projects/img/global/images/centos";
         network_interfaces := []; preemptible := false;
         accelerators := None |} s in
  is_Ok run.1 = false /\
  nr_response (req run.2) = nr_response (req s) /\
  exists evs, tr run.2 = tr s ++ evs /\ instance_inserts evs = [].
Proof.
  apply (launch_one_data_disk_no_instance Sample.one_data_disk Sample.cfg _ _
           2 (Sample.default_disk 10000)).
  - vm_compute. reflexivity.
  - reflexivity.
  - lia.
Defined.

(** ** The region of a zone *)

(** X17: the region that [process_config] stores is the zone up to its
    last hyphen, whatever region the configuration held before; the zone
    is the region, a hyphen, and a suffix without a hyphen. With no
    network setting the network list is the default network alone. The
    call fails on the scopes, on the tags, or on a zone without a
    hyphen, and then with [KeyError] if no region is set. *)
Theorem process_config_region cfg :
  match process_config cfg with
  | Ok (region, networks) =>
      (exists suffix,
         s_zone cfg = region +:+ "-" +:+ suffix /\
         Py.count "-" suffix = 0%nat) /\
      (0 < Py.count "-" (s_zone cfg))%nat /\
      length networks =
        length (from_option id (from_option id ["default"] (s_networks cfg))
                  (s_network cfg)) /\
      (s_network cfg = None -> s_networks cfg = None ->
       networks = [("default", None, None)])
  | Raise e =>
      s_default_scopes cfg = Raise e \/
      s_tags cfg = Raise e \/
      (Py.count "-" (s_zone cfg) = 0%nat /\
       match s_region cfg with
       | Some region =>
           e = ConfigurationError
                 ("Invalid format for 'region' setting: " +:+ region)
       | None => e = KeyError "region"
       end)
  end.
Proof.
  unfold process_config.
  destruct (s_default_scopes cfg) as [[]|e]; cbn [res_bind]; [|by left].
  destruct (s_tags cfg) as [tags|e]; cbn [res_bind]; [|by right; left].
  pose proof (rsplit1_spec "-" (s_zone cfg)) as Hsplit.
  destruct (Py.rsplit1 "-" (s_zone cfg)) as [|head [|tail [|]]]; try done.
  - destruct Hsplit as [_ Hc].
    destruct (s_region cfg); cbn [res_bind]; right; right; by split.
  - destruct Hsplit as [Hz Hc]. cbn [res_bind]. split_and!.
    + by exists tail.
    + rewrite Hz, count_app. cbn [Py.count].
      unfold Py.ascii_eqb. rewrite bool_decide_eq_true_2 by done. lia.
    + rewrite length_fmap.
      by destruct (s_network cfg), (s_networks cfg).
    + by intros -> ->.
Qed.

(** ** Disk volume names *)

Lemma pretty_N_go_head x s :
  (0 < x)%N ->
  exists c rest, pretty_N_go x s = String c rest /\ c <> "0"%char.
Proof.
  revert s. induction (N.lt_wf_0 x) as [x _ IH]; intros s Hx.
  rewrite pretty_N_go_step by done.
  destruct (decide (x `div` 10 = 0)%N) as [Hz|Hz].
  - rewrite Hz, pretty_N_go_0. eexists _, _. split; [done|].
    apply N.div_small_iff in Hz; [|done].
    rewrite N.mod_small by done.
    assert (x = 1 \/ x = 2 \/ x = 3 \/ x = 4 \/ x = 5 \/ x = 6
            \/ x = 7 \/ x = 8 \/ x = 9)%N as Hd by lia.
    destruct Hd as [->|[->|[->|[->|[->|[->|[->|[->| ->]]]]]]]]; done.
  - apply IH; [by apply N.div_lt | by apply N.neq_0_lt_0].
Qed.

Lemma format_02d_padded n m :
  0 <= n < 10 -> ~ (0 <= m < 10) -> "0" +:+ pretty n <> pretty m.
Proof.
  intros Hn Hm. rewrite string_app_cons, string_app_nil_l.
  destruct m as [|p|p]; [lia| |].
  - unfold pretty at 2, pretty_Z, pretty, pretty_positive, pretty, pretty_N.
    case_decide; [done|].
    destruct (pretty_N_go_head (N.pos p) "") as (c & rest & -> & Hc); [lia|].
    intros [= <- _]. done.
  - unfold pretty at 2, pretty_Z. rewrite string_app_cons. by intros [=].
Qed.

Lemma format_02d_inj n m : format_02d n = format_02d m -> n = m.
Proof.
  unfold format_02d.
  destruct (decide (0 <= n < 10)) as [Hn|Hn],
           (decide (0 <= m < 10)) as [Hm|Hm].
  - rewrite !andb_true_intro
      by (split; apply bool_decide_eq_true_2; lia).
    rewrite !string_app_cons, !string_app_nil_l.
    intros [= H]. by apply (inj pretty).
  - rewrite (andb_true_intro (conj (bool_decide_eq_true_2 _ (proj1 Hn))
                                   (bool_decide_eq_true_2 _ (proj2 Hn)))).
    replace (bool_decide (0 <= m) && bool_decide (m < 10)) with false.
    + intros H. by destruct (format_02d_padded n m).
    + symmetry. apply andb_false_iff.
      destruct (decide (0 <= m)); [right|left];
        apply bool_decide_eq_false_2; lia.
  - rewrite (andb_true_intro (conj (bool_decide_eq_true_2 _ (proj1 Hm))
                                   (bool_decide_eq_true_2 _ (proj2 Hm)))).
    replace (bool_decide (0 <= n) && bool_decide (n < 10)) with false.
    + intros H. by destruct (format_02d_padded m n).
    + symmetry. apply andb_false_iff.
      destruct (decide (0 <= n)); [right|left];
        apply bool_decide_eq_false_2; lia.
  - replace (bool_decide (0 <= n) && bool_decide (n < 10)) with false.
    replace (bool_decide (0 <= m) && bool_decide (m < 10)) with false.
    + apply (inj pretty).
    + symmetry. apply andb_false_iff.
      destruct (decide (0 <= m)); [right|left];
        apply bool_decide_eq_false_2; lia.
    + symmetry. apply andb_false_iff.
      destruct (decide (0 <= n)); [right|left];
        apply bool_decide_eq_false_2; lia.
Qed.

(** X18: the disks of one instance get different volume names: two
    disk numbers that differ give names that differ, padded or not, and
    each name starts with the instance name. *)
Theorem get_disk_volume_name_distinct instance_name n m :
  n <> m ->
  get_disk_volume_name instance_name n <> get_disk_volume_name instance_name m /\
  Py.startswith instance_name (get_disk_volume_name instance_name n) = true.
Proof.
  intros Hnm. unfold get_disk_volume_name. split.
  - intros H. apply Hnm, format_02d_inj.
    by apply (inj (String.app "-disk-")), (inj (String.app instance_name)).
  - apply prefix_app.
Qed.

Lemma get_disk_volume_name_distinct_witness :
  get_disk_volume_name "compute-0" 2 <> get_disk_volume_name "compute-0" 12 /\
  Py.startswith "compute-0" (get_disk_volume_name "compute-0" 2) = true.
Proof. apply (get_disk_volume_name_distinct "compute-0" 2 12). lia. Defined.

(** ** Node names *)

Lemma splitn_1_head sep h x :
  Py.count sep h = 0%nat ->
  Py.splitn sep 1 (h +:+ String sep x) = [h; x].
Proof.
  induction h as [|a h IH]; intros Hc.
  - rewrite string_app_nil_l, splitn_cons.
    unfold Py.ascii_eqb. rewrite bool_decide_eq_true_2 by done.
    by rewrite splitn_0.
  - rewrite string_app_cons, splitn_cons.
    cbn [Py.count] in Hc. unfold Py.ascii_eqb in *.
    case_bool_decide; [lia|]. by rewrite IH by lia.
Qed.

(** X19: the instance name of a generated node does not depend on the
    DNS settings: whichever domain the node name is given, its instance
    name is the host part of the generated name, which has no dot.
    Without the domain override and with a dotless installer host name,
    the node name is that host part itself. A generated name without a
    dot is refused with [ValueError]. *)
Theorem generate_node_name_instance_name fqdn override_dns_domain dns_domain
    private_dns_zone installer_public_hostname :
  match __generate_node_name fqdn override_dns_domain dns_domain
          private_dns_zone installer_public_hostname with
  | Ok node_name =>
      (0 < Py.count "." fqdn)%nat /\
      get_instance_name_from_host_name node_name =
        get_instance_name_from_host_name fqdn /\
      Py.count "." (get_instance_name_from_host_name node_name) = 0%nat /\
      Py.startswith (get_instance_name_from_host_name fqdn) node_name = true /\
      (override_dns_domain = false ->
       Py.count "." installer_public_hostname = 0%nat ->
       node_name = get_instance_name_from_host_name fqdn)
  | Raise e =>
      Py.count "." fqdn = 0%nat /\
      e = ValueError "not enough values to unpack (expected 2, got 1)"
  end.
Proof.
  unfold __generate_node_name.
  pose proof (splitn_concat "." 1 fqdn) as Hj.
  pose proof (splitn_length "." 1 fqdn) as Hl.
  pose proof (splitn_head_clean "." 0 fqdn) as Hc.
  assert (Hfq : forall hostname rest,
            Py.splitn "." 1 fqdn = [hostname; rest] ->
            get_instance_name_from_host_name fqdn = hostname).
  { intros hostname rest H. unfold get_instance_name_from_host_name.
    by rewrite H. }
  destruct (Py.splitn "." 1 fqdn) as [|hostname [|rest [|]]] eqn:Hs;
    cbn [length] in Hl; try (exfalso; lia).
  - split; [|done]. destruct (Py.count "." fqdn); [done | lia].
  - rewrite (Hfq hostname rest eq_refl). cbn [List.hd] in Hc.
    rewrite concat_cons_cons in Hj. cbn [String.concat] in Hj.
    assert (Hpos : (0 < Py.count "." fqdn)%nat).
    { destruct (Py.count "." fqdn); [discriminate | lia]. }
    assert (Hhost : forall x,
              get_instance_name_from_host_name (hostname +:+ "." +:+ x)
              = hostname).
    { intros x. unfold get_instance_name_from_host_name.
      change (hostname +:+ "." +:+ x) with (hostname +:+ String "." x).
      by rewrite splitn_1_head. }
    assert (Hself : get_instance_name_from_host_name hostname = hostname).
    { unfold get_instance_name_from_host_name.
      pose proof (splitn_concat "." 1 hostname) as Hj'.
      pose proof (splitn_length "." 1 hostname) as Hl'. rewrite Hc in Hl'.
      destruct (Py.splitn "." 1 hostname) as [|t1 [|]]; try discriminate.
      exact Hj'. }
    destruct override_dns_domain.
    + case_bool_decide.
      * rewrite (Hfq hostname rest eq_refl).
        split_and!; [done | done | done | | done].
        rewrite <- Hj. apply prefix_app.
      * rewrite Hhost. split_and!; [done | done | done | | done].
        apply prefix_app.
    + unfold Py.contains.
      destruct (Py.count "." installer_public_hostname) eqn:Hi; cbn [Nat.eqb negb].
      * rewrite Hself. split_and!; [done | done | done | | done].
        apply prefix_refl.
      * rewrite Hhost. split_and!; [done | done | done | | done].
        apply prefix_app.
Qed.

(** ** Deleting nodes *)

Lemma omap_storage {A} (f : event -> option A) name (items : list (Z * disk)) :
  (forall n, f (SanDeleteDrive name n) = None) ->
  omap f
    (omap (fun '(removedDiskNumber, d) =>
             if bool_decide (adapter d <> "default") then None
             else Some (SanDeleteDrive name removedDiskNumber)) items) = [].
Proof.
  intros Hf. induction items as [|[n d] rest IH]; [done|].
  cbn [omap list_omap]. case_bool_decide; [done|].
  cbn [omap list_omap]. by rewrite Hf.
Qed.

Lemma instance_deletes_app t1 t2 :
  instance_deletes (t1 ++ t2) = instance_deletes t1 ++ instance_deletes t2.
Proof. apply omap_app. Qed.

Lemma cleared_app t1 t2 : cleared (t1 ++ t2) = cleared t1 ++ cleared t2.
Proof. apply omap_app. Qed.

Lemma deleteNode_one_skip d w n t :
  has_vm d n = false -> deleteNode_one d w n t = (Ok tt, t).
Proof.
  unfold has_vm, deleteNode_one. destruct (n_instance n) as [i|]; [|done].
  destruct (adapter_configuration d i); [|done].
  by rewrite bool_decide_eq_true_2.
Qed.

(** What deleting one node with a VM does: it returns after one delete
    call and the cleanup, or raises after the delete call and before the
    cleanup, or raises before anything is asked. *)
Lemma deleteNode_one_vm d w n t :
  has_vm d n = true ->
  exists o evs,
    deleteNode_one d w n t = (o, t ++ evs) /\
    ((is_Ok o = true /\
      instance_deletes evs = [instance_name_of n] /\
      cleared evs = [n_name n]) \/
     (is_Ok o = false /\
      instance_deletes evs = [instance_name_of n] /\
      cleared evs = []) \/
     (is_Ok o = false /\ evs = [])).
Proof.
  unfold has_vm, deleteNode_one, instance_name_of.
  destruct (n_instance n) as [i|] eqn:Hi; [|done].
  destruct (adapter_configuration d i) as [name|]; [intros _|done].
  unfold deleteInstance, get_project_and_zone_metadata, node_cleanup,
    process_deleted_disk_changes. rewrite Hi.
  cbv [bind lift_res emit modify ret raise].
  destruct (get_gce_session d name) as [[]|e];
    [|exists (Raise e), []; rewrite app_nil_r; split; [done | by right; right]].
  assert (Hfinish : forall log,
    instance_deletes log = [] -> cleared log = [] ->
    let evs :=
      InstancesDelete (get_instance_name_from_host_name (n_name n)) :: log ++
      [ClearSessionNode (n_name n)] ++
      omap (fun '(removedDiskNumber, d0) =>
              if bool_decide (adapter d0 <> "default") then None
              else Some (SanDeleteDrive (n_name n) removedDiskNumber))
        (map_to_list (removed (discoverStorageChanges w (n_name n) true))) ++
      omap (fun '(removedDiskNumber, d0) =>
              if bool_decide (adapter d0 <> "default") then None
              else Some (SanDeleteDrive (n_name n) removedDiskNumber))
        (map_to_list (removed (discoverStorageChanges_again d (n_name n) true)))
    in
    instance_deletes evs = [get_instance_name_from_host_name (n_name n)] /\
    cleared evs = [n_name n]).
  { intros log Hl1 Hl2. cbv zeta.
    change (InstancesDelete ?x :: ?l) with ([InstancesDelete x] ++ l).
    rewrite !instance_deletes_app, !cleared_app, Hl1, Hl2.
    unfold instance_deletes, cleared. rewrite !omap_storage by done. done. }
  destruct (instances_delete w _) as [op|e]; cbn [fst snd].
  - eexists (Ok tt), _. split.
    + rewrite <- !app_assoc. reflexivity.
    + left. split; [done|]. apply (Hfinish []); done.
  - destruct e;
      try (eexists (Raise _), [_]; split; [reflexivity | by right; left]).
    case_bool_decide.
    + eexists (Ok tt), _. split.
      * rewrite <- !app_assoc. reflexivity.
      * left. split; [done|]. apply (Hfinish [_]); done.
    + eexists (Raise _), [_]. split; [reflexivity | by right; left].
Qed.

(** Deleting one node with a VM returns exactly when the node is
    deletable: a missing instance (404) is not a failure. *)
Lemma deleteNode_one_outcome d w n t :
  has_vm d n = true ->
  is_Ok (deleteNode_one d w n t).1 = true <-> deletable d w n.
Proof.
  unfold has_vm, deleteNode_one, deletable, instance_name_of.
  destruct (n_instance n) as [i|] eqn:Hi; [|done].
  destruct (adapter_configuration d i) as [name|] eqn:Ha; [intros _|done].
  unfold deleteInstance, get_project_and_zone_metadata, node_cleanup,
    process_deleted_disk_changes. rewrite Hi.
  cbv [bind lift_res emit modify ret raise].
  destruct (get_gce_session d name) as [[]|e] eqn:Hsess; cbn [fst snd].
  2:{ split; [done|]. intros [Hs _].
      specialize (Hs i name eq_refl Ha). by rewrite Hsess in Hs. }
  assert (Hs : forall i0 name0,
             Some i = Some i0 -> adapter_configuration d i0 = Some name0 ->
             is_Ok (get_gce_session d name0) = true).
  { intros i0 name0 [= <-] Ha0. rewrite Ha in Ha0.
    injection Ha0 as <-. by rewrite Hsess. }
  destruct (instances_delete w _) as [op|e]; cbn [fst snd].
  - split; [|done]. intros _. split; [exact Hs | by left].
  - destruct e; cbn [fst snd];
      try (split; [done | by intros [_ [?|?]]]).
    case_bool_decide as H404; cbn [fst snd].
    + subst. split; [|done]. intros _. split; [exact Hs | by right].
    + split; [done|]. intros [_ [?|[= ?]]]; done.
Qed.

Lemma deleteNode_outcome d w nodes : forall t,
  Forall (fun n => has_vm d n = true) nodes ->
  is_Ok (deleteNode d w nodes t).1 = true <-> Forall (deletable d w) nodes.
Proof.
  induction nodes as [|n rest IH]; intros t Hvm.
  - cbn. split; [by constructor | done].
  - apply Forall_cons in Hvm as [Hn Hrest].
    cbn [deleteNode]. unfold bind.
    pose proof (deleteNode_one_outcome d w n t Hn) as Hone.
    destruct (deleteNode_one d w n t) as [[[]|e] t1]; cbn [fst snd] in *.
    + rewrite (IH t1 Hrest), Forall_cons. split; [|by intros [_ ?]].
      intros Hall. split; [by apply Hone | done].
    + rewrite Forall_cons. split; [done|]. intros [Hd _].
      by apply Hone in Hd.
Qed.

(** X20: deleting nodes skips the nodes without a VM, and handles the
    others in order until one fails: with [k] the number of delete
    calls, they are the calls for the first [k] nodes with a VM; the
    first [k] of them are cleaned up, or the first [k - 1] when the last
    delete call failed. The call returns exactly when every node with a
    VM is deletable, so a missing instance (404) does not stop the
    loop; if the call returns, every node with a VM was deleted and
    cleaned up. *)
Theorem deleteNode_in_order d w nodes t :
  let vms := List.filter (has_vm d) nodes in
  let run := deleteNode d w nodes t in
  run = deleteNode d w vms t /\
  (is_Ok run.1 = true <-> Forall (deletable d w) vms) /\
  exists (k : nat) evs,
    run.2 = t ++ evs /\
    (k <= length vms)%nat /\
    instance_deletes evs = instance_name_of <$> take k vms /\
    (cleared evs = n_name <$> take k vms \/
     (0 < k)%nat /\ is_Ok run.1 = false /\
     cleared evs = n_name <$> take (k - 1) vms) /\
    (is_Ok run.1 = true -> k = length vms /\ cleared evs = n_name <$> vms).
Proof.
  cbv zeta.
  refine ((fun H => conj (proj1 H)
             (conj (eq_ind_r
                      (fun r => is_Ok r.1 = true <->
                                Forall (deletable d w)
                                  (List.filter (has_vm d) nodes))
                      (deleteNode_outcome d w _ t _) (proj1 H))
                   (proj2 H))) _).
  { apply Forall_forall. intros n Hn.
    apply list_elem_of_In, List.filter_In in Hn. tauto. }
  revert t. induction nodes as [|n rest IH]; intros t.
  - split; [done|]. exists 0%nat, []. cbn. rewrite app_nil_r.
    split_and!; try done. by left.
  - cbn [deleteNode List.filter]. destruct (has_vm d n) eqn:Hvm.
    + cbn [deleteNode]. unfold bind.
      destruct (deleteNode_one_vm d w n t Hvm) as (o & evs1 & -> & Hcases).
      destruct o as [[]|e]; cbn [fst snd].
      * destruct Hcases as [(_ & Hd1 & Hc1)|[(Hf & _)|(Hf & _)]];
          [|done|done].
        destruct (IH (t ++ evs1)) as (Heq & k & evs & Htr & Hk & Hd & Hc & Hok).
        split; [exact Heq|].
        exists (S k), (evs1 ++ evs).
        rewrite Htr, <- app_assoc, instance_deletes_app, cleared_app, Hd1, Hc1, Hd.
        split_and!; [done | cbn; lia | done | |].
        -- destruct Hc as [->|(Hpos & Hfail & ->)]; [by left|right].
           split_and!; [lia | done |].
           destruct k as [|k]; [lia|].
           cbn [take fmap list_fmap app Nat.sub]. by rewrite Nat.sub_0_r.
        -- intros Ho. destruct (Hok Ho) as [-> Hall].
           split; [done|]. by rewrite Hall.
      * destruct Hcases as [(Ht & _)|[(_ & Hd1 & Hc1)|(_ & ->)]]; [done| |].
        -- split; [done|]. exists 1%nat, evs1.
           split_and!; [done | cbn; lia | done | | done].
           right. split_and!; [lia | done | done].
        -- split; [done|]. exists 0%nat, []. cbn.
           split_and!; [done | lia | done | by left | done].
    + assert (Hskip : (deleteNode_one d w n >> deleteNode d w rest) t
                      = deleteNode d w rest t).
      { unfold bind. by rewrite deleteNode_one_skip. }
      rewrite Hskip. apply IH.
Qed.

(** ** A batch that goes through *)

Lemma gevent_sleep_Ok w key polling_interval attempt t :
  0 <= polling_interval ->
  exists t', gevent_sleep w key polling_interval attempt t = (Ok tt, t').
Proof.
  intros Hp. unfold gevent_sleep. destruct (0 <? attempt)%nat; [|by eexists].
  cbv zeta.
  pose proof (backoff_temp_nonneg polling_interval attempt Hp) as Hn.
  destruct (_ <? 0) eqn:Hneg; [|by eexists].
  apply Z.ltb_lt in Hneg.
  assert (0 <= backoff_temp polling_interval attempt / 2)
    by (apply Z.div_pos; lia).
  lia.
Qed.

Lemma _gevent_blocking_call_loop_completes w key polling_interval ending
    pre last post :
  0 <= polling_interval ->
  Forall (fun r => op_status r <> "DONE") pre ->
  op_status last = "DONE" ->
  forall response attempt t,
    op_status response <> "DONE" ->
    exists t',
      _gevent_blocking_call_loop w key polling_interval (pre ++ last :: post)
        ending response attempt t = (Ok (Some last), t').
Proof.
  intros Hp Hpre Hlast. induction Hpre as [|r pre Hr _ IH];
    intros response attempt t Hresp.
  - cbn [app _gevent_blocking_call_loop].
    rewrite (bool_decide_eq_false_2 _ Hresp), (bool_decide_eq_true_2 _ Hlast).
    cbv [bind emit modify ret].
    rewrite _gevent_blocking_call_loop_done by done. by eexists.
  - cbn [app _gevent_blocking_call_loop].
    rewrite (bool_decide_eq_false_2 _ Hresp), (bool_decide_eq_false_2 _ Hr).
    cbv [bind emit modify ret].
    destruct (gevent_sleep_Ok w key polling_interval attempt
                (t ++ [operation_get_call response]) Hp) as [t1 ->].
    apply IH. exact Hr.
Qed.

Lemma _gevent_blocking_call_completes w cfg r t :
  0 <= cfg_sleeptime cfg ->
  (if bool_decide (op_status r = "DONE") then op_error r = None
   else completes (operations_get w (op_name r))) ->
  exists result t',
    _gevent_blocking_call w (cfg_project cfg) r (cfg_sleeptime cfg) t =
      (Ok (Some result), t') /\
    op_error result = None.
Proof.
  intros Hp Hc. unfold _gevent_blocking_call.
  case_bool_decide as Hd.
  - rewrite _gevent_blocking_call_loop_done by done. by eexists _, _.
  - destruct Hc as (pre & last & post & -> & Hpre & Hlast & Herr).
    destruct (_gevent_blocking_call_loop_completes w (op_name r)
                (cfg_sleeptime cfg) (ending (operations_get w (op_name r)))
                pre last post Hp Hpre Hlast r 0%nat t Hd) as [t' ->].
    by eexists _, _.
Qed.

Lemma for_each_loop_all_Ok (P Q : node_request -> Prop) body :
  (forall s, P (req s) -> (body s).1 = Ok tt /\ Q (req (body s).2)) ->
  forall reqs t,
    Forall P reqs ->
    (for_each_loop body reqs t).1 = Ok tt /\
    Forall Q (for_each_loop body reqs t).2.1.
Proof.
  intros Hbody. induction reqs as [|r rest IH]; intros t HP.
  - by split.
  - apply Forall_cons in HP as [Hr Hrest]. cbn [for_each_loop].
    destruct (Hbody {| req := r; tr := t |} Hr) as [Ho Hq].
    destruct (body _) as [[[]|e] s1]; cbn [fst snd] in *; [|done].
    destruct (IH (tr s1) Hrest) as [Ho' Hq'].
    destruct (for_each_loop body rest (tr s1)) as [o [rest' t']].
    cbn [fst snd] in *. split; [done | by constructor].
Qed.

Lemma sorted_items_empty : sorted_items ∅ = [].
Proof. unfold sorted_items. by rewrite map_to_list_empty. Qed.

(** On a cooperative backend a launch returns, and leaves the request
    ready to be waited for. *)
Lemma launch_one_cooperative w cfg args s :
  cooperative w cfg ->
  let run := launch_one w cfg args s in
  run.1 = Ok tt /\
  n_name (nr_node (req run.2)) = n_name (nr_node (req s)) /\
  n_nics (nr_node (req run.2)) = n_nics (nr_node (req s)) /\
  n_instance (nr_node (req run.2)) <> None /\
  exists response,
    nr_response (req run.2) = Some response /\
    nr_instance_name (req run.2) = Some (launch_name (req s)) /\
    instances_insert w (launch_name (req s)) = Ok response.
Proof.
  intros (_ & Hdisks & Hmeta & Hcfg & Hins & _). cbv zeta.
  unfold launch_one, launch_name, process_added_disk_changes.
  cbv [bind gets update_req modify try_except on_trace lift_res ret raise emit].
  cbn [req tr].
  specialize (Hmeta (n_name (nr_node (req s)))).
  destruct (instance_metadata w _); [|done]. cbn [fst snd req tr].
  rewrite Hdisks, sorted_items_empty. cbn [process_added_disk_loop ret].
  cbn [fst snd req tr]. unfold launch_instance. cbn [List.tl forallb].
  cbv [bind emit modify lift_res ret raise]. cbn [fst snd req tr].
  destruct (Hins (get_instance_name_from_host_name (n_name (nr_node (req s)))))
    as (r & Hr & Hzone & _).
  rewrite Hr. cbn [fst snd req tr].
  unfold zone_name. destruct (op_zone r); [|done]. cbn [fmap option_fmap option_map].
  cbn [fst snd req tr].
  destruct (load_resource_adapter_config w); [|done]. cbn.
  split_and!; try done. by exists r.
Qed.

(** On a cooperative backend a request that was launched ends the wait
    in success state, with the address of the first interface of its
    instance on the node. *)
Lemma wait_worker_cooperative w cfg s name :
  cooperative w cfg ->
  (exists response,
     nr_response (req s) = Some response /\
     nr_instance_name (req s) = Some name /\
     instances_insert w name = Ok response) ->
  let run := wait_worker w cfg s in
  run.1 = Ok tt /\
  nr_status (req run.2) = Success /\
  n_name (nr_node (req run.2)) = n_name (nr_node (req s)) /\
  n_instance (nr_node (req run.2)) = n_instance (nr_node (req s)) /\
  exists vm ip,
    instances_get w name = Ok vm /\
    get_instance_internal_ip vm = Ok (Some ip) /\
    n_nics (nr_node (req run.2)) =
      n_nics (nr_node (req s)) ++ [ {| nic_ip := ip; nic_boot := true |} ].
Proof.
  intros (Hp & _ & _ & _ & Hins & Hget) (response & Hresp & Hname & Hr).
  cbv zeta. unfold wait_worker. cbv [bind gets]. cbn [fst snd]. rewrite Hresp.
  destruct (Hins name) as (r & Hr' & _ & Hc).
  rewrite Hr in Hr'. injection Hr' as <-.
  destruct (Hget name) as (vm & ip & Hvm & Hip & Hreg).
  unfold wait_for_instance, try_except, gevent_wait_for_instance.
  cbv [bind gets update_req modify on_trace ret raise]. cbn [fst snd req tr].
  rewrite Hresp.
  destruct (_gevent_blocking_call_completes w cfg response (tr s) Hp Hc)
    as (result & t' & -> & Herr).
  cbn [fst snd req tr]. rewrite Herr.
  rewrite bool_decide_eq_true_2 by done. cbn [fst snd req tr].
  unfold instance_post_launch, gce_get_vm.
  cbv [bind gets update_req modify on_trace lift_res ret raise emit].
  cbn [fst snd req tr set_status set_result nr_instance_name].
  rewrite Hname, Hvm. cbn [fst snd req tr]. rewrite Hip.
  cbn [fst snd req tr]. rewrite Hreg. cbn.
  split_and!; try done. by exists vm, ip.
Qed.

Lemma createNodes_loop_no_nics w indices nodes :
  createNodes_loop w indices = Ok nodes ->
  Forall (fun r => n_nics (nr_node r) = []) (build_node_request_queue nodes).
Proof.
  revert nodes. induction indices as [|i rest IH]; intros nodes.
  - intros [= <-]. constructor.
  - cbn [createNodes_loop]. destruct (generate_node_name w i); [|done].
    cbn [res_bind]. destruct (createNodes_loop w rest) as [ns|]; [|done].
    cbn [res_bind]. intros [= <-]. constructor; [done|]. by apply IH.
Qed.

Lemma request_names_length reqs reqs' :
  request_names reqs' = request_names reqs -> length reqs' = length reqs.
Proof.
  unfold request_names. intros H.
  by rewrite <- (length_fmap (fun r => n_name (nr_node r)) reqs'), H, length_fmap.
Qed.

Lemma get_instance_internal_ip_first vm ip :
  get_instance_internal_ip vm = Ok (Some ip) ->
  exists first rest,
    networkInterfaces vm = Some (first :: rest) /\ networkIP first = Some ip.
Proof.
  unfold get_instance_internal_ip.
  destruct (networkInterfaces vm) as [[|first rest]|]; [done| |done].
  destruct (networkIP first) as [ip'|] eqn:Hip; [|done].
  intros [= ->]. by exists first, rest.
Qed.

(** X21: on a cooperative backend the batch goes through: when the
    nodes are named and the launch arguments are computed, the batch
    provisioning call returns one node per requested instance; every
    request ends in success state and every returned node is
    provisioned, has its instance record, and carries as its one boot
    interface the address of the first interface of the instance the
    backend has under the instance name of the node. *)
Theorem batch_goes_through w cfg count extra_args :
  cooperative w cfg ->
  is_Ok (createNodes w count) = true ->
  (forall t, is_Ok (get_common_launch_args w cfg extra_args t).1 = true) ->
  let run := addActiveNodes w cfg count extra_args in
  exists result,
    run.1 = Ok result /\
    length result = Z.to_nat count /\
    result = nr_node <$> run.2.1 /\
    Forall (fun r => nr_status r = Success) run.2.1 /\
    Forall (fun n =>
              n_state n = NODE_STATE_PROVISIONED /\
              n_instance n <> None /\
              exists vm first rest ip,
                instances_get w (instance_name_of n) = Ok vm /\
                networkInterfaces vm = Some (first :: rest) /\
                networkIP first = Some ip /\
                n_nics n = [ {| nic_ip := ip; nic_boot := true |} ])
      result.
Proof.
  intros Hcoop Hnodes Hargs. cbv zeta.
  rewrite addActiveNodes_eq.
  destruct (createNodes w count) as [nodes|] eqn:Hc; [clear Hnodes|done].
  cbv zeta. rewrite launch_instances_eq.
  set (t0 := [DbAddAll (n_name <$> nodes); DbCommit]).
  specialize (Hargs t0).
  destruct (get_common_launch_args w cfg extra_args t0) as [[args|e] t1];
    [clear Hargs|done].
  set (Q1 := fun r : node_request =>
               n_nics (nr_node r) = [] /\
               n_instance (nr_node r) <> None /\
               exists response,
                 nr_response r = Some response /\
                 nr_instance_name r = Some (launch_name r) /\
                 instances_insert w (launch_name r) = Ok response).
  set (Q2 := fun r : node_request =>
               nr_status r = Success /\
               n_instance (nr_node r) <> None /\
               exists vm ip,
                 instances_get w (launch_name r) = Ok vm /\
                 get_instance_internal_ip vm = Ok (Some ip) /\
                 n_nics (nr_node r) = [ {| nic_ip := ip; nic_boot := true |} ]).
  destruct (for_each_loop_all_Ok (fun r => n_nics (nr_node r) = []) Q1
              (launch_one w cfg args)) with
    (reqs := build_node_request_queue nodes) (t := t1) as [Ho1 Hq1].
  { intros s Hs.
    destruct (launch_one_cooperative w cfg args s Hcoop)
      as (Ho & Hname & Hn & Hi & response & H1 & H2 & H3).
    split; [done|]. split_and!; [congruence | done |].
    exists response. unfold launch_name in *. by rewrite Hname. }
  { by apply (createNodes_loop_no_nics w (seq 0 (Z.to_nat count))). }
  pose proof (for_each_loop_names _ (launch_one_name w cfg args)
                (build_node_request_queue nodes) t1) as Hn1.
  destruct (for_each_loop (launch_one w cfg args)
              (build_node_request_queue nodes) t1) as [o1 [reqs2 t2]].
  cbn [fst snd] in Ho1, Hq1, Hn1. subst o1.
  destruct (for_each_loop_all_Ok Q1 Q2 (wait_worker w cfg)) with
    (reqs := reqs2) (t := t2) as [Ho2 Hq2]; [|exact Hq1|].
  { intros s (Hnics & Hinst & response & H1 & H2 & H3).
    destruct (wait_worker_cooperative w cfg s (launch_name (req s)) Hcoop)
      as (Ho & Hs & Hname & Hi & vm & ip & Hvm & Hvip & Hip).
    { by exists response. }
    split; [done|]. split_and!; [done | congruence |].
    exists vm, ip. unfold launch_name in *. by rewrite Hname, Hip, Hnics. }
  pose proof (for_each_loop_names _ (wait_worker_name w cfg) reqs2 t2) as Hn2.
  destruct (for_each_loop (wait_worker w cfg) reqs2 t2) as [o2 [reqs3 t3]].
  cbn [fst snd] in Ho2, Hq2, Hn2. subst o2.
  assert (Hall : Forall (fun r => nr_status r = Success) reqs3).
  { eapply Forall_impl; [exact Hq2|]. by intros r [? _]. }
  destruct (raise_if_failed_spec reqs3 t3) as [[_ ->]|[Hex _]].
  2:{ apply Exists_exists in Hex as (r & Hin & Herr).
      rewrite Forall_forall in Hall. by rewrite (Hall r Hin) in Herr. }
  cbn [fst snd]. rewrite post_launch_action_eq. cbn [fst snd].
  assert (Hrec : Forall (fun r => nr_status r = Success) (reconciled <$> reqs3)).
  { apply Forall_fmap. eapply Forall_impl; [exact Hall|].
    intros r Hr. cbn. by rewrite reconciled_status. }
  eexists. split; [reflexivity|].
  rewrite returned_eq, (filter_all_Success _ Hrec).
  split_and!.
  - rewrite !length_fmap.
    rewrite (request_names_length _ _ Hn2), (request_names_length _ _ Hn1).
    unfold build_node_request_queue. rewrite length_fmap.
    unfold createNodes in Hc. apply createNodes_loop_length in Hc.
    by rewrite Hc, length_seq.
  - done.
  - exact Hrec.
  - apply Forall_fmap, Forall_fmap.
    eapply Forall_impl; [exact Hq2|].
    intros r (Hs & Hi & vm & ip & Hvm & Hvip & Hip). cbn. unfold reconciled.
    rewrite bool_decide_eq_false_2 by (by intros H; apply H).
    destruct (get_instance_internal_ip_first vm ip Hvip)
      as (first & rest & Hni & Hnip).
    cbn. split_and!; [done | done | by exists vm, first, rest, ip].
Qed.

Lemma batch_goes_through_witness :
  let run := addActiveNodes Sample.healthy Sample.cfg 2 None in
  exists result,
    run.1 = Ok result /\
    length result = Z.to_nat 2 /\
    result = nr_node <$> run.2.1 /\
    Forall (fun r => nr_status r = Success) run.2.1 /\
    Forall (fun n =>
              n_state n = NODE_STATE_PROVISIONED /\
              n_instance n <> None /\
              exists vm first rest ip,
                instances_get Sample.healthy (instance_name_of n) = Ok vm /\
                networkInterfaces vm = Some (first :: rest) /\
                networkIP first = Some ip /\
                n_nics n = [ {| nic_ip := ip; nic_boot := true |} ])
      result.
Proof.
  apply (batch_goes_through Sample.healthy Sample.cfg 2 None).
  - unfold cooperative. split_and!.
    + vm_compute. discriminate.
    + intros name. reflexivity.
    + intros name. reflexivity.
    + reflexivity.
    + intros name. eexists. split_and!; [reflexivity | discriminate |].
      cbn. exists [Sample.op name "RUNNING" None],
                  (Sample.op name "DONE" None), [].
      split_and!; [reflexivity | | reflexivity | reflexivity].
      constructor; [discriminate | constructor].
    + intros name. exists (Sample.vm ["10.0.0.5"]), "10.0.0.5".
      split_and!; [reflexivity | reflexivity |]. intros node_name. reflexivity.
  - vm_compute. reflexivity.
  - intros t. vm_compute. reflexivity.
Defined.

(** ** The poller has no bound *)

Lemma script_answer_cons r more ending0 n :
  script_answer {| answers := r :: more; ending := ending0 |} (S n) =
  script_answer {| answers := more; ending := ending0 |} n.
Proof. reflexivity. Qed.

(** Against the answers of a script, followed for more polls than the
    script has answers, the loop is the loop on the script. *)
Lemma _gevent_blocking_call_fuel_script w key polling_interval ending0
    pending :
  forall backend fuel response attempt t,
    (forall n, backend (attempt + n)%nat =
               script_answer {| answers := pending; ending := ending0 |} n) ->
    (length pending < fuel)%nat ->
    _gevent_blocking_call_fuel w key polling_interval backend fuel response
      attempt t =
    Some (_gevent_blocking_call_loop w key polling_interval pending ending0
            response attempt t).
Proof.
  induction pending as [|r more IH];
    intros backend fuel response attempt t Hb Hfuel;
    (destruct fuel as [|fuel]; [cbn in Hfuel; lia|]);
    cbn [_gevent_blocking_call_fuel _gevent_blocking_call_loop];
    (case_bool_decide; [done|]);
    pose proof (Hb 0%nat) as H0; rewrite Nat.add_0_r in H0; rewrite H0;
    cbv [bind emit modify ret raise script_answer]; cbn.
  - by destruct ending0.
  - assert (Hnext : forall n,
               backend (S attempt + n)%nat =
               script_answer {| answers := more; ending := ending0 |} n).
    { intros n. rewrite <- script_answer_cons with (r := r), <- Hb.
      f_equal. lia. }
    cbn [length] in Hfuel.
    case_bool_decide.
    + apply IH; [exact Hnext | lia].
    + destruct (gevent_sleep w key polling_interval attempt _) as [[[]|e] t2];
        [|done].
      apply IH; [exact Hnext | lia].
Qed.

(** Against a backend that keeps reporting the operation as not done,
    the loop is still running after any number of polls. *)
Lemma _gevent_blocking_call_fuel_running w key polling_interval backend :
  0 <= polling_interval ->
  (forall n, exists r, backend n = AnswerOperation r /\ op_status r <> "DONE") ->
  forall fuel response attempt t,
    op_status response <> "DONE" ->
    _gevent_blocking_call_fuel w key polling_interval backend fuel response
      attempt t = None.
Proof.
  intros Hp Hb. induction fuel as [|fuel IH]; intros response attempt t Hr;
    cbn [_gevent_blocking_call_fuel];
    rewrite (bool_decide_eq_false_2 _ Hr); [done|].
  destruct (Hb attempt) as (r & -> & Hnd). cbv zeta.
  rewrite (bool_decide_eq_false_2 _ Hnd).
  destruct (gevent_sleep_Ok w key polling_interval attempt
              (t ++ [operation_get_call response]) Hp) as [t2 ->].
  by apply IH.
Qed.

(** X22: the poller has no bound of its own. Followed for more polls
    than the script of an operation has answers, the loop against the
    answers of the script has returned, with the outcome and the calls
    of the poller of the model; against a backend that reports the
    operation as not done at every poll, it is still running after any
    number of polls: the call that waits for the operation does not
    return. *)
Theorem poller_has_no_bound w project_id response polling_interval t :
  (forall fuel,
      (length (answers (operations_get w (op_name response))) < fuel)%nat ->
      _gevent_blocking_call_fuel w (op_name response) polling_interval
        (script_answer (operations_get w (op_name response))) fuel response
        0 t =
      Some (_gevent_blocking_call w project_id response polling_interval t)) /\
  (forall backend,
      0 <= polling_interval ->
      op_status response <> "DONE" ->
      (forall n, exists r,
          backend n = AnswerOperation r /\ op_status r <> "DONE") ->
      forall fuel,
        _gevent_blocking_call_fuel w (op_name response) polling_interval
          backend fuel response 0 t = None).
Proof.
  split.
  - intros fuel Hfuel. unfold _gevent_blocking_call.
    apply _gevent_blocking_call_fuel_script; [|done].
    intros n. by destruct (operations_get w (op_name response)).
  - intros backend Hp Hr Hb fuel.
    by apply _gevent_blocking_call_fuel_running.
Qed.

Lemma poller_has_no_bound_witness :
  _gevent_blocking_call_fuel Sample.healthy "compute-0" 5
    (script_answer (operations_get Sample.healthy "compute-0")) 3
    (Sample.op "compute-0" "RUNNING" None) 0 [] =
  Some (_gevent_blocking_call Sample.healthy "proj"
          (Sample.op "compute-0" "RUNNING" None) 5 []) /\
  _gevent_blocking_call_fuel Sample.healthy "compute-0" 5
    (fun _ => AnswerOperation (Sample.op "compute-0" "RUNNING" None)) 1000
    (Sample.op "compute-0" "RUNNING" None) 0 [] = None.
Proof.
  split.
  { apply (proj1 (poller_has_no_bound Sample.healthy "proj"
                    (Sample.op "compute-0" "RUNNING" None) 5 []) 3%nat).
    vm_compute. lia. }
  apply (proj2 (poller_has_no_bound Sample.healthy "proj"
                  (Sample.op "compute-0" "RUNNING" None) 5 [])).
  - lia.
  - discriminate.
  - intros n. eexists. split; [reflexivity | discriminate].
Defined.
